(** * The web client's event logger (client/web/src/tracking/eventLogger.ts)

    A shallow embedding of the [EventLogger] class, of the module-level
    helpers [handleQueryEvents] and [pageViewQueryParameters], and of the
    [browserExtensionMessageReceived] stream, followed by the properties
    the specification states about them and by further properties of the
    code.

    The logger is stateful code running in a browser.  The embedding
    threads one explicit [World] through every call: the browser state the
    logger reads and writes (cookie jar, local store, page address, clock),
    the fields of the singleton [EventLogger], and a chronological trace of
    every call that leaves the module (cookie and local-store accesses,
    listener callbacks, the [serverAdmin] transport, the console, the
    history API).  A computation either returns or throws, as in the
    source.

    What lies outside the module is taken as follows.
    - Cookies (js-cookie): the jar holds the cookies the page's scripts
      can see.  A write with the [secure] attribute is kept by the browser
      only on a page served over HTTPS and is dropped anywhere else; a
      write that is kept stores the value with the expiry instant computed
      from [expires], cut to the whole second as [toUTCString] hands it to
      the browser; a read sees a cookie until that instant.  The [domain]
      attribute is left out, the jar being the one of the page's domain.
      Days are rationals, so 0.0208 days are exactly 1797120 ms.
    - Strings are byte strings; [undefined] and [null] are both [None].
    - An address is the parsed value [new URL(url)] yields.
    - A registered listener is an opaque callback: calling it is recorded
      in the trace, it may throw, and it does not call back into the
      logger. *)

From Stdlib Require Import ZArith QArith Qround List Ascii String Lia Bool.
From stdpp Require Import base option gmap strings list.
Import ListNotations.

Local Close Scope Q_scope.
Local Open Scope Z_scope.
Local Open Scope string_scope.
Local Open Scope list_scope.

(** ** JavaScript values used by the logger *)

(** [string | undefined | null] is [option string]; both [undefined] and
    [null] are [None]. *)
Definition truthy (v : option string) : bool :=
  match v with
  | Some s => negb (s =? "")%string
  | None => false
  end.

(** [a || b] when [b] has no effect. *)
Definition jsOr (a b : option string) : option string :=
  if truthy a then a else b.

(** A value the source types as [string] after a chain of [||] whose last
    operand is a string. *)
Definition stringOf (v : option string) : string :=
  match v with
  | Some s => s
  | None => ""
  end.

(** Event properties ([any] in the source): [undefined] or an object whose
    fields hold optional strings. *)
Definition Props : Type := option (list (string * option string)).

(** ** The page address *)

(** A parsed address, the value [new URL(url)] yields: everything before
    the query, the decoded query parameters in order, and the fragment. *)
Record URL : Type := mkURL {
  url_base : string;
  url_searchParams : list (string * string);
  url_hash : string
}.

Definition searchParams_get (u : URL) (name : string) : option string :=
  match List.find (fun p => (fst p =? name)%string) (url_searchParams u) with
  | Some p => Some (snd p)
  | None => None
  end.

Definition searchParams_has (u : URL) (name : string) : bool :=
  List.existsb (fun p => (fst p =? name)%string) (url_searchParams u).

Definition searchParams_delete (name : string) (u : URL) : URL :=
  mkURL (url_base u)
        (List.filter (fun p => negb (fst p =? name)%string) (url_searchParams u))
        (url_hash u).

Fixpoint serializeParams (ps : list (string * string)) : string :=
  match ps with
  | [] => ""
  | [(k, v)] => k +:+ "=" +:+ v
  | (k, v) :: rest => k +:+ "=" +:+ v +:+ "&" +:+ serializeParams rest
  end.

(** [url.href] *)
Definition href (u : URL) : string :=
  url_base u
  +:+ (match url_searchParams u with [] => "" | ps => "?" +:+ serializeParams ps end)
  +:+ url_hash u.

(** ** Cookies (js-cookie) *)

Record CookieAttributes : Type := mkCookieAttributes {
  expires : Q;          (* days from now *)
  secure : bool;
  sameSite : string
}.

(** A stored cookie: its value and the instant (ms) at which it expires. *)
Record Cookie : Type := mkCookie {
  cookie_value : string;
  cookie_expires : Z
}.

(** js-cookie turns a number of days into the date
    [new Date(Date.now() + days * 864e5)] and writes it into the cookie
    with [toUTCString()], which keeps whole seconds. *)
Definition expiryInstant (now : Z) (attributes : CookieAttributes) : Z :=
  1000 * ((now + Qfloor (expires attributes * (86400000 # 1))%Q) / 1000).

(** ** The world *)

Record WindowContext : Type := mkWindowContext {
  userAgentIsBot : bool;
  sourcegraphDotComMode : bool;
  codyAppMode : bool
}.

(** Calls that leave the module, in the order they happen. *)
Inductive Effect : Type :=
| CookieGet (key : string)
| CookieSet (key value : string) (attributes : CookieAttributes)
| LocalStorageGet (key : string)
| LocalStorageRemove (key : string)
| LocalStorageSet (key value : string)
| UuidV4
| ListenerCalled (listener : nat) (eventName : string)
| TrackAction (eventLabel : string) (eventProperties publicArgument : Props)
| TrackPageView (eventName : string) (logAsActiveUser : bool) (eventProperties : Props)
| LoggerDebug (eventLabel : string) (eventProperties publicArgument : Props)
| ReplaceState (url : URL).

Record Browser : Type := mkBrowser {
  clock : Z;                                        (* Date.now(), ms *)
  cookieJar : gmap string Cookie;                   (* document.cookie *)
  localStorage : gmap string string;
  location : URL;                                   (* window.location *)
  referrer : string;                                (* document.referrer *)
  context : option WindowContext;                   (* window.context *)
  uuidSource : nat -> string;                       (* successive uuid.v4() results *)
  uuidDrawn : nat;
  listenerThrows : nat -> string -> option string;  (* callback, label -> thrown message *)
  secureContext : bool                              (* the page is served over HTTPS *)
}.

(** The fields of the [EventLogger] instance. *)
Record EventLogger : Type := mkEventLogger {
  hasStrippedQueryParameters : bool;
  anonymousUserID : string;
  cohortID : option string;
  firstSourceURL : option string;
  lastSourceURL : option string;
  deviceID : string;
  deviceSessionID : option string;
  eventID : Z;
  listeners : list nat;
  originalReferrer : option string;
  sessionReferrer : option string;
  sessionFirstURL : option string
}.

Record World : Type := mkWorld {
  browser : Browser;
  this : EventLogger;
  trace : list Effect
}.

(** *** Field updates *)

Definition set_cookieJar (j : gmap string Cookie) (b : Browser) : Browser :=
  mkBrowser (clock b) j (localStorage b) (location b) (referrer b) (context b)
            (uuidSource b) (uuidDrawn b) (listenerThrows b) (secureContext b).

Definition set_localStorage (s : gmap string string) (b : Browser) : Browser :=
  mkBrowser (clock b) (cookieJar b) s (location b) (referrer b) (context b)
            (uuidSource b) (uuidDrawn b) (listenerThrows b) (secureContext b).

Definition set_location (u : URL) (b : Browser) : Browser :=
  mkBrowser (clock b) (cookieJar b) (localStorage b) u (referrer b) (context b)
            (uuidSource b) (uuidDrawn b) (listenerThrows b) (secureContext b).

Definition set_uuidDrawn (n : nat) (b : Browser) : Browser :=
  mkBrowser (clock b) (cookieJar b) (localStorage b) (location b) (referrer b) (context b)
            (uuidSource b) n (listenerThrows b) (secureContext b).

Definition set_clock (t : Z) (b : Browser) : Browser :=
  mkBrowser t (cookieJar b) (localStorage b) (location b) (referrer b) (context b)
            (uuidSource b) (uuidDrawn b) (listenerThrows b) (secureContext b).


Definition set_hasStrippedQueryParameters (v : bool) (l : EventLogger) : EventLogger :=
  mkEventLogger v (anonymousUserID l) (cohortID l) (firstSourceURL l) (lastSourceURL l)
                (deviceID l) (deviceSessionID l) (eventID l) (listeners l)
                (originalReferrer l) (sessionReferrer l) (sessionFirstURL l).

Definition set_anonymousUserID (v : string) (l : EventLogger) : EventLogger :=
  mkEventLogger (hasStrippedQueryParameters l) v (cohortID l) (firstSourceURL l) (lastSourceURL l)
                (deviceID l) (deviceSessionID l) (eventID l) (listeners l)
                (originalReferrer l) (sessionReferrer l) (sessionFirstURL l).

Definition set_cohortID (v : option string) (l : EventLogger) : EventLogger :=
  mkEventLogger (hasStrippedQueryParameters l) (anonymousUserID l) v (firstSourceURL l) (lastSourceURL l)
                (deviceID l) (deviceSessionID l) (eventID l) (listeners l)
                (originalReferrer l) (sessionReferrer l) (sessionFirstURL l).

Definition set_firstSourceURL (v : option string) (l : EventLogger) : EventLogger :=
  mkEventLogger (hasStrippedQueryParameters l) (anonymousUserID l) (cohortID l) v (lastSourceURL l)
                (deviceID l) (deviceSessionID l) (eventID l) (listeners l)
                (originalReferrer l) (sessionReferrer l) (sessionFirstURL l).

Definition set_lastSourceURL (v : option string) (l : EventLogger) : EventLogger :=
  mkEventLogger (hasStrippedQueryParameters l) (anonymousUserID l) (cohortID l) (firstSourceURL l) v
                (deviceID l) (deviceSessionID l) (eventID l) (listeners l)
                (originalReferrer l) (sessionReferrer l) (sessionFirstURL l).

Definition set_deviceID (v : string) (l : EventLogger) : EventLogger :=
  mkEventLogger (hasStrippedQueryParameters l) (anonymousUserID l) (cohortID l) (firstSourceURL l)
                (lastSourceURL l) v (deviceSessionID l) (eventID l) (listeners l)
                (originalReferrer l) (sessionReferrer l) (sessionFirstURL l).

Definition set_deviceSessionID (v : option string) (l : EventLogger) : EventLogger :=
  mkEventLogger (hasStrippedQueryParameters l) (anonymousUserID l) (cohortID l) (firstSourceURL l)
                (lastSourceURL l) (deviceID l) v (eventID l) (listeners l)
                (originalReferrer l) (sessionReferrer l) (sessionFirstURL l).

Definition set_eventID (v : Z) (l : EventLogger) : EventLogger :=
  mkEventLogger (hasStrippedQueryParameters l) (anonymousUserID l) (cohortID l) (firstSourceURL l)
                (lastSourceURL l) (deviceID l) (deviceSessionID l) v (listeners l)
                (originalReferrer l) (sessionReferrer l) (sessionFirstURL l).

Definition set_listeners (v : list nat) (l : EventLogger) : EventLogger :=
  mkEventLogger (hasStrippedQueryParameters l) (anonymousUserID l) (cohortID l) (firstSourceURL l)
                (lastSourceURL l) (deviceID l) (deviceSessionID l) (eventID l) v
                (originalReferrer l) (sessionReferrer l) (sessionFirstURL l).

Definition set_originalReferrer (v : option string) (l : EventLogger) : EventLogger :=
  mkEventLogger (hasStrippedQueryParameters l) (anonymousUserID l) (cohortID l) (firstSourceURL l)
                (lastSourceURL l) (deviceID l) (deviceSessionID l) (eventID l) (listeners l)
                v (sessionReferrer l) (sessionFirstURL l).

Definition set_sessionReferrer (v : option string) (l : EventLogger) : EventLogger :=
  mkEventLogger (hasStrippedQueryParameters l) (anonymousUserID l) (cohortID l) (firstSourceURL l)
                (lastSourceURL l) (deviceID l) (deviceSessionID l) (eventID l) (listeners l)
                (originalReferrer l) v (sessionFirstURL l).

Definition set_sessionFirstURL (v : option string) (l : EventLogger) : EventLogger :=
  mkEventLogger (hasStrippedQueryParameters l) (anonymousUserID l) (cohortID l) (firstSourceURL l)
                (lastSourceURL l) (deviceID l) (deviceSessionID l) (eventID l) (listeners l)
                (originalReferrer l) (sessionReferrer l) v.

Definition onBrowser (f : Browser -> Browser) (w : World) : World :=
  mkWorld (f (browser w)) (this w) (trace w).

Definition onThis (f : EventLogger -> EventLogger) (w : World) : World :=
  mkWorld (browser w) (f (this w)) (trace w).

Definition record (e : Effect) (w : World) : World :=
  mkWorld (browser w) (this w) (trace w ++ [e]).

(** ** Computations: state passing with exceptions *)

Inductive Completion (A : Type) : Type :=
| Normal (a : A)
| Throw (message : string).
Arguments Normal {A} a.
Arguments Throw {A} message.

Definition M (A : Type) : Type := World -> Completion A * World.

Definition ret {A} (a : A) : M A := fun w => (Normal a, w).

Definition bind {A B} (m : M A) (k : A -> M B) : M B := fun w =>
  match m w with
  | (Normal a, w') => k a w'
  | (Throw e, w') => (Throw e, w')
  end.

Definition throw {A} (e : string) : M A := fun w => (Throw e, w).
Definition gets {A} (f : World -> A) : M A := fun w => (Normal (f w), w).
Definition modify (f : World -> World) : M unit := fun w => (Normal tt, f w).
Definition emit (e : Effect) : M unit := modify (record e).

Declare Scope js_scope.
Delimit Scope js_scope with js.
Notation "x <- m ;; k" := (bind m (fun x => k))
  (at level 100, m at next level, right associativity) : js_scope.
Notation "m ;; k" := (bind m (fun _ => k))
  (at level 100, right associativity) : js_scope.
Local Open Scope js_scope.

(** [for (const x of xs) body(x)] *)
Fixpoint forEach {A} (xs : list A) (body : A -> M unit) : M unit :=
  match xs with
  | [] => ret tt
  | x :: rest => body x ;; forEach rest body
  end.

(** [a || b] on optional strings, [b] evaluated only when [a] is falsy. *)
Definition orElse (a b : M (option string)) : M (option string) :=
  x <- a ;; if truthy x then ret x else b.
Infix "|||" := orElse (at level 50, left associativity) : js_scope.

Definition world_of {A} (r : Completion A * World) : World := snd r.
Definition result_of {A} (r : Completion A * World) : Completion A := fst r.

(** *** The browser's services *)

(** A cookie is visible until its expiry instant. *)
Definition liveCookie (b : Browser) (key : string) : option string :=
  match cookieJar b !! key with
  | Some c => if (clock b <? cookie_expires c)%Z then Some (cookie_value c) else None
  | None => None
  end.

Definition cookies_get (key : string) : M (option string) :=
  emit (CookieGet key) ;;
  gets (fun w => liveCookie (browser w) key).

(** Whether the browser keeps a cookie written with these attributes. *)
Definition acceptsCookie (b : Browser) (attributes : CookieAttributes) : bool :=
  negb (secure attributes) || secureContext b.

Definition cookies_set (key value : string) (attributes : CookieAttributes) : M unit :=
  emit (CookieSet key value attributes) ;;
  modify (onBrowser (fun b =>
    set_cookieJar
      (if acceptsCookie b attributes
       then <[key := mkCookie value (expiryInstant (clock b) attributes)]> (cookieJar b)
       else cookieJar b)
      b)).

Definition localStorage_getItem (key : string) : M (option string) :=
  emit (LocalStorageGet key) ;;
  gets (fun w => localStorage (browser w) !! key).

Definition localStorage_removeItem (key : string) : M unit :=
  emit (LocalStorageRemove key) ;;
  modify (onBrowser (fun b => set_localStorage (delete key (localStorage b)) b)).

Definition localStorage_setItem (key value : string) : M unit :=
  emit (LocalStorageSet key value) ;;
  modify (onBrowser (fun b => set_localStorage (<[key := value]> (localStorage b)) b)).

Definition uuid_v4 : M string :=
  emit UuidV4 ;;
  id <- gets (fun w => uuidSource (browser w) (uuidDrawn (browser w))) ;;
  modify (onBrowser (fun b => set_uuidDrawn (S (uuidDrawn b)) b)) ;;
  ret id.

(** [window.context?.userAgentIsBot] *)
Definition context_userAgentIsBot (w : World) : bool :=
  match context (browser w) with
  | Some c => userAgentIsBot c
  | None => false
  end.

(** Time passing between two calls into the module. *)
Definition elapse (dt : N) (w : World) : World :=
  onBrowser (fun b => set_clock (clock b + Z.of_N dt) b) w.

(** ** eventLogger.ts *)

Definition ANONYMOUS_USER_ID_KEY := "sourcegraphAnonymousUid".
Definition COHORT_ID_KEY := "sourcegraphCohortId".
Definition FIRST_SOURCE_URL_KEY := "sourcegraphSourceUrl".
Definition LAST_SOURCE_URL_KEY := "sourcegraphRecentSourceUrl".
Definition DEVICE_ID_KEY := "sourcegraphDeviceId".
Definition DEVICE_SESSION_ID_KEY := "sourcegraphSessionId".
Definition ORIGINAL_REFERRER_KEY := "originalReferrer".
Definition MKTO_ORIGINAL_REFERRER_KEY := "_mkto_referrer".
Definition SESSION_REFERRER_KEY := "sessionReferrer".
Definition SESSION_FIRST_URL_KEY := "sessionFirstUrl".

(** [window.context?.sourcegraphDotComMode || false], read once when the
    module loads; [window.context] does not change afterwards. *)
Definition isSourcegraphDotComMode (w : World) : bool :=
  match context (browser w) with
  | Some c => sourcegraphDotComMode c
  | None => false
  end.

(** 365 days expiry, but renewed on activity. *)
Definition cookieSettings : CookieAttributes :=
  mkCookieAttributes (365 # 1) true "Lax".

(** ~30 minutes expiry, but renewed on activity. *)
Definition deviceSessionCookieSettings : CookieAttributes :=
  mkCookieAttributes (208 # 10000) true "Lax".

(** *** Helpers imported from ./util *)

Definition msPerDay : Z := 86400000.

(** Day number of an instant, counted from 1970-01-01. *)
Definition dayOfInstant (now : Z) : Z := now / msPerDay.

(** Days elapsed since the last Monday; 1970-01-01 was a Thursday. *)
Definition daysSinceMonday (day : Z) : Z := (day + 3) mod 7.

Definition previousMonday (day : Z) : Z := day - daysSinceMonday day.

(** Calendar date (year, month, day of month) of a day number, in the
    proleptic Gregorian calendar. *)
Definition civilFromDays (day : Z) : Z * Z * Z :=
  let z := day + 719468 in
  let era := z / 146097 in
  let doe := z - era * 146097 in
  let yoe := (doe - doe / 1460 + doe / 36524 - doe / 146096) / 365 in
  let doy := doe - (365 * yoe + yoe / 4 - yoe / 100) in
  let mp := (5 * doy + 2) / 153 in
  let d := doy - (153 * mp + 2) / 5 + 1 in
  let m := if (mp <? 10)%Z then mp + 3 else mp - 9 in
  let y := yoe + era * 400 + (if (m <=? 2)%Z then 1 else 0) in
  (y, m, d).

Definition digitChar (n : Z) : ascii := ascii_of_N (48 + Z.to_N (n mod 10)).

Definition pad2 (n : Z) : string :=
  String (digitChar (n / 10)) (String (digitChar n) EmptyString).

Definition pad4 (n : Z) : string := pad2 (n / 100) +:+ pad2 n.

Definition dateLabel (day : Z) : string :=
  let '(y, m, d) := civilFromDays day in
  pad4 y +:+ "-" +:+ pad2 m +:+ "-" +:+ pad2 d.

(** Modelled from the spec: [getPreviousMonday] is imported from ./util,
    which is not among the sources.  The spec gives the cohort id as "the
    label of the most recent Monday on or before now (date-only
    precision)"; the label is rendered as that day's calendar date. *)
Definition getPreviousMonday (now : Z) : string :=
  dateLabel (previousMonday (dayOfInstant now)).

(** Modelled from the spec: [stripURLParameters] is imported from ./util,
    which is not among the sources.  The spec has the listed markers
    "stripped from the URL via a destructive, idempotent rewrite of browser
    navigation state", the address bar being rewritten without a
    navigation. *)
Definition stripURLParameters (url : URL) (parametersToRemove : list string) : M unit :=
  let stripped := List.fold_right searchParams_delete url parametersToRemove in
  emit (ReplaceState stripped) ;;
  modify (onBrowser (set_location stripped)).

(** *** debugEventLoggingEnabled *)

Definition debugEventLoggingEnabled : M bool :=
  v <- localStorage_getItem "eventLogDebug" ;;
  ret (match v with Some s => (s =? "true")%string | None => false end).

Definition setDebugEventLoggingEnabled (enabled : bool) : M unit :=
  localStorage_setItem "eventLogDebug" (if enabled then "true" else "false").

(** *** class EventLogger *)

Definition getAnonymousUserID : M string := gets (fun w => anonymousUserID (this w)).

Definition getCohortID : M (option string) := gets (fun w => cohortID (this w)).

Definition getDeviceID : M string := gets (fun w => deviceID (this w)).

Definition getFirstSourceURL : M string :=
  dotcom <- gets isSourcegraphDotComMode ;;
  if negb dotcom then ret "" else
  v <- (gets (fun w => firstSourceURL (this w))
        ||| cookies_get FIRST_SOURCE_URL_KEY
        ||| gets (fun w => Some (href (location (browser w))))) ;;
  let firstSourceURL := stringOf v in
  modify (onThis (set_firstSourceURL (Some firstSourceURL))) ;;
  cookies_set FIRST_SOURCE_URL_KEY firstSourceURL cookieSettings ;;
  ret firstSourceURL.

Definition getLastSourceURL : M string :=
  dotcom <- gets isSourcegraphDotComMode ;;
  if negb dotcom then ret "" else
  v <- (gets (fun w => lastSourceURL (this w))
        ||| cookies_get LAST_SOURCE_URL_KEY
        ||| gets (fun w => Some (href (location (browser w))))) ;;
  let lastSourceURL := stringOf v in
  modify (onThis (set_lastSourceURL (Some lastSourceURL))) ;;
  cookies_set LAST_SOURCE_URL_KEY lastSourceURL cookieSettings ;;
  ret lastSourceURL.

Definition getOriginalReferrer : M string :=
  dotcom <- gets isSourcegraphDotComMode ;;
  if negb dotcom then ret "" else
  v <- (gets (fun w => originalReferrer (this w))
        ||| cookies_get ORIGINAL_REFERRER_KEY
        ||| cookies_get MKTO_ORIGINAL_REFERRER_KEY
        ||| gets (fun w => Some (referrer (browser w)))) ;;
  let originalReferrer := stringOf v in
  modify (onThis (set_originalReferrer (Some originalReferrer))) ;;
  cookies_set ORIGINAL_REFERRER_KEY originalReferrer cookieSettings ;;
  ret originalReferrer.

Definition getSessionReferrer : M string :=
  dotcom <- gets isSourcegraphDotComMode ;;
  if negb dotcom then ret "" else
  v <- (gets (fun w => sessionReferrer (this w))
        ||| cookies_get SESSION_REFERRER_KEY
        ||| gets (fun w => Some (referrer (browser w)))) ;;
  let sessionReferrer := stringOf v in
  modify (onThis (set_sessionReferrer (Some sessionReferrer))) ;;
  cookies_set SESSION_REFERRER_KEY sessionReferrer deviceSessionCookieSettings ;;
  ret sessionReferrer.

Definition getSessionFirstURL : M string :=
  dotcom <- gets isSourcegraphDotComMode ;;
  if negb dotcom then ret "" else
  v <- (gets (fun w => sessionFirstURL (this w))
        ||| cookies_get SESSION_FIRST_URL_KEY
        ||| gets (fun w => Some (href (location (browser w))))) ;;
  let sessionFirstURL := stringOf v in
  modify (onThis (set_sessionFirstURL (Some sessionFirstURL))) ;;
  cookies_set SESSION_FIRST_URL_KEY sessionFirstURL deviceSessionCookieSettings ;;
  ret sessionFirstURL.

Definition getDeviceSessionID : M string :=
  (* read from the cookie, otherwise check the global variable *)
  v <- (cookies_get DEVICE_SESSION_ID_KEY
        ||| gets (fun w => deviceSessionID (this w))) ;;
  deviceSessionID <- (if negb (truthy v) then getAnonymousUserID else ret (stringOf v)) ;;
  cookies_set DEVICE_SESSION_ID_KEY deviceSessionID deviceSessionCookieSettings ;;
  modify (onThis (set_deviceSessionID (Some deviceSessionID))) ;;
  ret deviceSessionID.

Definition getInsertID : M string := uuid_v4.

Definition getEventID : M Z :=
  modify (onThis (fun l => set_eventID (eventID l + 1) l)) ;;
  gets (fun w => eventID (this w)).

Definition getReferrer : M string :=
  referrer <- gets (fun w => referrer (browser w)) ;;
  dotcom <- gets isSourcegraphDotComMode ;;
  if dotcom then ret referrer else ret "".

Inductive EventClient : Type := APP_WEB | DOTCOM_WEB | SERVER_WEB.

Definition getClient : M EventClient :=
  ctx <- gets (fun w => context (browser w)) ;;
  if match ctx with Some c => codyAppMode c | None => false end then ret APP_WEB
  else if match ctx with Some c => sourcegraphDotComMode c | None => false end then ret DOTCOM_WEB
  else ret SERVER_WEB.

(** Grabs and sets the deviceSessionID to renew the session expiration. *)
Definition resetSessionCookieExpiration : M bool :=
  deviceSessionID <- getDeviceSessionID ;;
  if negb (truthy (Some deviceSessionID)) then
    modify (onThis (set_deviceSessionID (Some deviceSessionID))) ;;
    ret false
  else ret true.

Definition logToConsole (eventLabel : string) (eventProperties publicArgument : Props) : M unit :=
  enabled <- debugEventLoggingEnabled ;;
  if enabled then emit (LoggerDebug eventLabel eventProperties publicArgument) else ret tt.

(** A registered callback is code outside the module: calling it is
    recorded, and it may throw. *)
Definition callListener (eventLabel : string) (listener : nat) : M unit :=
  emit (ListenerCalled listener eventLabel) ;;
  failure <- gets (fun w => listenerThrows (browser w) listener eventLabel) ;;
  match failure with
  | Some message => throw message
  | None => ret tt
  end.

Definition log (eventLabel : string) (eventProperties publicArgument : Props) : M unit :=
  (* call to refresh the session *)
  resetSessionCookieExpiration ;;
  ls <- gets (fun w => listeners (this w)) ;;
  forEach ls (callListener eventLabel) ;;
  bot <- gets context_userAgentIsBot ;;
  if bot || negb (truthy (Some eventLabel)) then ret tt else
  emit (TrackAction eventLabel eventProperties publicArgument) ;;
  logToConsole eventLabel eventProperties publicArgument.

(** [x || undefined] *)
Definition orUndefined (v : option string) : option string :=
  if truthy v then v else None.

Definition LF : ascii := "010"%char.
Definition CR : ascii := "013"%char.

(** Whether the text holds a character the pattern [.] refuses: LF, CR,
    U+2028 or U+2029 (the last two as their UTF-8 bytes). *)
Fixpoint hasLineTerminator (s : string) : bool :=
  match s with
  | EmptyString => false
  | String c rest =>
      if (c =? LF)%char || (c =? CR)%char then true
      else if (c =? "226")%char
              && match rest with
                 | String c1 (String c2 _) =>
                     (c1 =? "128")%char && ((c2 =? "168")%char || (c2 =? "169")%char)
                 | _ => false
                 end
      then true
      else hasLineTerminator rest
  end.

(** The campaign test of the source: a match of the pattern anchored at
    both ends, made of the literal cloud-onboarding-email followed by any
    run of characters other than line terminators. *)
Definition matchesCloudOnboardingEmail (s : string) : bool :=
  let p := "cloud-onboarding-email" in
  String.prefix p s
  && negb (hasLineTerminator (String.substring (String.length p) (String.length s) s)).

Definition codeHostIntegrations : list string :=
  [ "safari-extension"; "firefox-extension"; "chrome-extension";
    "phabricator-integration"; "bitbucket-integration"; "gitlab-integration" ].

Definition includes (xs : list string) (x : string) : bool :=
  List.existsb (fun y => (y =? x)%string) xs.

(** [v === s] *)
Definition strictEq (v : option string) (s : string) : bool :=
  match v with
  | Some x => (x =? s)%string
  | None => false
  end.

(** Get pageview-specific event properties from URL query string parameters *)
Definition pageViewQueryParameters (url : URL) : M Props :=
  let parsedUrl := url in
  let utmSource := searchParams_get parsedUrl "utm_source" in
  let utmCampaign := searchParams_get parsedUrl "utm_campaign" in
  let utmMedium := searchParams_get parsedUrl "utm_medium" in
  let utmProps : Props := Some
    [ ("utm_campaign", orUndefined utmCampaign);
      ("utm_source", orUndefined utmSource);
      ("utm_medium", orUndefined utmMedium);
      ("utm_term", orUndefined (searchParams_get parsedUrl "utm_term"));
      ("utm_content", orUndefined (searchParams_get parsedUrl "utm_content")) ] in
  (if strictEq utmSource "saved-search-email" then
     log "SavedSearchEmailClicked" None None
   else if strictEq utmSource "saved-search-slack" then
     log "SavedSearchSlackClicked" None None
   else if strictEq utmSource "code-monitoring-email" then
     log "CodeMonitorEmailLinkClicked" None None
   else if strictEq utmSource "hubspot"
           && match utmCampaign with Some c => matchesCloudOnboardingEmail c | None => false end then
     log "UTMCampaignLinkClicked" utmProps utmProps
   else if includes codeHostIntegrations (stringOf utmSource) then
     log "UTMCodeHostIntegration" utmProps utmProps
   else if strictEq utmMedium "VSCODE" && strictEq utmCampaign "vsce-sign-up" then
     log "VSCODESignUpLinkClicked" utmProps utmProps
   else ret tt) ;;
  ret utmProps.

(** Log events associated with URL query string parameters, and remove
    those parameters as necessary. *)
Definition handleQueryEvents (url : URL) : M unit :=
  let parsedUrl := url in
  (if searchParams_has parsedUrl "signup" then
     let args : Props :=
       Some [("serviceType", jsOr (searchParams_get parsedUrl "signup") (Some ""))] in
     log "web:auth:signUpCompleted" args args
   else ret tt) ;;
  (if searchParams_has parsedUrl "signin" then
     let args : Props :=
       Some [("serviceType", jsOr (searchParams_get parsedUrl "signin") (Some ""))] in
     log "web:auth:signInCompleted" args args
   else ret tt) ;;
  stripURLParameters url ["utm_campaign"; "utm_source"; "utm_medium"; "signup"; "signin"].

Definition logViewEventInternal (eventName : string) (eventProperties : Props)
    (logAsActiveUser : bool) : M unit :=
  here <- gets (fun w => location (browser w)) ;;
  props <- pageViewQueryParameters here ;;
  emit (TrackPageView eventName logAsActiveUser eventProperties) ;;
  logToConsole eventName props None ;;
  (* Use flag to ensure URL query params are only stripped once *)
  stripped <- gets (fun w => hasStrippedQueryParameters (this w)) ;;
  if negb stripped then
    here <- gets (fun w => location (browser w)) ;;
    handleQueryEvents here ;;
    modify (onThis (set_hasStrippedQueryParameters true))
  else ret tt.

Definition logViewEvent (pageTitle : string) (eventProperties : Props)
    (logAsActiveUser : bool) : M unit :=
  (* call to refresh the session *)
  resetSessionCookieExpiration ;;
  bot <- gets context_userAgentIsBot ;;
  if bot || negb (truthy (Some pageTitle)) then ret tt else
  let pageTitle := "View" +:+ pageTitle in
  logViewEventInternal pageTitle eventProperties logAsActiveUser.

Definition logPageView (eventName : string) (eventProperties : Props)
    (logAsActiveUser : bool) : M unit :=
  (* call to refresh the session *)
  resetSessionCookieExpiration ;;
  bot <- gets context_userAgentIsBot ;;
  if bot || negb (truthy (Some eventName)) then ret tt else
  let eventName := eventName +:+ "Viewed" in
  logViewEventInternal eventName eventProperties logAsActiveUser.

(** Gets the anonymous user ID and cohort ID of the user from cookies.
    If user doesn't have an anonymous user ID yet, a new one is generated,
    along with a cohort ID of the week the user first visited. *)
Definition initializeLogParameters : M unit :=
  found <- (cookies_get ANONYMOUS_USER_ID_KEY
            ||| localStorage_getItem ANONYMOUS_USER_ID_KEY) ;;
  stored <- cookies_get COHORT_ID_KEY ;;
  modify (onThis (set_deviceSessionID (Some ""))) ;;
  ids <- (if negb (truthy found) then
            fresh <- uuid_v4 ;;
            now <- gets (fun w => clock (browser w)) ;;
            ret (fresh, Some (getPreviousMonday now))
          else ret (stringOf found, stored)) ;;
  let anonymousUserID := fst ids in
  let cohortID := snd ids in
  (* Always set to renew expiry and migrate from localStorage *)
  cookies_set ANONYMOUS_USER_ID_KEY anonymousUserID cookieSettings ;;
  localStorage_removeItem ANONYMOUS_USER_ID_KEY ;;
  (if truthy cohortID then cookies_set COHORT_ID_KEY (stringOf cohortID) cookieSettings
   else ret tt) ;;
  d <- cookies_get DEVICE_ID_KEY ;;
  (* If device ID does not exist, use the anonymous user ID value *)
  let deviceID := if negb (truthy d) then anonymousUserID else stringOf d in
  cookies_set DEVICE_ID_KEY deviceID cookieSettings ;;
  s <- (cookies_get DEVICE_SESSION_ID_KEY
        ||| gets (fun w => deviceSessionID (this w))) ;;
  let deviceSessionID := if negb (truthy s) then anonymousUserID else stringOf s in
  cookies_set DEVICE_SESSION_ID_KEY deviceSessionID deviceSessionCookieSettings ;;
  r <- cookies_get ORIGINAL_REFERRER_KEY ;;
  originalReferrer <- (if negb (truthy r) then getOriginalReferrer else ret (stringOf r)) ;;
  r <- cookies_get SESSION_REFERRER_KEY ;;
  sessionReferrer <- (if negb (truthy r) then getSessionReferrer else ret (stringOf r)) ;;
  u <- cookies_get SESSION_FIRST_URL_KEY ;;
  sessionFirstURL <- (if negb (truthy u) then getSessionFirstURL else ret (stringOf u)) ;;
  modify (onThis (set_anonymousUserID anonymousUserID)) ;;
  modify (onThis (set_cohortID cohortID)) ;;
  modify (onThis (set_deviceID deviceID)) ;;
  modify (onThis (set_deviceSessionID (Some deviceSessionID))) ;;
  modify (onThis (set_originalReferrer (Some originalReferrer))) ;;
  modify (onThis (set_sessionReferrer (Some sessionReferrer))) ;;
  modify (onThis (set_sessionFirstURL (Some sessionFirstURL))).

(** [listeners] is a [Set]: adding a member again changes nothing, and
    iteration follows insertion order. *)
Definition addEventLogListener (callback : nat) : M unit :=
  modify (onThis (fun l =>
    if List.existsb (Nat.eqb callback) (listeners l) then l
    else set_listeners (listeners l ++ [callback]) l)).

(** The closure [addEventLogListener] returns. *)
Definition removeEventLogListener (callback : nat) : M unit :=
  modify (onThis (fun l =>
    set_listeners (List.filter (fun c => negb (Nat.eqb callback c)) (listeners l)) l)).

(** The field initialisers of the class. *)
Definition initialFields : EventLogger :=
  mkEventLogger false "" None None None "" None 0 [] None None None.

(** [new EventLogger()] in a given browser: the instance after the
    constructor has run [initializeLogParameters]. *)
Definition newEventLogger (b : Browser) : Completion unit * World :=
  initializeLogParameters (mkWorld b initialFields []).

(** *** Reading an address

    [parseURL] splits a plain address text into the parts of a [URL]: the
    fragment from the first [#], the query from the first [?] before it,
    the parameters at [&] and each at its first [=].  Percent-escapes are
    left as they are. *)
Fixpoint splitAt (c : ascii) (s : string) : string * option string :=
  match s with
  | EmptyString => (EmptyString, None)
  | String a rest =>
      if (a =? c)%char then (EmptyString, Some rest)
      else let r := splitAt c rest in (String a (fst r), snd r)
  end.

Fixpoint splitOn (c : ascii) (s : string) : list string :=
  match s with
  | EmptyString => [EmptyString]
  | String a rest =>
      if (a =? c)%char then EmptyString :: splitOn c rest
      else match splitOn c rest with
           | [] => [String a EmptyString]
           | h :: t => String a h :: t
           end
  end.

Definition parseParams (query : string) : list (string * string) :=
  map (fun piece => let r := splitAt "=" piece in (fst r, stringOf (snd r)))
      (List.filter (fun piece => negb (piece =? "")%string) (splitOn "&" query)).

Definition parseURL (s : string) : URL :=
  let h := splitAt "#" s in
  let q := splitAt "?" (fst h) in
  mkURL (fst q)
        (parseParams (stringOf (snd q)))
        (match snd h with Some f => String "#" f | None => EmptyString end).

(** ** The browser-extension stream

    An observable is described by the notifications it delivers once
    connected, each with the instant (ms after the connection) at which it
    is delivered, in chronological order.  Completion carries no payload
    and is left out: a stream that ends just stops.  After an error nothing
    more is delivered. *)
Inductive Notification (A : Type) : Type :=
| Next (value : A)
| Error (message : string).
Arguments Next {A} value.
Arguments Error {A} message.

Definition Observable (A : Type) : Type := list (Z * Notification A).

(** Nothing follows an error. *)
Fixpoint untilError {A} (o : Observable A) : Observable A :=
  match o with
  | [] => []
  | (t, Next a) :: rest => (t, Next a) :: untilError rest
  | (t, Error e) :: _ => [(t, Error e)]
  end.

(** [map(f)], where [f] returns or throws. *)
Fixpoint map_ {A B} (f : A -> B + string) (o : Observable A) : Observable B :=
  match o with
  | [] => []
  | (t, Next a) :: rest =>
      match f a with
      | inl b => (t, Next b) :: map_ f rest
      | inr e => [(t, Error e)]
      end
  | (t, Error e) :: _ => [(t, Error e)]
  end.

(** [catchError(() => EMPTY)] *)
Fixpoint catchError_EMPTY {A} (o : Observable A) : Observable A :=
  match o with
  | [] => []
  | (t, Next a) :: rest => (t, Next a) :: catchError_EMPTY rest
  | (t, Error _) :: _ => []
  end.

(** [take(1)] *)
Definition take_1 {A} (o : Observable A) : Observable A :=
  match o with
  | [] => []
  | n :: _ => [n]
  end.

(** [merge(a, b)]: both sources are subscribed at once and every
    notification of either is passed on as it arrives. *)
Fixpoint interleave {A} (fuel : nat) (xs ys : Observable A) : Observable A :=
  match fuel with
  | O => []
  | S fuel =>
      match xs, ys with
      | [], _ => ys
      | _, [] => xs
      | (tx, nx) :: xs', (ty, ny) :: ys' =>
          if (tx <=? ty)%Z then (tx, nx) :: interleave fuel xs' ys
          else (ty, ny) :: interleave fuel xs ys'
      end
  end.

Definition merge {A} (xs ys : Observable A) : Observable A :=
  untilError (interleave (length xs + length ys) xs ys).

(** [fromEvent(document, name)]: one notification per dispatched event. *)
Definition fromEvent {A} (events : list (Z * A)) : Observable A :=
  map (fun e => (fst e, Next (snd e))) events.

(** What [publishReplay(1), refCount()] shows a subscriber arriving at
    instant [at'], the source being connected since instant 0 by the
    logger's own subscription, which is never torn down: first the latest
    value delivered before it arrived, if any, then the error if the
    stream had already failed, then every notification from then on. *)
Fixpoint latestBefore {A} (at' : Z) (o : Observable A) (seen : option A) : option A :=
  match o with
  | [] => seen
  | (t, Next a) :: rest => latestBefore at' rest (if (t <? at')%Z then Some a else seen)
  | (t, Error _) :: rest => latestBefore at' rest seen
  end.

Fixpoint failedBefore {A} (at' : Z) (o : Observable A) : list (Notification A) :=
  match o with
  | [] => []
  | (t, Next _) :: rest => failedBefore at' rest
  | (t, Error e) :: rest => if (t <? at')%Z then [Error e] else failedBefore at' rest
  end.

Definition subscribeAt {A} (at' : Z) (shared : Observable A) : list (Notification A) :=
  (match latestBefore at' shared None with Some a => [Next a] | None => [] end)
  ++ failedBefore at' shared
  ++ map snd (List.filter (fun tn => negb (fst tn <? at')%Z) shared).

(** The payloads among the notifications. *)
Fixpoint values {A} (ns : list (Notification A)) : list A :=
  match ns with
  | [] => []
  | Next a :: rest => a :: values rest
  | Error _ :: rest => values rest
  end.

Record Payload : Type := mkPayload {
  platform : option string;
  version : option string
}.

(** The marker element's [dataset]. *)
Record Element : Type := mkElement {
  dataset_platform : option string;
  dataset_version : option string
}.

(** The [detail] of a registration event: absent, readable, or an object
    whose properties throw when read. *)
Inductive Detail : Type :=
| NoDetail
| DetailOf (platform version : option string)
| Denied (message : string).

(** Modelled from the spec: [observeQuerySelector] is imported from
    ../util/dom, which is not among the sources.  The spec has it as "a
    one-shot poll-with-timeout for a DOM marker that may already be present
    when the page loads": the element if it appears before the timeout,
    an error at the timeout otherwise. *)
Definition observeQuerySelector (appears : option (Z * Element)) (timeout : Z)
  : Observable Element :=
  match appears with
  | Some (t, element) =>
      if (t <? timeout)%Z then [(t, Next element)]
      else [(timeout, Error "Could not find element")]
  | None => [(timeout, Error "Could not find element")]
  end.

Definition quoted (s : string) : string :=
  String "034"%char (s +:+ String "034"%char EmptyString).

Definition permissionDenied : string :=
  "Permission denied to access property " +:+ quoted "platform".

Definition includesText (s pattern : string) : bool :=
  match String.index 0 pattern s with
  | Some _ => true
  | None => false
  end.

(** The body of the second channel's [map]: read the detail, turning the
    Firefox permission error into a fixed payload and rethrowing any
    other. *)
Definition readDetail (isFirefox : bool) (detail : Detail) : Payload + string :=
  match detail with
  | NoDetail => inl (mkPayload None None)
  | DetailOf p v => inl (mkPayload p v)
  | Denied message =>
      if isFirefox && includesText message permissionDenied
      then inl (mkPayload (Some "firefox-extension")
                          (Some ("unknown due to <<" +:+ permissionDenied +:+ ">>")))
      else inr message
  end.

(** Indicates if the webapp ever receives a message from the user's
    Sourcegraph browser extension, either in the form of a DOM marker
    element, or from a CustomEvent. *)
Definition browserExtensionMessageReceived (isFirefox : bool)
    (marker : option (Z * Element)) (registrations : list (Z * Detail))
  : Observable Payload :=
  merge
    (* If the marker exists, the extension is installed *)
    (catchError_EMPTY
       (map_ (fun extensionMarker =>
                inl (mkPayload (dataset_platform extensionMarker)
                               (dataset_version extensionMarker)))
             (observeQuerySelector marker 10000)))
    (* If not, listen for a registration event *)
    (map_ (readDetail isFirefox) (take_1 (fromEvent registrations))).

(** The subscriber the constructor installs. *)
Definition extensionMessageReceived (message : Payload) : M unit :=
  let args : Props := Some [("platform", platform message); ("version", version message)] in
  log "BrowserExtensionConnectedToServer" args args ;;
  enabled <- debugEventLoggingEnabled ;;
  if enabled
  then emit (LoggerDebug "Browser extension detected, sync completed" None None)
  else ret tt.

(** * Summaries used to state the properties *)

Definition addTrace (es : list Effect) (w : World) : World :=
  mkWorld (browser w) (this w) (trace w ++ es).

(** The jar after [cookies.set(key, value, attributes)]. *)
Definition storeCookie (key value : string) (attributes : CookieAttributes) (b : Browser) : Browser :=
  set_cookieJar
    (if acceptsCookie b attributes
     then <[key := mkCookie value (expiryInstant (clock b) attributes)]> (cookieJar b)
     else cookieJar b)
    b.

(** What the jar holds under the key after [cookies.set(key, value,
    attributes)] in [w]: the new cookie where the browser keeps it, else
    what was there. *)
Definition stored (w : World) (key value : string) (attributes : CookieAttributes)
  : option Cookie :=
  if acceptsCookie (browser w) attributes
  then Some (mkCookie value (expiryInstant (clock (browser w)) attributes))
  else cookieJar (browser w) !! key.

(** The expiry instant recorded for a key, if the jar holds it. *)
Definition expiryOf (w : World) (key : string) : option Z :=
  match cookieJar (browser w) !! key with
  | Some c => Some (cookie_expires c)
  | None => None
  end.

(** The id a session renewal settles on: the live cookie, else the field,
    else the anonymous id. *)
Definition sessionIdOf (w : World) : string :=
  let v := jsOr (liveCookie (browser w) DEVICE_SESSION_ID_KEY) (deviceSessionID (this w)) in
  if truthy v then stringOf v else anonymousUserID (this w).

(** The world a session renewal leaves behind. *)
Definition renewed (w : World) : World :=
  mkWorld (storeCookie DEVICE_SESSION_ID_KEY (sessionIdOf w) deviceSessionCookieSettings (browser w))
          (set_deviceSessionID (Some (sessionIdOf w)) (this w))
          (trace w ++ [CookieGet DEVICE_SESSION_ID_KEY;
                       CookieSet DEVICE_SESSION_ID_KEY (sessionIdOf w) deviceSessionCookieSettings]).

(** The callbacks a loop over [ls] reaches, and the exception that ends it
    early, if any. *)
Fixpoint notify (throws : nat -> string -> option string) (label : string) (ls : list nat)
  : list nat * option string :=
  match ls with
  | [] => ([], None)
  | l :: rest =>
      match throws l label with
      | Some e => ([l], Some e)
      | None =>
          let r := notify throws label rest in
          (l :: fst r, snd r)
      end
  end.

Definition listenerCalls (label : string) (called : list nat) : list Effect :=
  map (fun l => ListenerCalled l label) called.

(** No registered callback throws on this label. *)
Definition quietListeners (w : World) (label : string) : Prop :=
  forall l, In l (listeners (this w)) -> listenerThrows (browser w) l label = None.

Definition isTrackAction (e : Effect) : bool :=
  match e with TrackAction _ _ _ => true | _ => false end.

Definition isTrackPageView (e : Effect) : bool :=
  match e with TrackPageView _ _ _ => true | _ => false end.

(** Calls of the external transport. *)
Definition isForwarding (e : Effect) : bool := isTrackAction e || isTrackPageView e.

Definition debugEnabled (w : World) : bool :=
  match localStorage (browser w) !! "eventLogDebug" with
  | Some s => (s =? "true")%string
  | None => false
  end.

(** *** Sample worlds *)

Definition sampleUuid (n : nat) : string :=
  "6f1c2a9e-0000-4000-8000-0000000000" +:+ pad2 (Z.of_nat n).

(** A browser on 2026-11-03 (a Tuesday) with empty stores, on a page
    served over HTTPS. *)
Definition sampleBrowser (ctx : option WindowContext) (url : URL) : Browser :=
  mkBrowser 1793664000000 ∅ ∅ url "https://www.example.org/" ctx
            sampleUuid 0 (fun _ _ => None) true.

Definition dotComContext : WindowContext := mkWindowContext false true false.
Definition botContext : WindowContext := mkWindowContext true true false.

Definition plainPage : URL := mkURL "https://sourcegraph.test/search" [] "".

(** A logger with identity "visitor" and listeners 1 and 2, visited by a
    bot. *)
Definition botWorld : World :=
  mkWorld (sampleBrowser (Some botContext) plainPage)
          (mkEventLogger false "visitor" None None None "visitor" (Some "visitor") 0 [1%nat; 2%nat]
                         None None None)
          [].

(** *** Footprints

    [Within allowed w w'] relates a world to a later one reached by steps
    whose outside calls all satisfy [allowed].  The trace is the witness of
    every change to the stores: a cookie can differ only where a write to
    its key is allowed, a cookie that differs is the one an allowed write
    stores at the current instant, and so on.  The steps considered leave the identity
    fields and the listener set alone, never clear the latch, and set it
    only where a rewrite of the address is allowed. *)
Record Within (allowed : Effect -> bool) (w w' : World) : Prop := mkWithin {
  within_trace : exists new, trace w' = trace w ++ new /\ forallb allowed new = true;
  within_clock : clock (browser w') = clock (browser w);
  within_referrer : referrer (browser w') = referrer (browser w);
  within_context : context (browser w') = context (browser w);
  within_uuidSource : uuidSource (browser w') = uuidSource (browser w);
  within_listenerThrows : listenerThrows (browser w') = listenerThrows (browser w);
  within_secureContext : secureContext (browser w') = secureContext (browser w);
  within_jar : forall k, (forall v a, allowed (CookieSet k v a) = false) ->
               cookieJar (browser w') !! k = cookieJar (browser w) !! k;
  within_written :
    forall k c, cookieJar (browser w') !! k = Some c ->
                cookieJar (browser w) !! k = Some c
                \/ exists v a, allowed (CookieSet k v a) = true
                               /\ c = mkCookie v (expiryInstant (clock (browser w)) a);
  within_localStorage :
    (forall k, allowed (LocalStorageRemove k) = false) ->
    (forall k v, allowed (LocalStorageSet k v) = false) ->
    localStorage (browser w') = localStorage (browser w);
  within_location : (forall u, allowed (ReplaceState u) = false) ->
                    location (browser w') = location (browser w);
  within_uuidDrawn : allowed UuidV4 = false -> uuidDrawn (browser w') = uuidDrawn (browser w);
  within_anonymousUserID : anonymousUserID (this w') = anonymousUserID (this w);
  within_cohortID : cohortID (this w') = cohortID (this w);
  within_deviceID : deviceID (this w') = deviceID (this w);
  within_listeners : listeners (this w') = listeners (this w);
  within_latch : hasStrippedQueryParameters (this w) = true ->
                 hasStrippedQueryParameters (this w') = true;
  within_latch_kept :
    (forall u, allowed (ReplaceState u) = false) ->
    hasStrippedQueryParameters (this w') = hasStrippedQueryParameters (this w)
}.

Definition respects (allowed : Effect -> bool) {A} (m : M A) : Prop :=
  forall w, Within allowed w (world_of (m w)).

(** An update of the instance that touches none of the fields [Within]
    tracks. *)
Definition cacheUpdate (f : EventLogger -> EventLogger) : Prop :=
  forall l,
    anonymousUserID (f l) = anonymousUserID l
    /\ cohortID (f l) = cohortID l
    /\ deviceID (f l) = deviceID l
    /\ listeners (f l) = listeners l
    /\ hasStrippedQueryParameters (f l) = hasStrippedQueryParameters l.

Definition subEffects (a b : Effect -> bool) : Prop := forall e, a e = true -> b e = true.

(** *** The read-through pattern of the specification

    "Return the in-memory cached value if set; else read the backing
    record; else compute a domain-specific default; then write the resolved
    value back to the backing record (refreshing its expiry) and cache it
    in memory."  [readThrough] gives the resolved value together with the
    jar consultations made on the way. *)
Definition readThrough (cache : option string) (key : string)
    (default : World -> string * list Effect) (w : World) : string * list Effect :=
  if truthy cache then (stringOf cache, [])
  else if truthy (liveCookie (browser w) key)
       then (stringOf (liveCookie (browser w) key), [CookieGet key])
       else (fst (default w), CookieGet key :: snd (default w)).

(** The defaults: the current page address, the document referrer, and for
    the original referrer the legacy marketing record before the document
    referrer. *)
Definition pageAddress (w : World) : string * list Effect :=
  (href (location (browser w)), []).

Definition documentReferrer (w : World) : string * list Effect :=
  (referrer (browser w), []).

Definition legacyReferrer (w : World) : string * list Effect :=
  (if truthy (liveCookie (browser w) MKTO_ORIGINAL_REFERRER_KEY)
   then stringOf (liveCookie (browser w) MKTO_ORIGINAL_REFERRER_KEY)
   else referrer (browser w),
   [CookieGet MKTO_ORIGINAL_REFERRER_KEY]).

(** The world after the resolved value has been cached and written back. *)
Definition writtenBack (store : option string -> EventLogger -> EventLogger)
    (key : string) (settings : CookieAttributes) (r : string * list Effect) (w : World) : World :=
  mkWorld (storeCookie key (fst r) settings (browser w))
          (store (Some (fst r)) (this w))
          (trace w ++ snd r ++ [CookieSet key (fst r) settings]).

(** An accessor that follows the pattern in public mode and is switched
    off, touching nothing, outside it. *)
Definition ReadsThrough (accessor : M string)
    (cache : EventLogger -> option string)
    (store : option string -> EventLogger -> EventLogger)
    (key : string) (settings : CookieAttributes)
    (default : World -> string * list Effect) : Prop :=
  forall w,
    accessor w =
    if isSourcegraphDotComMode w then
      let r := readThrough (cache (this w)) key default w in
      (Normal (fst r), writtenBack store key settings r w)
    else (Normal "", w).

(** A logger whose session field and session cookie disagree. *)
Definition splitSessionWorld : World :=
  mkWorld (set_cookieJar
             {[ DEVICE_SESSION_ID_KEY := mkCookie "session-in-cookie" (1793664000000 + 60000) ]}
             (sampleBrowser (Some dotComContext) plainPage))
          (mkEventLogger false "visitor" None None None "visitor" (Some "session-in-field") 0 []
                         None None None)
          [].

(** A private instance (no public mode) that starts with an original
    referrer already stored. *)
Definition privateBrowser : Browser :=
  set_cookieJar
    {[ ORIGINAL_REFERRER_KEY := mkCookie "https://news.example/" (1793664000000 + 60000) ]}
    (sampleBrowser (Some (mkWindowContext false false false)) plainPage).

Definition privateWorld : World := world_of (newEventLogger privateBrowser).

(** *** Identity resolution, as the specification lays it out *)

(** Step 1: the long-lived cookie, else the legacy local store. *)
Definition foundAnonymousID (w : World) : option string :=
  jsOr (liveCookie (browser w) ANONYMOUS_USER_ID_KEY)
       (localStorage (browser w) !! ANONYMOUS_USER_ID_KEY).

(** Step 2: a new token when nothing was found. *)
Definition resolvedAnonymousID (w : World) : string :=
  if truthy (foundAnonymousID w) then stringOf (foundAnonymousID w)
  else uuidSource (browser w) (uuidDrawn (browser w)).

(** Steps 2 and 3: the Monday label for a new identity, the stored cohort
    as it is for an existing one. *)
Definition resolvedCohortID (w : World) : option string :=
  if truthy (foundAnonymousID w) then liveCookie (browser w) COHORT_ID_KEY
  else Some (getPreviousMonday (clock (browser w))).

(** Step 6: the stored device id, else the anonymous id. *)
Definition resolvedDeviceID (w : World) : string :=
  if truthy (liveCookie (browser w) DEVICE_ID_KEY)
  then stringOf (liveCookie (browser w) DEVICE_ID_KEY)
  else resolvedAnonymousID w.

Definition longLived (w : World) (value : string) : Cookie :=
  mkCookie value (expiryInstant (clock (browser w)) cookieSettings).

Definition writesCookie (key : string) (e : Effect) : bool :=
  match e with
  | CookieSet k _ _ => (k =? key)%string
  | _ => false
  end.

(** What the attribution accessors may do: read any cookie, write their
    own records. *)
Definition attributionKeys : list string :=
  [ FIRST_SOURCE_URL_KEY; LAST_SOURCE_URL_KEY; ORIGINAL_REFERRER_KEY;
    SESSION_REFERRER_KEY; SESSION_FIRST_URL_KEY ].

Definition attributionEffect (e : Effect) : bool :=
  match e with
  | CookieGet _ => true
  | CookieSet k _ _ => includes attributionKeys k
  | _ => false
  end.

(** A computation that always returns. *)
Definition total {A} (m : M A) : Prop :=
  forall w, exists a, result_of (m w) = Normal a.

Definition isUuidV4 (e : Effect) : bool :=
  match e with UuidV4 => true | _ => false end.

Definition touchesLocalStorage (e : Effect) : bool :=
  match e with
  | LocalStorageGet _ | LocalStorageRemove _ | LocalStorageSet _ _ => true
  | _ => false
  end.

(** What identity resolution leaves behind, in terms of the starting
    world. *)
Record Resolved (w w' : World) : Prop := mkResolved {
  resolved_anonymousUserID : anonymousUserID (this w') = resolvedAnonymousID w;
  resolved_cohortID : cohortID (this w') = resolvedCohortID w;
  resolved_deviceID : deviceID (this w') = resolvedDeviceID w;
  resolved_localStorage :
    localStorage (browser w') = delete ANONYMOUS_USER_ID_KEY (localStorage (browser w));
  resolved_anonymous_cookie :
    cookieJar (browser w') !! ANONYMOUS_USER_ID_KEY
    = stored w ANONYMOUS_USER_ID_KEY (resolvedAnonymousID w) cookieSettings;
  resolved_cohort_cookie :
    cookieJar (browser w') !! COHORT_ID_KEY
    = (if truthy (resolvedCohortID w)
       then stored w COHORT_ID_KEY (stringOf (resolvedCohortID w)) cookieSettings
       else cookieJar (browser w) !! COHORT_ID_KEY);
  resolved_device_cookie :
    cookieJar (browser w') !! DEVICE_ID_KEY
    = stored w DEVICE_ID_KEY (resolvedDeviceID w) cookieSettings;
  resolved_uuidDrawn :
    uuidDrawn (browser w')
    = (if truthy (foundAnonymousID w) then uuidDrawn (browser w)
       else S (uuidDrawn (browser w)));
  resolved_clock : clock (browser w') = clock (browser w);
  resolved_trace :
    exists new,
      trace w' = trace w ++ new
      /\ List.filter (writesCookie COHORT_ID_KEY) new
         = (if truthy (resolvedCohortID w)
            then [CookieSet COHORT_ID_KEY (stringOf (resolvedCohortID w)) cookieSettings]
            else [])
      /\ List.filter isUuidV4 new = (if truthy (foundAnonymousID w) then [] else [UuidV4]);
  resolved_session_cookie :
    exists id,
      cookieJar (browser w') !! DEVICE_SESSION_ID_KEY
      = stored w DEVICE_SESSION_ID_KEY id deviceSessionCookieSettings;
  resolved_anonymous_write :
    In (CookieSet ANONYMOUS_USER_ID_KEY (resolvedAnonymousID w) cookieSettings) (trace w');
  resolved_secureContext : secureContext (browser w') = secureContext (browser w)
}.

(** The second half of [initializeLogParameters], from the lookup of the
    original referrer to the assignments of the fields. *)
Definition attributionTail (anonymousUserID : string) (cohortID : option string)
    (deviceID deviceSessionID : string) : M unit :=
  r <- cookies_get ORIGINAL_REFERRER_KEY ;;
  originalReferrer <- (if negb (truthy r) then getOriginalReferrer else ret (stringOf r)) ;;
  r <- cookies_get SESSION_REFERRER_KEY ;;
  sessionReferrer <- (if negb (truthy r) then getSessionReferrer else ret (stringOf r)) ;;
  u <- cookies_get SESSION_FIRST_URL_KEY ;;
  sessionFirstURL <- (if negb (truthy u) then getSessionFirstURL else ret (stringOf u)) ;;
  modify (onThis (set_anonymousUserID anonymousUserID)) ;;
  modify (onThis (set_cohortID cohortID)) ;;
  modify (onThis (set_deviceID deviceID)) ;;
  modify (onThis (set_deviceSessionID (Some deviceSessionID))) ;;
  modify (onThis (set_originalReferrer (Some originalReferrer))) ;;
  modify (onThis (set_sessionReferrer (Some sessionReferrer))) ;;
  modify (onThis (set_sessionFirstURL (Some sessionFirstURL))).

Definition assignFields (anonymousUserID : string) (cohortID : option string)
    (deviceID deviceSessionID originalReferrer sessionReferrer sessionFirstURL : string)
    (l : EventLogger) : EventLogger :=
  set_sessionFirstURL (Some sessionFirstURL)
    (set_sessionReferrer (Some sessionReferrer)
      (set_originalReferrer (Some originalReferrer)
        (set_deviceSessionID (Some deviceSessionID)
          (set_deviceID deviceID
            (set_cohortID cohortID
              (set_anonymousUserID anonymousUserID l)))))).

(** A first visit: empty cookie jar, empty local store, fresh instance. *)
Definition firstVisit : World :=
  mkWorld (sampleBrowser (Some dotComContext) plainPage) initialFields [].




(** A returning visitor from before cohorts existed: an anonymous-id
    cookie and no cohort cookie. *)
Definition oldVisit : World :=
  mkWorld (set_cookieJar
             {[ ANONYMOUS_USER_ID_KEY := mkCookie "old-visitor" (1793664000000 + 86400000) ]}
             (sampleBrowser (Some dotComContext) plainPage))
          initialFields [].

(** *** The UTM table

    The rows of the specification's table in their order, each with the
    test the source makes for it. *)

Definition utmPropsOf (url : URL) : Props :=
  Some [ ("utm_campaign", orUndefined (searchParams_get url "utm_campaign"));
         ("utm_source", orUndefined (searchParams_get url "utm_source"));
         ("utm_medium", orUndefined (searchParams_get url "utm_medium"));
         ("utm_term", orUndefined (searchParams_get url "utm_term"));
         ("utm_content", orUndefined (searchParams_get url "utm_content")) ].

(** One row: its condition, the event it emits, and whether the event
    carries the utm properties. *)
Record UtmRule : Type := mkUtmRule {
  rule_matches : URL -> bool;
  rule_event : string;
  rule_withProps : bool
}.

Definition utmTable : list UtmRule :=
  [ mkUtmRule (fun u => strictEq (searchParams_get u "utm_source") "saved-search-email")
              "SavedSearchEmailClicked" false;
    mkUtmRule (fun u => strictEq (searchParams_get u "utm_source") "saved-search-slack")
              "SavedSearchSlackClicked" false;
    mkUtmRule (fun u => strictEq (searchParams_get u "utm_source") "code-monitoring-email")
              "CodeMonitorEmailLinkClicked" false;
    mkUtmRule (fun u => strictEq (searchParams_get u "utm_source") "hubspot"
                        && match searchParams_get u "utm_campaign" with
                           | Some c => matchesCloudOnboardingEmail c
                           | None => false
                           end)
              "UTMCampaignLinkClicked" true;
    mkUtmRule (fun u => includes codeHostIntegrations (stringOf (searchParams_get u "utm_source")))
              "UTMCodeHostIntegration" true;
    mkUtmRule (fun u => strictEq (searchParams_get u "utm_medium") "VSCODE"
                        && strictEq (searchParams_get u "utm_campaign") "vsce-sign-up")
              "VSCODESignUpLinkClicked" true ].

(** First match wins. *)
Definition firstMatch (url : URL) : option UtmRule :=
  List.find (fun r => rule_matches r url) utmTable.

Definition ruleArgs (r : UtmRule) (url : URL) : Props :=
  if rule_withProps r then utmPropsOf url else None.

(** Whether a [log] call in this world reaches the external transport: no
    listener throws, the visitor is no bot and the label is not empty. *)
Definition forwards (label : string) (w : World) : bool :=
  match snd (notify (listenerThrows (browser w)) label (listeners (this w))) with
  | Some _ => false
  | None => negb (context_userAgentIsBot w || negb (truthy (Some label)))
  end.

(** A visitor with two well-behaved listeners on a page reached from a
    saved-search Slack message. *)
Definition slackPage : URL :=
  parseURL "https://sourcegraph.test/x?utm_source=saved-search-slack".

Definition slackWorld : World :=
  mkWorld (sampleBrowser (Some dotComContext) slackPage)
          (mkEventLogger false "visitor" None None None "visitor" (Some "visitor") 0 [1%nat; 2%nat]
                         None None None)
          [].

(** *** Effects of emissions *)

Definition utmLabels : list string := map rule_event utmTable.


(** What emitting events with the given labels may do: renew the session,
    call listeners, forward actions with one of the labels and page views,
    consult the debug switch and write to the console. *)
Definition emissionEffect (labels : list string) (e : Effect) : bool :=
  match e with
  | CookieGet k => (k =? DEVICE_SESSION_ID_KEY)%string
  | CookieSet k _ _ => (k =? DEVICE_SESSION_ID_KEY)%string
  | ListenerCalled _ _ => true
  | TrackAction l _ _ => includes labels l
  | TrackPageView _ _ _ => true
  | LocalStorageGet k => (k =? "eventLogDebug")%string
  | LoggerDebug _ _ _ => true
  | _ => false
  end.


Definition isSignUpCompleted (e : Effect) : bool :=
  match e with
  | TrackAction l _ _ => (l =? "web:auth:signUpCompleted")%string
  | _ => false
  end.


(** No callback ever throws. *)
Definition quiet (w : World) : Prop :=
  forall l label, listenerThrows (browser w) l label = None.

(** *** What happens during one page load *)








(** The latch is set. *)
Definition latched (w : World) : Prop := hasStrippedQueryParameters (this w) = true.


(** [w'] continues [w] with a trace suffix whose sign-up events are
    exactly [signups]. *)
Definition Extends (w w' : World) (signups : list Effect) : Prop :=
  exists new, trace w' = trace w ++ new /\ List.filter isSignUpCompleted new = signups.


Definition handledMarkers : list string :=
  ["utm_campaign"; "utm_source"; "utm_medium"; "signup"; "signin"].

Definition stripped (url : URL) : URL :=
  List.fold_right searchParams_delete url handledMarkers.

(** *** The public methods *)

Definition sameAttributes (a b : CookieAttributes) : bool :=
  (Qnum (expires a) =? Qnum (expires b))%Z
  && (Qden (expires a) =? Qden (expires b))%positive
  && Bool.eqb (secure a) (secure b)
  && (sameSite a =? sameSite b)%string.

(** What the methods of the logger may do at all: anything, except write
    the device-session cookie under other settings than its own. *)
Definition moduleEffect (e : Effect) : bool :=
  match e with
  | CookieSet k _ a =>
      negb (k =? DEVICE_SESSION_ID_KEY)%string || sameAttributes a deviceSessionCookieSettings
  | _ => true
  end.


Inductive Call : Type :=
| CallLog (eventLabel : string) (eventProperties publicArgument : Props)
| CallLogPageView (eventName : string) (eventProperties : Props) (logAsActiveUser : bool)
| CallLogViewEvent (pageTitle : string) (eventProperties : Props) (logAsActiveUser : bool)
| CallGetAnonymousUserID
| CallGetCohortID
| CallGetDeviceID
| CallGetFirstSourceURL
| CallGetLastSourceURL
| CallGetOriginalReferrer
| CallGetSessionReferrer
| CallGetSessionFirstURL
| CallGetDeviceSessionID
| CallGetInsertID
| CallGetEventID
| CallGetReferrer
| CallGetClient
| CallAddEventLogListener (callback : nat)
| CallRemoveEventLogListener (callback : nat)
| TimePasses (dt : N).

(** The world after a call, whatever it returns or throws. *)
Definition perform (c : Call) (w : World) : World :=
  match c with
  | CallLog l p q => world_of (log l p q w)
  | CallLogPageView n p a => world_of (logPageView n p a w)
  | CallLogViewEvent n p a => world_of (logViewEvent n p a w)
  | CallGetAnonymousUserID => world_of (getAnonymousUserID w)
  | CallGetCohortID => world_of (getCohortID w)
  | CallGetDeviceID => world_of (getDeviceID w)
  | CallGetFirstSourceURL => world_of (getFirstSourceURL w)
  | CallGetLastSourceURL => world_of (getLastSourceURL w)
  | CallGetOriginalReferrer => world_of (getOriginalReferrer w)
  | CallGetSessionReferrer => world_of (getSessionReferrer w)
  | CallGetSessionFirstURL => world_of (getSessionFirstURL w)
  | CallGetDeviceSessionID => world_of (getDeviceSessionID w)
  | CallGetInsertID => world_of (getInsertID w)
  | CallGetEventID => world_of (getEventID w)
  | CallGetReferrer => world_of (getReferrer w)
  | CallGetClient => world_of (getClient w)
  | CallAddEventLogListener cb => world_of (addEventLogListener cb w)
  | CallRemoveEventLogListener cb => world_of (removeEventLogListener cb w)
  | TimePasses dt => elapse dt w
  end.

Definition performAll (calls : list Call) (w : World) : World :=
  fold_left (fun w c => perform c w) calls w.

(** The three identity fields. *)
Definition identityOf (w : World) : string * option string * string :=
  (anonymousUserID (this w), cohortID (this w), deviceID (this w)).

(** The five attribution accessors with their backing records. *)
Definition attributionAccessors : list (M string * string * CookieAttributes) :=
  [ (getFirstSourceURL, FIRST_SOURCE_URL_KEY, cookieSettings);
    (getLastSourceURL, LAST_SOURCE_URL_KEY, cookieSettings);
    (getOriginalReferrer, ORIGINAL_REFERRER_KEY, cookieSettings);
    (getSessionReferrer, SESSION_REFERRER_KEY, deviceSessionCookieSettings);
    (getSessionFirstURL, SESSION_FIRST_URL_KEY, deviceSessionCookieSettings) ].

(** In public mode the accessor ends its call by writing its record; in
    any other mode it returns the empty string and changes nothing. *)
Definition WritesInPublicMode (w : World) (entry : M string * string * CookieAttributes) : Prop :=
  let '(accessor, key, settings) := entry in
  if isSourcegraphDotComMode w then
    exists value reads,
      result_of (accessor w) = Normal value
      /\ trace (world_of (accessor w)) = trace w ++ reads ++ [CookieSet key value settings]
      /\ cookieJar (browser (world_of (accessor w))) !! key = stored w key value settings
  else accessor w = (Normal "", w).

(** *** A page where both channels resolve *)

Definition sampleMarker : Element :=
  mkElement (Some "chrome-extension") (Some "24.1.1").

Definition sampleRegistration : Detail :=
  DetailOf (Some "chrome-extension") (Some "24.1.2").

(** The marker is found 100 ms after the connection, the registration
    event arrives 50 ms later. *)
Definition bothChannels : Observable Payload :=
  browserExtensionMessageReceived false (Some (100, sampleMarker)) [(150, sampleRegistration)].

(** What the marker channel delivers: the marker's payload at the instant
    the marker is found, when that is before the timeout of 10 s; the
    timeout's error is caught and nothing is delivered. *)
Definition markerNotice (marker : option (Z * Element)) : option (Z * Payload) :=
  match marker with
  | Some (t, element) =>
      if (t <? 10000)%Z
      then Some (t, mkPayload (dataset_platform element) (dataset_version element))
      else None
  | None => None
  end.

(** What the registration channel delivers: for the first event only, the
    payload read from its detail, or the error of the read. *)
Definition registrationNotice (isFirefox : bool) (registrations : list (Z * Detail))
  : option (Z * Notification Payload) :=
  match registrations with
  | [] => None
  | (t, detail) :: _ =>
      Some (t, match readDetail isFirefox detail with
               | inl payload => Next payload
               | inr message => Error message
               end)
  end.

(** A page where the registration event cannot be read, 50 ms before the
    marker is found. *)
Definition failedRegistration : Observable Payload :=
  browserExtensionMessageReceived false (Some (100, sampleMarker)) [(50, Denied "not allowed")].

(** The latest of a list of payloads. *)
Definition latestOf {A} (vs : list A) : list A :=
  match List.rev vs with
  | [] => []
  | v :: _ => [v]
  end.

(** A page where only the marker is ever found. *)
Definition markerOnly : Observable Payload :=
  browserExtensionMessageReceived false (Some (100, sampleMarker)) [].

(** The logger once constructed on a first visit. *)
Definition constructedWorld : World :=
  world_of (newEventLogger (sampleBrowser (Some dotComContext) plainPage)).





(** *** Listeners that fail *)

(** A visitor with three listeners, the second of which throws on every
    event. *)
Definition faultyWorld : World :=
  mkWorld (mkBrowser 1793664000000 ∅ ∅ plainPage "https://www.example.org/" (Some dotComContext)
                     sampleUuid 0
                     (fun l _ => if Nat.eqb l 2 then Some "listener failed" else None) true)
          (mkEventLogger false "visitor" None None None "visitor" (Some "visitor") 0
                         [1%nat; 2%nat; 3%nat] None None None)
          [].

(** A visitor with two well-behaved listeners on a plain page. *)
Definition visitorWorld : World :=
  mkWorld (sampleBrowser (Some dotComContext) plainPage)
          (mkEventLogger true "visitor" None None None "visitor" (Some "visitor") 0 [1%nat; 2%nat]
                         None None None)
          [].

(** *** Invariants of computations *)

(** [I] holds after the computation whenever it held before, whether the
    computation returns or throws. *)
Definition invariant (I : World -> Prop) {A} (m : M A) : Prop :=
  forall w, I w -> I (world_of (m w)).

(** The fields of the instance other than the session id and the latch. *)
Record Settings : Type := mkSettings {
  settings_anonymousUserID : string;
  settings_cohortID : option string;
  settings_firstSourceURL : option string;
  settings_lastSourceURL : option string;
  settings_deviceID : string;
  settings_eventID : Z;
  settings_listeners : list nat;
  settings_originalReferrer : option string;
  settings_sessionReferrer : option string;
  settings_sessionFirstURL : option string
}.

Definition settingsOf (l : EventLogger) : Settings :=
  mkSettings (anonymousUserID l) (cohortID l) (firstSourceURL l) (lastSourceURL l)
             (deviceID l) (eventID l) (listeners l)
             (originalReferrer l) (sessionReferrer l) (sessionFirstURL l).

Definition settled (s : Settings) (w : World) : Prop := settingsOf (this w) = s.

(** *** What happens to a page *)

(** A call of a public method, time passing, or a navigation inside the
    single-page application, which changes the address and keeps the
    instance. *)
Inductive PageEvent : Type :=
| Invoke (c : Call)
| Visit (url : URL).

Definition occur (e : PageEvent) (w : World) : World :=
  match e with
  | Invoke c => perform c w
  | Visit url => onBrowser (set_location url) w
  end.

Definition occurAll (events : list PageEvent) (w : World) : World :=
  fold_left (fun w e => occur e w) events w.

(** The number of [getEventID] calls among the events. *)
Definition isGetEventID (e : PageEvent) : bool :=
  match e with Invoke CallGetEventID => true | _ => false end.

Definition eventIDsDrawn (events : list PageEvent) : Z :=
  Z.of_nat (length (List.filter isGetEventID events)).

(** A value that, once non-empty, is kept. *)
Definition sticky (before after : option string) : Prop :=
  truthy before = true -> after = before.

(** Each of the five attribution caches of the instance is kept once it
    holds a non-empty value. *)
Definition cachesKept (l l' : EventLogger) : Prop :=
  sticky (firstSourceURL l) (firstSourceURL l')
  /\ sticky (lastSourceURL l) (lastSourceURL l')
  /\ sticky (originalReferrer l) (originalReferrer l')
  /\ sticky (sessionReferrer l) (sessionReferrer l')
  /\ sticky (sessionFirstURL l) (sessionFirstURL l').

Definition urlAccessors : list (M string) :=
  [ getFirstSourceURL; getLastSourceURL; getOriginalReferrer; getSessionReferrer;
    getSessionFirstURL ].

(** Once the accessor has returned a non-empty value, it returns that
    value whatever happens to the page afterwards. *)
Definition StickyAccessor (w : World) (accessor : M string) : Prop :=
  forall v events,
    result_of (accessor w) = Normal v -> v <> "" ->
    result_of (accessor (occurAll events (world_of (accessor w)))) = Normal v.

(** A visitor who lands on a campaign page and then moves on inside the
    application. *)
Definition landingPage : URL := parseURL "https://sourcegraph.test/campaign?utm_term=search".

Definition landingWorld : World :=
  mkWorld (sampleBrowser (Some dotComContext) landingPage)
          (mkEventLogger true "visitor" None None None "visitor" (Some "visitor") 0 []
                         None None None)
          [].

Definition sampleEvents : list PageEvent :=
  [ Invoke (CallLogPageView "Campaign" None true); Visit plainPage;
    Invoke (TimePasses 7200000); Invoke CallGetEventID;
    Invoke (CallLog "SearchSubmitted" None None); Invoke CallGetEventID ].

(** *** Listeners *)

(** A call of the given callback. *)
Definition isCallOf (callback : nat) (e : Effect) : bool :=
  match e with
  | ListenerCalled l _ => Nat.eqb l callback
  | _ => false
  end.

(** How often one [log] call with this label calls the callback. *)
Definition callsDuringLog (callback : nat) (label : string) (w : World) : nat :=
  length (List.filter (isCallOf callback)
            (List.skipn (length (trace w)) (trace (world_of (log label None None w))))).

(** *** What the methods may do *)

Definition longLivedKeys : list string :=
  [ FIRST_SOURCE_URL_KEY; LAST_SOURCE_URL_KEY; ORIGINAL_REFERRER_KEY ].

Definition sessionKeys : list string := [ SESSION_REFERRER_KEY; SESSION_FIRST_URL_KEY ].

Definition readKeys : list string :=
  DEVICE_SESSION_ID_KEY :: MKTO_ORIGINAL_REFERRER_KEY :: longLivedKeys ++ sessionKeys.

(** The outside calls open to the methods of a constructed logger: in
    every mode the session cookie with the session settings, in public mode
    also the attribution cookies, each with its own settings; reads of
    these cookies and of the debug switch; no write to the local store. *)
Definition methodEffect (dotcom : bool) (e : Effect) : bool :=
  match e with
  | CookieGet k => includes readKeys k
  | CookieSet k _ a =>
      ((k =? DEVICE_SESSION_ID_KEY)%string && sameAttributes a deviceSessionCookieSettings)
      || (dotcom && includes longLivedKeys k && sameAttributes a cookieSettings)
      || (dotcom && includes sessionKeys k && sameAttributes a deviceSessionCookieSettings)
  | LocalStorageGet k => (k =? "eventLogDebug")%string
  | LocalStorageRemove _ | LocalStorageSet _ _ => false
  | _ => true
  end.

(** A cookie write the logger makes for itself. *)
Definition ownWrite (dotcom : bool) (key : string) (attributes : CookieAttributes) : Prop :=
  (key = DEVICE_SESSION_ID_KEY /\ attributes = deviceSessionCookieSettings)
  \/ (dotcom = true /\ In key longLivedKeys /\ attributes = cookieSettings)
  \/ (dotcom = true /\ In key sessionKeys /\ attributes = deviceSessionCookieSettings).

(** A private instance with cookies of an earlier public visit and of
    another application in its jar. *)
Definition crowdedJar : gmap string Cookie :=
  {[ ANONYMOUS_USER_ID_KEY := mkCookie "visitor" (1793664000000 + 86400000);
     FIRST_SOURCE_URL_KEY := mkCookie "https://about.example/" (1793664000000 + 86400000);
     "theme" := mkCookie "dark" (1793664000000 + 86400000) ]}.

Definition selfHostedWorld : World :=
  mkWorld (mkBrowser 1793664000000 crowdedJar {[ "eventLogDebug" := "true" ]} plainPage
                     "https://intranet.example/" (Some (mkWindowContext false false false))
                     sampleUuid 0 (fun _ _ => None) true)
          (mkEventLogger true "visitor" None None None "visitor" (Some "visitor") 0 [1%nat]
                         None None None)
          [].

Definition selfHostedEvents : list PageEvent :=
  [ Invoke (CallLogPageView "Home" None true); Invoke CallGetFirstSourceURL;
    Invoke (TimePasses 60000); Invoke CallGetSessionReferrer;
    Invoke (CallLog "SearchSubmitted" None None); Invoke CallGetDeviceSessionID ].

(** *** What a page view forwards *)

(** The UTM event of an address: the one of the first matching row of the
    table, if any. *)
Definition utmEvents (url : URL) : list Effect :=
  match firstMatch url with
  | Some r => [TrackAction (rule_event r) (ruleArgs r url) (ruleArgs r url)]
  | None => []
  end.

(** [{ serviceType: parsedUrl.searchParams.get(marker) || '' }] *)
Definition serviceArgs (url : URL) (marker : string) : Props :=
  Some [("serviceType", jsOr (searchParams_get url marker) (Some ""))].

(** The sign-up and sign-in events of an address, in the order
    [handleQueryEvents] logs them. *)
Definition authEvents (url : URL) : list Effect :=
  (if searchParams_has url "signup"
   then [TrackAction "web:auth:signUpCompleted" (serviceArgs url "signup")
                     (serviceArgs url "signup")]
   else [])
  ++ (if searchParams_has url "signin"
      then [TrackAction "web:auth:signInCompleted" (serviceArgs url "signin")
                        (serviceArgs url "signin")]
      else []).

(** [w'] continues [w] with a trace suffix whose calls of the external
    transport are exactly [calls], in this order. *)
Definition Forwarded (w w' : World) (calls : list Effect) : Prop :=
  exists new, trace w' = trace w ++ new /\ List.filter isForwarding new = calls.

(** A visitor arriving from a saved-search e-mail on an address that also
    carries both authentication markers, the sign-up one without value. *)
Definition busyPage : URL :=
  parseURL "https://sourcegraph.test/x?utm_source=saved-search-email&signup&signin=gitlab".

Definition busyWorld : World :=
  mkWorld (sampleBrowser (Some dotComContext) busyPage)
          (mkEventLogger false "visitor" None None None "visitor" (Some "visitor") 0 [1%nat]
                         None None None)
          [].

(** *** The console *)

Definition isLoggerDebug (e : Effect) : bool :=
  match e with LoggerDebug _ _ _ => true | _ => false end.

(** *** The logger's own subscription *)

Definition connectedArgs (message : Payload) : Props :=
  Some [("platform", platform message); ("version", version message)].

Definition connectedEvent (message : Payload) : Effect :=
  TrackAction "BrowserExtensionConnectedToServer" (connectedArgs message)
              (connectedArgs message).

(** The subscriber run on the payloads in the order of their delivery. *)
Definition deliver (messages : list Payload) : M unit :=
  forEach messages extensionMessageReceived.

(** What the logger's subscription, made when the stream connects,
    receives. *)
Definition received (isFirefox : bool) (marker : option (Z * Element))
    (registrations : list (Z * Detail)) : list Payload :=
  values (map snd (browserExtensionMessageReceived isFirefox marker registrations)).

(** *** Construction *)

(** The session id construction settles on: the live session cookie, else
    the anonymous id (the field was just reset to the empty string). *)
Definition sessionAtStart (w : World) : string :=
  if truthy (liveCookie (browser w) DEVICE_SESSION_ID_KEY)
  then stringOf (liveCookie (browser w) DEVICE_SESSION_ID_KEY)
  else resolvedAnonymousID w.

Definition identityCookieKeys : list string :=
  [ ANONYMOUS_USER_ID_KEY; COHORT_ID_KEY; DEVICE_ID_KEY; DEVICE_SESSION_ID_KEY ].

(** The world [w1] in which [initializeLogParameters], started in [w],
    turns to the attribution fields. *)
Record HeadRun (w w1 : World) : Prop := mkHeadRun {
  head_this : this w1 = set_deviceSessionID (Some "") (this w);
  head_clock : clock (browser w1) = clock (browser w);
  head_location : location (browser w1) = location (browser w);
  head_referrer : referrer (browser w1) = referrer (browser w);
  head_context : context (browser w1) = context (browser w);
  head_jar : forall k, ~ In k identityCookieKeys ->
                       cookieJar (browser w1) !! k = cookieJar (browser w) !! k;
  head_session :
    cookieJar (browser w1) !! DEVICE_SESSION_ID_KEY
    = stored w DEVICE_SESSION_ID_KEY (sessionAtStart w) deviceSessionCookieSettings
}.

(** The session id is settled: the field holds it, a live session cookie
    with a non-empty value holds it too, and it is only empty if the
    anonymous id is. *)
Definition sessionSettled (id : string) (w : World) : Prop :=
  deviceSessionID (this w) = Some id
  /\ (forall v, liveCookie (browser w) DEVICE_SESSION_ID_KEY = Some v -> v <> "" -> v = id)
  /\ (id = "" -> anonymousUserID (this w) = "").

(** A returning visitor whose session cookie is still alive. *)
Definition returningBrowser : Browser :=
  set_cookieJar
    {[ ANONYMOUS_USER_ID_KEY := mkCookie "visitor" (1793664000000 + 86400000);
       DEVICE_SESSION_ID_KEY := mkCookie "session-7" (1793664000000 + 60000) ]}
    (sampleBrowser (Some dotComContext) plainPage).

(** Two hours on a page: the session cookie expires in between. *)
Definition longStay : list PageEvent :=
  [ Invoke (CallLogPageView "Home" None true); Invoke (TimePasses 7200000);
    Invoke CallGetSessionReferrer; Invoke (CallLog "SearchSubmitted" None None) ].


(** * Properties *)

(** ** Running computations *)

Lemma bind_run {A B} (m : M A) (k : A -> M B) w a w' :
  m w = (Normal a, w') -> bind m k w = k a w'.
Proof. intros H. unfold bind. now rewrite H. Qed.

Lemma bind_throw {A B} (m : M A) (k : A -> M B) w e w' :
  m w = (Throw e, w') -> bind m k w = (Throw e, w').
Proof. intros H. unfold bind. now rewrite H. Qed.

(** Two worlds differing only in how their traces are bracketed. *)
Ltac same_world :=
  unfold addTrace, record, onThis, onBrowser; cbn;
  rewrite <- ?app_assoc; cbn; reflexivity.

Lemma addTrace_nil w : addTrace [] w = w.
Proof. destruct w. unfold addTrace. cbn. now rewrite app_nil_r. Qed.

Lemma addTrace_addTrace es1 es2 w : addTrace es2 (addTrace es1 w) = addTrace (es1 ++ es2) w.
Proof. unfold addTrace. cbn. now rewrite app_assoc. Qed.

Lemma truthy_Some_iff s : truthy (Some s) = true <-> s <> "".
Proof.
  cbn. destruct (String.eqb_spec s ""); cbn; split; congruence.
Qed.

(** ** The helpers on sample inputs *)

Example getPreviousMonday_on_a_tuesday : getPreviousMonday 1793664000000 = "2026-11-02".
Proof. reflexivity. Qed.

Example getPreviousMonday_on_a_monday :
  getPreviousMonday (1793664000000 - 86400000) = "2026-11-02".
Proof. reflexivity. Qed.

Example getPreviousMonday_on_a_sunday :
  getPreviousMonday (1793664000000 - 2 * 86400000) = "2026-10-26".
Proof. reflexivity. Qed.

Example parseURL_sample :
  parseURL "https://sourcegraph.test/x?utm_source=hubspot&signup=github#top"
  = mkURL "https://sourcegraph.test/x" [("utm_source", "hubspot"); ("signup", "github")] "#top".
Proof. reflexivity. Qed.

Example href_sample :
  href (parseURL "https://sourcegraph.test/x?utm_source=hubspot&signup=github#top")
  = "https://sourcegraph.test/x?utm_source=hubspot&signup=github#top".
Proof. reflexivity. Qed.

Example campaign_pattern_matches :
  matchesCloudOnboardingEmail "cloud-onboarding-email-day-3" = true
  /\ matchesCloudOnboardingEmail "cloud-onboarding-email" = true
  /\ matchesCloudOnboardingEmail "my-cloud-onboarding-email" = false
  /\ matchesCloudOnboardingEmail ("cloud-onboarding-email" +:+ String LF "x") = false.
Proof. repeat split; reflexivity. Qed.

Example session_cookie_settings_ttl :
  expiryInstant 0 deviceSessionCookieSettings = 1797000
  /\ expiryInstant 1793664000880 deviceSessionCookieSettings = 1793665798000
  /\ expiryInstant 1793664000879 deviceSessionCookieSettings = 1793665797000
  /\ expiryInstant 0 cookieSettings = 365 * 86400000.
Proof. repeat split; reflexivity. Qed.

(** The debug switch reads back what was last stored. *)
Lemma debug_switch_reads_back enabled w :
  result_of ((setDebugEventLoggingEnabled enabled ;; debugEventLoggingEnabled) w) = Normal enabled.
Proof.
  unfold setDebugEventLoggingEnabled, debugEventLoggingEnabled, localStorage_setItem,
    localStorage_getItem, bind, emit, modify, gets, ret, result_of.
  cbn. rewrite lookup_insert_eq. now destruct enabled.
Qed.

(** ** Session renewal *)

Lemma getDeviceSessionID_run w :
  getDeviceSessionID w = (Normal (sessionIdOf w), renewed w).
Proof.
  unfold getDeviceSessionID, renewed, sessionIdOf, jsOr, orElse, bind,
    cookies_get, cookies_set, getAnonymousUserID, emit, gets, modify, ret. cbn.
  destruct (truthy (liveCookie (browser w) DEVICE_SESSION_ID_KEY)) eqn:Hc; cbn.
  - rewrite Hc. cbn. unfold onThis, onBrowser, storeCookie. cbn.
    now rewrite <- app_assoc.
  - destruct (truthy (deviceSessionID (this w))) eqn:Hf; cbn;
      unfold onThis, onBrowser, storeCookie; cbn; now rewrite <- app_assoc.
Qed.

Lemma resetSessionCookieExpiration_run w :
  resetSessionCookieExpiration w = (Normal (truthy (Some (sessionIdOf w))), renewed w).
Proof.
  unfold resetSessionCookieExpiration.
  rewrite (bind_run _ _ _ _ _ (getDeviceSessionID_run w)).
  destruct (truthy (Some (sessionIdOf w))) eqn:Ht; cbn [negb]; [reflexivity|].
  unfold bind, modify, ret. reflexivity.
Qed.

Lemma forEach_callListener label ls w :
  let r := notify (listenerThrows (browser w)) label ls in
  forEach ls (callListener label) w
  = (match snd r with None => Normal tt | Some e => Throw e end,
     addTrace (listenerCalls label (fst r)) w).
Proof.
  revert w. induction ls as [|l ls IH]; intros w; cbn.
  - unfold ret. now rewrite addTrace_nil.
  - unfold bind at 1. unfold callListener at 1. unfold bind, emit, modify, gets. cbn.
    destruct (listenerThrows (browser w) l label) as [e|] eqn:Hl; cbn.
    + unfold throw. reflexivity.
    + unfold ret. rewrite IH. cbn. unfold addTrace. cbn.
      now rewrite <- app_assoc.
Qed.

Lemma notify_quiet throws label ls :
  (forall l, In l ls -> throws l label = None) ->
  notify throws label ls = (ls, None).
Proof.
  induction ls as [|l ls IH]; intros H; cbn; [reflexivity|].
  rewrite (H l (or_introl eq_refl)). rewrite IH; [reflexivity|].
  intros l' Hl'. apply H. now right.
Qed.

Lemma notify_prefix throws label ls :
  exists rest, ls = fst (notify throws label ls) ++ rest.
Proof.
  induction ls as [|l ls [rest IH]]; cbn.
  - now exists [].
  - destruct (throws l label); cbn.
    + now exists ls.
    + exists rest. now rewrite <- IH.
Qed.

(** ** Emission *)

Lemma log_run label props pub w :
  let r := notify (listenerThrows (browser w)) label (listeners (this w)) in
  log label props pub w =
  match snd r with
  | Some e => (Throw e, addTrace (listenerCalls label (fst r)) (renewed w))
  | None =>
      if context_userAgentIsBot w || negb (truthy (Some label))
      then (Normal tt, addTrace (listenerCalls label (fst r)) (renewed w))
      else (Normal tt,
            addTrace (listenerCalls label (fst r)
                      ++ TrackAction label props pub :: LocalStorageGet "eventLogDebug"
                      :: (if debugEnabled w then [LoggerDebug label props pub] else []))
                     (renewed w))
  end.
Proof.
  intros r. unfold log.
  rewrite (bind_run _ _ _ _ _ (resetSessionCookieExpiration_run w)).
  unfold bind at 1. unfold gets at 1.
  unfold bind at 1. rewrite forEach_callListener.
  change (listenerThrows (browser (renewed w))) with (listenerThrows (browser w)).
  change (listeners (this (renewed w))) with (listeners (this w)).
  fold r. destruct (snd r) as [e|]; [reflexivity|].
  unfold bind at 1. unfold gets at 1.
  change (context_userAgentIsBot (addTrace (listenerCalls label (fst r)) (renewed w)))
    with (context_userAgentIsBot w).
  destruct (context_userAgentIsBot w || negb (truthy (Some label))); [reflexivity|].
  unfold logToConsole, debugEventLoggingEnabled, localStorage_getItem, bind, emit, modify, gets, ret.
  cbn. unfold debugEnabled.
  destruct (localStorage (browser w) !! "eventLogDebug") as [s|]; cbn.
  - destruct (s =? "true")%string; cbn; same_world.
  - same_world.
Qed.

Lemma listenerCalls_not_forwarding label called :
  List.filter isForwarding (listenerCalls label called) = [].
Proof. induction called as [|l ls IH]; cbn; [reflexivity|exact IH]. Qed.

Lemma page_view_skipped (enter : string -> string) name props asActive w :
  context_userAgentIsBot w = true \/ name = "" ->
  (resetSessionCookieExpiration ;;
   bot <- gets context_userAgentIsBot ;;
   if bot || negb (truthy (Some name)) then ret tt
   else logViewEventInternal (enter name) props asActive) w
  = (Normal tt, renewed w).
Proof.
  intros H.
  rewrite (bind_run _ _ _ _ _ (resetSessionCookieExpiration_run w)).
  unfold bind, gets.
  change (context_userAgentIsBot (renewed w)) with (context_userAgentIsBot w).
  destruct H as [-> | ->]; [reflexivity|].
  cbn. now rewrite orb_true_r.
Qed.

(** C1, amended.  In a bot context, or with an empty label or name, every
    emission path first renews the session: one read and one write of the
    device-session cookie.  The generic [log] path then calls the
    registered listeners in order (all of them when none throws) and never
    reaches the external transport.  [logPageView] and [logViewEvent]
    return right after the renewal: no listener is called, nothing is
    forwarded, the query markers are not handled. *)
Theorem bot_or_empty_emission w label props pub asActive :
  context_userAgentIsBot w = true \/ label = "" ->
  (exists called rest,
      listeners (this w) = called ++ rest
      /\ world_of (log label props pub w) = addTrace (listenerCalls label called) (renewed w)
      /\ (quietListeners w label ->
          called = listeners (this w) /\ result_of (log label props pub w) = Normal tt))
  /\ List.filter isForwarding (trace (world_of (log label props pub w)))
     = List.filter isForwarding (trace w)
  /\ logPageView label props asActive w = (Normal tt, renewed w)
  /\ logViewEvent label props asActive w = (Normal tt, renewed w)
  /\ trace (renewed w)
     = trace w ++ [CookieGet DEVICE_SESSION_ID_KEY;
                   CookieSet DEVICE_SESSION_ID_KEY (sessionIdOf w) deviceSessionCookieSettings].
Proof.
  intros Hskip.
  assert (Hcond : context_userAgentIsBot w || negb (truthy (Some label)) = true).
  { destruct Hskip as [-> | ->]; [reflexivity|]. cbn. now rewrite orb_true_r. }
  pose proof (log_run label props pub w) as Hlog. cbn zeta in Hlog.
  rewrite Hcond in Hlog.
  set (r := notify (listenerThrows (browser w)) label (listeners (this w))) in *.
  assert (Hworld : world_of (log label props pub w)
                   = addTrace (listenerCalls label (fst r)) (renewed w)).
  { rewrite Hlog. now destruct (snd r). }
  split; [|split; [|split; [|split]]].
  - destruct (notify_prefix (listenerThrows (browser w)) label (listeners (this w)))
      as [rest Hrest].
    exists (fst r), rest. split; [exact Hrest|]. split; [exact Hworld|].
    intros Hq. rewrite Hlog. subst r.
    rewrite (notify_quiet _ _ _ Hq). cbn. split; reflexivity.
  - rewrite Hworld. cbn. rewrite !List.filter_app, listenerCalls_not_forwarding. cbn.
    now rewrite !app_nil_r.
  - apply (page_view_skipped (fun n => n +:+ "Viewed")). exact Hskip.
  - apply (page_view_skipped (fun n => "View" +:+ n)). exact Hskip.
  - reflexivity.
Qed.

Lemma bot_or_empty_emission_witness :
  logPageView "Home" None true botWorld = (Normal tt, renewed botWorld)
  /\ List.filter isForwarding (trace (world_of (log "Home" None None botWorld))) = [].
Proof.
  pose proof (bot_or_empty_emission botWorld "Home" None None true (or_introl eq_refl))
    as (_ & Hlog & Hview & _).
  split; [exact Hview | exact Hlog].
Defined.

(** C1 as stated fails: a page view by a bot reads and rewrites the
    device-session cookie before it returns. *)
Lemma page_view_by_bot_renews_session :
  context_userAgentIsBot botWorld = true
  /\ trace botWorld = []
  /\ expiryOf botWorld DEVICE_SESSION_ID_KEY = None
  /\ trace (world_of (logPageView "Home" None true botWorld))
     = [CookieGet DEVICE_SESSION_ID_KEY;
        CookieSet DEVICE_SESSION_ID_KEY "visitor" deviceSessionCookieSettings]
  /\ expiryOf (world_of (logPageView "Home" None true botWorld)) DEVICE_SESSION_ID_KEY
     = Some (1793664000000 + 1797000).
Proof. vm_compute. repeat split; reflexivity. Qed.

(** ** The session window *)

Lemma session_ttl now :
  expiryInstant now deviceSessionCookieSettings = 1000 * ((now + 1797120) / 1000).
Proof. reflexivity. Qed.

(** The session window ends between 1796121 and 1797120 ms after the
    write: 0.0208 days, cut to the whole second. *)
Lemma session_ttl_bounds now :
  now + 1796120 < expiryInstant now deviceSessionCookieSettings <= now + 1797120.
Proof.
  rewrite session_ttl.
  pose proof (Z.mul_div_le (now + 1797120) 1000 ltac:(lia)).
  pose proof (Z.mul_succ_div_gt (now + 1797120) 1000 ltac:(lia)). lia.
Qed.


Lemma stored_secure w key value settings :
  secureContext (browser w) = true ->
  stored w key value settings
  = Some (mkCookie value (expiryInstant (clock (browser w)) settings)).
Proof. intros H. unfold stored, acceptsCookie. rewrite H. now rewrite orb_true_r. Qed.

Lemma lookup_storeCookie key value settings b :
  cookieJar (storeCookie key value settings b) !! key
  = if acceptsCookie b settings
    then Some (mkCookie value (expiryInstant (clock b) settings))
    else cookieJar b !! key.
Proof.
  unfold storeCookie. cbn. destruct (acceptsCookie b settings); [|reflexivity].
  apply lookup_insert_eq.
Qed.

Lemma lookup_storeCookie_ne key value settings b other :
  key <> other ->
  cookieJar (storeCookie key value settings b) !! other = cookieJar b !! other.
Proof.
  intros H. unfold storeCookie. cbn. destruct (acceptsCookie b settings); [|reflexivity].
  now apply lookup_insert_ne.
Qed.


(** ** Footprints *)

Section Footprints.
Variable allowed : Effect -> bool.

Lemma Within_refl w : Within allowed w w.
Proof.
  constructor; try reflexivity; try (intros; reflexivity); try tauto.
  exists []. now rewrite app_nil_r.
Qed.

Lemma Within_trans w1 w2 w3 :
  Within allowed w1 w2 -> Within allowed w2 w3 -> Within allowed w1 w3.
Proof.
  intros H12 H23. destruct H12, H23.
  constructor; try congruence.
  - destruct within_trace0 as (n1 & E1 & F1), within_trace1 as (n2 & E2 & F2).
    exists (n1 ++ n2). rewrite E2, E1, <- app_assoc. split; [reflexivity|].
    rewrite forallb_app, F1, F2. reflexivity.
  - intros k Hk. rewrite within_jar1, within_jar0; auto.
  - intros k c Hc. destruct (within_written1 k c Hc) as [H2 | (v & a & Ha & ->)].
    + exact (within_written0 k c H2).
    + right. exists v, a. split; [exact Ha|]. now rewrite within_clock0.
  - intros Hr Hs. rewrite within_localStorage1, within_localStorage0; auto.
  - intros Hu. rewrite within_location1, within_location0; auto.
  - intros Hu. rewrite within_uuidDrawn1, within_uuidDrawn0; auto.
  - auto.
  - intros Hu. rewrite within_latch_kept1, within_latch_kept0; auto.
Qed.

Lemma respects_ret {A} (a : A) : respects allowed (ret a).
Proof. intros w. apply Within_refl. Qed.

Lemma respects_gets {A} (f : World -> A) : respects allowed (gets f).
Proof. intros w. apply Within_refl. Qed.

Lemma respects_throw {A} e : respects allowed (@throw A e).
Proof. intros w. apply Within_refl. Qed.

Lemma respects_bind {A B} (m : M A) (k : A -> M B) :
  respects allowed m -> (forall a, respects allowed (k a)) -> respects allowed (bind m k).
Proof.
  intros Hm Hk w. unfold bind. specialize (Hm w).
  destruct (m w) as [[a|e] w']; cbn in *.
  - eapply Within_trans; [exact Hm|apply Hk].
  - exact Hm.
Qed.

Lemma respects_forEach {A} (xs : list A) body :
  (forall x, respects allowed (body x)) -> respects allowed (forEach xs body).
Proof.
  intros Hb. induction xs as [|x xs IH]; cbn.
  - apply respects_ret.
  - apply respects_bind; [apply Hb|intros _; exact IH].
Qed.

Lemma respects_orElse a b :
  respects allowed a -> respects allowed b -> respects allowed (orElse a b).
Proof.
  intros Ha Hb. unfold orElse. apply respects_bind; [exact Ha|].
  intros x. destruct (truthy x); [apply respects_ret|exact Hb].
Qed.

Lemma respects_emit e : allowed e = true -> respects allowed (emit e).
Proof.
  intros He w. unfold emit, modify, world_of, record. cbn.
  constructor; cbn; try reflexivity; try (intros; reflexivity); try tauto.
  exists [e]. split; [reflexivity|]. cbn. now rewrite He.
Qed.

Lemma respects_modify_this f : cacheUpdate f -> respects allowed (modify (onThis f)).
Proof.
  intros Hf w. destruct (Hf (this w)) as (H1 & H2 & H3 & H4 & H5).
  unfold modify, world_of, onThis. cbn.
  constructor; cbn; try reflexivity; try (intros; reflexivity); try assumption;
    try congruence; try tauto.
  exists []. now rewrite app_nil_r.
Qed.

Lemma respects_set_latch u :
  allowed (ReplaceState u) = true ->
  respects allowed (modify (onThis (set_hasStrippedQueryParameters true))).
Proof.
  intros Hu w. unfold modify, world_of, onThis. cbn.
  constructor; cbn; try reflexivity; try (intros; reflexivity); try tauto.
  - exists []. now rewrite app_nil_r.
  - intros Hno. specialize (Hno u). congruence.
Qed.

Lemma respects_cookies_get k : allowed (CookieGet k) = true -> respects allowed (cookies_get k).
Proof.
  intros H. unfold cookies_get. apply respects_bind; [now apply respects_emit|].
  intros _. apply respects_gets.
Qed.

Lemma respects_cookies_set k v a :
  allowed (CookieSet k v a) = true -> respects allowed (cookies_set k v a).
Proof.
  intros H. unfold cookies_set. apply respects_bind; [now apply respects_emit|].
  intros _ w. unfold modify, world_of, onBrowser. cbn.
  constructor; cbn; try reflexivity; try (intros; reflexivity); try tauto.
  - exists []. now rewrite app_nil_r.
  - intros k' Hk'. destruct (acceptsCookie (browser w) a); [|reflexivity].
    apply lookup_insert_ne. intros ->. specialize (Hk' v a). congruence.
  - intros k' c Hc. destruct (acceptsCookie (browser w) a); [|now left].
    destruct (decide (k = k')) as [<- | Hne].
    + rewrite lookup_insert_eq in Hc. injection Hc as <-. right. eauto.
    + rewrite lookup_insert_ne in Hc by exact Hne. now left.
Qed.

Lemma respects_localStorage_getItem k :
  allowed (LocalStorageGet k) = true -> respects allowed (localStorage_getItem k).
Proof.
  intros H. unfold localStorage_getItem. apply respects_bind; [now apply respects_emit|].
  intros _. apply respects_gets.
Qed.

Lemma respects_uuid_v4 : allowed UuidV4 = true -> respects allowed uuid_v4.
Proof.
  intros H. unfold uuid_v4. apply respects_bind; [now apply respects_emit|].
  intros _. apply respects_bind; [apply respects_gets|].
  intros id. apply respects_bind; [|intros _; apply respects_ret].
  intros w. unfold modify, world_of, onBrowser. cbn.
  constructor; cbn; try reflexivity; try (intros; reflexivity); try tauto.
  - exists []. now rewrite app_nil_r.
  - congruence.
Qed.

Lemma respects_replaceState u :
  allowed (ReplaceState u) = true ->
  respects allowed (emit (ReplaceState u) ;; modify (onBrowser (set_location u))).
Proof.
  intros H. apply respects_bind; [now apply respects_emit|].
  intros _ w. unfold modify, world_of, onBrowser. cbn.
  constructor; cbn; try reflexivity; try (intros; reflexivity); try tauto.
  - exists []. now rewrite app_nil_r.
  - intros Hu. specialize (Hu u). congruence.
Qed.
End Footprints.

Lemma Within_weaken a b w w' : subEffects a b -> Within a w w' -> Within b w w'.
Proof.
  intros Hab H. destruct H.
  assert (Hno : forall e, b e = false -> a e = false).
  { intros e He. destruct (a e) eqn:Ha; [|reflexivity]. apply Hab in Ha. congruence. }
  constructor; try assumption.
  - destruct within_trace0 as (new & E & F). exists new. split; [exact E|].
    rewrite forallb_forall in *. intros e He. apply Hab, F, He.
  - intros k Hk. apply within_jar0. intros v at'. apply Hno, Hk.
  - intros k c Hc. destruct (within_written0 k c Hc) as [H0 | (v & at' & Ha & ->)];
      [now left|right; eauto].
  - intros Hr Hs. apply within_localStorage0; intros; apply Hno; auto.
  - intros Hu. apply within_location0. intros u. apply Hno, Hu.
  - intros Hu. apply within_uuidDrawn0. apply Hno, Hu.
  - intros Hu. apply within_latch_kept0. intros u. apply Hno, Hu.
Qed.

Lemma respects_weaken a b {A} (m : M A) : subEffects a b -> respects a m -> respects b m.
Proof. intros Hab Hm w. eapply Within_weaken; [exact Hab|apply Hm]. Qed.

(** ** The per-field accessors *)

Ltac run_accessor :=
  intros w;
  unfold readThrough, writtenBack, pageAddress, documentReferrer, legacyReferrer,
    orElse, bind, cookies_get, cookies_set, emit, gets, modify, ret;
  cbn;
  destruct (isSourcegraphDotComMode w); cbn; [|reflexivity];
  repeat match goal with
         | |- context [truthy ?v] =>
             lazymatch v with
             | Some _ => fail
             | _ => destruct (truthy v) eqn:?; cbn
             end
         end;
  try congruence;
  unfold onThis, onBrowser, storeCookie, record; cbn;
  rewrite <- ?app_assoc; cbn; reflexivity.

Lemma getFirstSourceURL_run :
  ReadsThrough getFirstSourceURL firstSourceURL set_firstSourceURL
               FIRST_SOURCE_URL_KEY cookieSettings pageAddress.
Proof. unfold getFirstSourceURL. run_accessor. Qed.

Lemma getLastSourceURL_run :
  ReadsThrough getLastSourceURL lastSourceURL set_lastSourceURL
               LAST_SOURCE_URL_KEY cookieSettings pageAddress.
Proof. unfold getLastSourceURL. run_accessor. Qed.

Lemma getOriginalReferrer_run :
  ReadsThrough getOriginalReferrer originalReferrer set_originalReferrer
               ORIGINAL_REFERRER_KEY cookieSettings legacyReferrer.
Proof. unfold getOriginalReferrer. run_accessor. Qed.

Lemma getSessionReferrer_run :
  ReadsThrough getSessionReferrer sessionReferrer set_sessionReferrer
               SESSION_REFERRER_KEY deviceSessionCookieSettings documentReferrer.
Proof. unfold getSessionReferrer. run_accessor. Qed.

Lemma getSessionFirstURL_run :
  ReadsThrough getSessionFirstURL sessionFirstURL set_sessionFirstURL
               SESSION_FIRST_URL_KEY deviceSessionCookieSettings pageAddress.
Proof. unfold getSessionFirstURL. run_accessor. Qed.

(** C2, amended.  In public mode the five attribution accessors
    (sessionReferrer, sessionFirstUrl, firstSourceUrl, lastSourceUrl,
    originalReferrer) follow the read-through pattern: a non-empty cached
    value is returned without reading the backing record; otherwise the
    backing record is read, and only when it is absent or empty the default
    is computed (page address, document referrer, or for originalReferrer
    the legacy marketing record and then the document referrer); the
    resolved value is cached and written back.  Outside public mode they
    return the empty string and touch nothing.  The deviceSessionId
    accessor works in every mode and in another order: it reads the backing
    record first, then falls back to the field, then to the anonymous id,
    and always writes the record and the field. *)
Theorem accessors_read_through :
  ReadsThrough getSessionReferrer sessionReferrer set_sessionReferrer
               SESSION_REFERRER_KEY deviceSessionCookieSettings documentReferrer
  /\ ReadsThrough getSessionFirstURL sessionFirstURL set_sessionFirstURL
                  SESSION_FIRST_URL_KEY deviceSessionCookieSettings pageAddress
  /\ ReadsThrough getFirstSourceURL firstSourceURL set_firstSourceURL
                  FIRST_SOURCE_URL_KEY cookieSettings pageAddress
  /\ ReadsThrough getLastSourceURL lastSourceURL set_lastSourceURL
                  LAST_SOURCE_URL_KEY cookieSettings pageAddress
  /\ ReadsThrough getOriginalReferrer originalReferrer set_originalReferrer
                  ORIGINAL_REFERRER_KEY cookieSettings legacyReferrer
  /\ (forall w,
        getDeviceSessionID w = (Normal (sessionIdOf w), renewed w)
        /\ sessionIdOf w
           = (if truthy (liveCookie (browser w) DEVICE_SESSION_ID_KEY)
              then stringOf (liveCookie (browser w) DEVICE_SESSION_ID_KEY)
              else if truthy (deviceSessionID (this w))
                   then stringOf (deviceSessionID (this w))
                   else anonymousUserID (this w))).
Proof.
  split; [exact getSessionReferrer_run|].
  split; [exact getSessionFirstURL_run|].
  split; [exact getFirstSourceURL_run|].
  split; [exact getLastSourceURL_run|].
  split; [exact getOriginalReferrer_run|].
  intros w. split; [apply getDeviceSessionID_run|].
  unfold sessionIdOf, jsOr.
  destruct (truthy (liveCookie (browser w) DEVICE_SESSION_ID_KEY)) eqn:Hc;
    [now rewrite Hc|reflexivity].
Qed.

(** C2 as stated fails twice.  With the session field set, the
    deviceSessionId accessor still reads the cookie and returns the
    cookie's value; and on a private instance the originalReferrer accessor
    returns the empty string although its field is set. *)
Lemma accessors_not_all_cache_first :
  deviceSessionID (this splitSessionWorld) = Some "session-in-field"
  /\ result_of (getDeviceSessionID splitSessionWorld) = Normal "session-in-cookie"
  /\ trace (world_of (getDeviceSessionID splitSessionWorld))
     = [CookieGet DEVICE_SESSION_ID_KEY;
        CookieSet DEVICE_SESSION_ID_KEY "session-in-cookie" deviceSessionCookieSettings]
  /\ originalReferrer (this privateWorld) = Some "https://news.example/"
  /\ getOriginalReferrer privateWorld = (Normal "", privateWorld).
Proof. vm_compute. repeat split; reflexivity. Qed.

(** ** Stepping through a computation *)

Lemma bind_ret {A B} (a : A) (K : A -> M B) w : bind (ret a) K w = K a w.
Proof. reflexivity. Qed.

Lemma bind_gets {A B} (f : World -> A) (K : A -> M B) w : bind (gets f) K w = K (f w) w.
Proof. reflexivity. Qed.

Lemma bind_modify {B} f (K : unit -> M B) w : bind (modify f) K w = K tt (f w).
Proof. reflexivity. Qed.

Lemma bind_emit {B} e (K : unit -> M B) w : bind (emit e) K w = K tt (record e w).
Proof. reflexivity. Qed.

Lemma bind_bind {A B C} (m : M A) (f : A -> M B) (K : B -> M C) w :
  bind (bind m f) K w = bind m (fun x => bind (f x) K) w.
Proof. unfold bind. destruct (m w) as [[a|e] w']; reflexivity. Qed.

Lemma bind_orElse {B} a b (K : option string -> M B) w :
  bind (orElse a b) K w = bind a (fun x => if truthy x then K x else bind b K) w.
Proof.
  unfold orElse. rewrite bind_bind. unfold bind.
  destruct (a w) as [[x|e] w']; [|reflexivity].
  destruct (truthy x); reflexivity.
Qed.

Lemma bind_cookies_get {B} k (K : option string -> M B) w :
  bind (cookies_get k) K w = K (liveCookie (browser w) k) (record (CookieGet k) w).
Proof. reflexivity. Qed.

Lemma bind_cookies_set {B} k v a (K : unit -> M B) w :
  bind (cookies_set k v a) K w
  = K tt (onBrowser (storeCookie k v a) (record (CookieSet k v a) w)).
Proof. reflexivity. Qed.

Lemma bind_localStorage_getItem {B} k (K : option string -> M B) w :
  bind (localStorage_getItem k) K w
  = K (localStorage (browser w) !! k) (record (LocalStorageGet k) w).
Proof. reflexivity. Qed.

Lemma bind_localStorage_removeItem {B} k (K : unit -> M B) w :
  bind (localStorage_removeItem k) K w
  = K tt (onBrowser (fun b => set_localStorage (delete k (localStorage b)) b)
                    (record (LocalStorageRemove k) w)).
Proof. reflexivity. Qed.

Lemma bind_uuid_v4 {B} (K : string -> M B) w :
  bind uuid_v4 K w
  = K (uuidSource (browser w) (uuidDrawn (browser w)))
      (onBrowser (fun b => set_uuidDrawn (S (uuidDrawn b)) b) (record UuidV4 w)).
Proof. reflexivity. Qed.

Lemma bind_within {A B} allowed (m : M A) (K : A -> M B) w
    (P : Completion B * World -> Prop) :
  respects allowed m -> total m ->
  (forall a w', Within allowed w w' -> P (K a w')) ->
  P (bind m K w).
Proof.
  intros Hr Ht HK. unfold bind. specialize (Hr w). destruct (Ht w) as [a Ha].
  unfold world_of, result_of in *. destruct (m w) as [r w']. cbn in *. subst r.
  now apply HK.
Qed.

(** ** Footprint of the attribution accessors *)

Lemma cacheUpdate_set_firstSourceURL v : cacheUpdate (set_firstSourceURL v).
Proof. intros l. cbn. tauto. Qed.
Lemma cacheUpdate_set_lastSourceURL v : cacheUpdate (set_lastSourceURL v).
Proof. intros l. cbn. tauto. Qed.
Lemma cacheUpdate_set_originalReferrer v : cacheUpdate (set_originalReferrer v).
Proof. intros l. cbn. tauto. Qed.
Lemma cacheUpdate_set_sessionReferrer v : cacheUpdate (set_sessionReferrer v).
Proof. intros l. cbn. tauto. Qed.
Lemma cacheUpdate_set_sessionFirstURL v : cacheUpdate (set_sessionFirstURL v).
Proof. intros l. cbn. tauto. Qed.
Lemma cacheUpdate_set_deviceSessionID v : cacheUpdate (set_deviceSessionID v).
Proof. intros l. cbn. tauto. Qed.
Lemma cacheUpdate_set_eventID f : cacheUpdate (fun l => set_eventID (f l) l).
Proof. intros l. cbn. tauto. Qed.

Create HintDb footprint.
#[local] Hint Resolve respects_ret respects_gets respects_throw respects_orElse
  respects_cookies_get respects_cookies_set respects_localStorage_getItem
  respects_uuid_v4 respects_emit respects_modify_this
  cacheUpdate_set_firstSourceURL cacheUpdate_set_lastSourceURL
  cacheUpdate_set_originalReferrer cacheUpdate_set_sessionReferrer
  cacheUpdate_set_sessionFirstURL cacheUpdate_set_deviceSessionID
  cacheUpdate_set_eventID : footprint.

(** Split a computation at its binds and close the leaves. *)
Ltac footprint :=
  repeat first
    [ solve [eauto with footprint]
    | match goal with
      | |- respects _ (if ?c then _ else _) => destruct c
      | |- respects _ (match ?c with _ => _ end) => destruct c
      | |- respects _ (orElse _ _) => apply respects_orElse
      | |- respects _ (bind _ _) => apply respects_bind; [|intros ?]
      end ].

Lemma getFirstSourceURL_footprint : respects attributionEffect getFirstSourceURL.
Proof. unfold getFirstSourceURL. footprint. Qed.

Lemma getLastSourceURL_footprint : respects attributionEffect getLastSourceURL.
Proof. unfold getLastSourceURL. footprint. Qed.

Lemma getOriginalReferrer_footprint : respects attributionEffect getOriginalReferrer.
Proof. unfold getOriginalReferrer. footprint. Qed.

Lemma getSessionReferrer_footprint : respects attributionEffect getSessionReferrer.
Proof. unfold getSessionReferrer. footprint. Qed.

Lemma getSessionFirstURL_footprint : respects attributionEffect getSessionFirstURL.
Proof. unfold getSessionFirstURL. footprint. Qed.

Lemma ReadsThrough_total accessor cache store key settings default :
  ReadsThrough accessor cache store key settings default -> total accessor.
Proof.
  intros H w. rewrite H. destruct (isSourcegraphDotComMode w); cbn; eauto.
Qed.

(** ** Identity resolution *)

Lemma getPreviousMonday_truthy now : truthy (Some (getPreviousMonday now)) = true.
Proof.
  unfold getPreviousMonday, dateLabel.
  destruct (civilFromDays (previousMonday (dayOfInstant now))) as [[y m] d].
  reflexivity.
Qed.

Lemma total_ret {A} (a : A) : total (ret a).
Proof. intros w. now exists a. Qed.

Lemma total_cookies_get k : total (cookies_get k).
Proof. intros w. eexists. reflexivity. Qed.

Lemma attribution_tail anon cohort device session w1 :
  exists w4 o s f,
    attributionTail anon cohort device session w1
    = (Normal tt, onThis (assignFields anon cohort device session o s f) w4)
    /\ Within attributionEffect w1 w4.
Proof.
  unfold attributionTail.
  apply (bind_within attributionEffect);
    [apply respects_cookies_get; reflexivity|apply total_cookies_get|].
  intros r w2 H12.
  apply (bind_within attributionEffect).
  { destruct (negb (truthy r)); [apply getOriginalReferrer_footprint|apply respects_ret]. }
  { destruct (negb (truthy r));
      [exact (ReadsThrough_total _ _ _ _ _ _ getOriginalReferrer_run)|apply total_ret]. }
  intros o w3 H23.
  apply (bind_within attributionEffect);
    [apply respects_cookies_get; reflexivity|apply total_cookies_get|].
  intros r' w4 H34.
  apply (bind_within attributionEffect).
  { destruct (negb (truthy r')); [apply getSessionReferrer_footprint|apply respects_ret]. }
  { destruct (negb (truthy r'));
      [exact (ReadsThrough_total _ _ _ _ _ _ getSessionReferrer_run)|apply total_ret]. }
  intros s w5 H45.
  apply (bind_within attributionEffect);
    [apply respects_cookies_get; reflexivity|apply total_cookies_get|].
  intros u w6 H56.
  apply (bind_within attributionEffect).
  { destruct (negb (truthy u)); [apply getSessionFirstURL_footprint|apply respects_ret]. }
  { destruct (negb (truthy u));
      [exact (ReadsThrough_total _ _ _ _ _ _ getSessionFirstURL_run)|apply total_ret]. }
  intros f w7 H67.
  exists w7, o, s, f. split; [reflexivity|].
  repeat (eapply Within_trans; [eassumption|]). apply Within_refl.
Qed.

Lemma liveCookie_storeCookie_ne k v a b k' :
  (k =? k')%string = false -> liveCookie (storeCookie k v a b) k' = liveCookie b k'.
Proof.
  intros H. apply String.eqb_neq in H.
  unfold liveCookie. now rewrite lookup_storeCookie_ne.
Qed.

Lemma liveCookie_set_localStorage s b k : liveCookie (set_localStorage s b) k = liveCookie b k.
Proof. reflexivity. Qed.

Lemma liveCookie_set_uuidDrawn n b k : liveCookie (set_uuidDrawn n b) k = liveCookie b k.
Proof. reflexivity. Qed.

Lemma attribution_keeps_trace new :
  forallb attributionEffect new = true ->
  List.filter (writesCookie COHORT_ID_KEY) new = []
  /\ List.filter isUuidV4 new = []
  /\ List.filter (writesCookie ANONYMOUS_USER_ID_KEY) new = []
  /\ List.filter (writesCookie DEVICE_ID_KEY) new = []
  /\ List.filter touchesLocalStorage new = [].
Proof.
  induction new as [|e new IH]; cbn; [tauto|].
  intros H. apply andb_true_iff in H as [He Hn]. specialize (IH Hn).
  destruct IH as (I1 & I2 & I3 & I4 & I5).
  destruct e; cbn [attributionEffect] in He; try discriminate He;
    cbn [List.filter writesCookie isUuidV4 touchesLocalStorage]; try tauto.
  apply existsb_exists in He as (k & Hin & Hk). apply String.eqb_eq in Hk. subst key.
  unfold attributionKeys in Hin. cbn [In] in Hin.
  repeat (destruct Hin as [<- | Hin]; [cbn; tauto|]). destruct Hin.
Qed.

Ltac step :=
  first [ rewrite bind_bind | rewrite bind_orElse | rewrite bind_ret | rewrite bind_gets
        | rewrite bind_cookies_get | rewrite bind_cookies_set
        | rewrite bind_localStorage_getItem | rewrite bind_localStorage_removeItem
        | rewrite bind_uuid_v4 | rewrite bind_modify ].

Ltac tidy :=
  cbn [browser this trace record onBrowser onThis fst snd negb
       deviceSessionID set_deviceSessionID];
  rewrite ?liveCookie_storeCookie_ne by reflexivity;
  rewrite ?liveCookie_set_localStorage, ?liveCookie_set_uuidDrawn;
  rewrite ?liveCookie_storeCookie_ne by reflexivity.

Lemma truthy_empty : truthy (Some "") = false.
Proof. reflexivity. Qed.

(** Run the first half of [initializeLogParameters] symbolically, splitting
    on every test, up to the lookup of the original referrer. *)
Ltac use_known_tests :=
  repeat match goal with
         | H : truthy ?v = _ |- context [truthy ?v] => rewrite H
         end;
  rewrite ?truthy_empty, ?getPreviousMonday_truthy; cbn [negb].

Ltac run_head :=
  repeat (tidy; use_known_tests;
          lazymatch goal with
          | |- exists w', bind (cookies_get ORIGINAL_REFERRER_KEY) _ _ = _ /\ _ => fail
          | |- exists w', (if truthy ?c then _ else _) _ = _ /\ _ =>
              destruct (truthy c) eqn:?
          | |- exists w', bind (if truthy ?c then _ else _) _ _ = _ /\ _ =>
              destruct (truthy c) eqn:?
          | |- exists w', (if negb (truthy ?c) then _ else _) _ = _ /\ _ =>
              destruct (truthy c) eqn:?
          | |- exists w', bind (if negb (truthy ?c) then _ else _) _ _ = _ /\ _ =>
              destruct (truthy c) eqn:?
          | |- exists w', (if _ then _ else _) _ = _ /\ _ => fail
          | |- exists w', bind (if _ then _ else _) _ _ = _ /\ _ => fail
          | |- _ => step
          end).

(** Look a key up in the jar the writes of the first half have left. *)
Ltac jar_lookup w :=
  unfold stored;
  cbn [browser record onBrowser onThis storeCookie set_cookieJar cookieJar
       set_localStorage set_uuidDrawn clock negb orb acceptsCookie secureContext secure
       cookieSettings deviceSessionCookieSettings];
  destruct (secureContext (browser w));
  rewrite ?lookup_insert_ne by discriminate;
  rewrite ?lookup_insert_eq; reflexivity.

Lemma initializeLogParameters_resolves w :
  exists w', initializeLogParameters w = (Normal tt, w') /\ Resolved w w'.
Proof.
  unfold initializeLogParameters.
  run_head.
  all: lazymatch goal with
       | |- exists w', ?tail ?w1 = _ /\ _ =>
           let a := fresh "a" in let c := fresh "c" in
           let d := fresh "d" in let i := fresh "i" in
           evar (a : string); evar (c : option string); evar (d : string); evar (i : string);
           pose proof (attribution_tail a c d i w1) as HT; subst a c d i;
           destruct HT as (w4 & o & s & f & Hrun & Hin)
       end.
  all: eexists; split; [exact Hrun|].
  all: clear Hrun.
  all: destruct (within_trace _ _ _ Hin) as (new & Etrace & Fnew).
  all: destruct (attribution_keeps_trace new Fnew) as (Fcoh & Fuuid & _).
  all: pose proof (within_jar _ _ _ Hin) as Hjar.
  all: pose proof (within_localStorage _ _ _ Hin (fun _ => eq_refl) (fun _ _ => eq_refl)) as Hls.
  all: pose proof (within_uuidDrawn _ _ _ Hin eq_refl) as Hu.
  all: pose proof (within_clock _ _ _ Hin) as Hclock.
  all: pose proof (within_secureContext _ _ _ Hin) as Hsecure.
  all: constructor;
       unfold resolvedDeviceID, resolvedAnonymousID, resolvedCohortID, foundAnonymousID,
         jsOr, longLived;
       cbn [this browser onThis assignFields anonymousUserID cohortID deviceID
            set_anonymousUserID set_cohortID set_deviceID set_deviceSessionID
            set_originalReferrer set_sessionReferrer set_sessionFirstURL];
       use_known_tests.
  all: try reflexivity.
  all: try (destruct (truthy (liveCookie (browser w) DEVICE_ID_KEY)); reflexivity).
  all: try (rewrite Hls; reflexivity).
  all: try (rewrite Hu; reflexivity).
  all: try (rewrite Hclock; reflexivity).
  all: try (rewrite Hsecure; reflexivity).
  all: try (rewrite Hjar by (intros; reflexivity); jar_lookup w).
  all: try (destruct (truthy (liveCookie (browser w) DEVICE_ID_KEY));
            rewrite Hjar by (intros; reflexivity); jar_lookup w).
  all: try (eexists; rewrite Hjar by (intros; reflexivity); jar_lookup w).
  all: try (eexists; split;
            [cbn [trace onThis]; rewrite Etrace; cbn [trace record onBrowser onThis];
             rewrite <- ?app_assoc; cbn [app]; reflexivity|];
            cbn; rewrite Fcoh, Fuuid; split; reflexivity).
  all: cbn [trace onThis]; rewrite Etrace; cbn [trace record onBrowser onThis].
  all: repeat first [ apply in_or_app; right; left; reflexivity | apply in_or_app; left ].
Qed.

Lemma previousMonday_is_monday day :
  daysSinceMonday (previousMonday day) = 0
  /\ previousMonday day <= day < previousMonday day + 7.
Proof.
  unfold previousMonday, daysSinceMonday.
  Z.div_mod_to_equations. lia.
Qed.

Lemma dayOfInstant_bounds now :
  dayOfInstant now * msPerDay <= now < (dayOfInstant now + 1) * msPerDay.
Proof. unfold dayOfInstant, msPerDay. Z.div_mod_to_equations. lia. Qed.

Lemma long_ttl now :
  expiryInstant now cookieSettings = 1000 * ((now + 31536000000) / 1000).
Proof. reflexivity. Qed.

(** A long-lived cookie ends 365 days after the write, cut to the whole
    second. *)
Lemma long_ttl_bounds now :
  now + 31535999000 < expiryInstant now cookieSettings <= now + 31536000000.
Proof.
  rewrite long_ttl.
  pose proof (Z.mul_div_le (now + 31536000000) 1000 ltac:(lia)).
  pose proof (Z.mul_succ_div_gt (now + 31536000000) 1000 ltac:(lia)). lia.
Qed.

Lemma longLived_is_live w w' key value :
  secureContext (browser w) = true ->
  clock (browser w') = clock (browser w) ->
  cookieJar (browser w') !! key = stored w key value cookieSettings ->
  liveCookie (browser w') key = Some value.
Proof.
  intros Hs Hc Hj. unfold liveCookie. rewrite Hj, Hc, (stored_secure _ _ _ _ Hs).
  cbn [cookie_value cookie_expires].
  pose proof (long_ttl_bounds (clock (browser w))).
  destruct (Z.ltb_spec (clock (browser w)) (expiryInstant (clock (browser w)) cookieSettings));
    [reflexivity|lia].
Qed.

(** C4.  On a startup with no anonymous id in the cookie jar or the legacy
    store and no device cookie, resolution draws one new id from the uuid
    generator, sets the cohort id to the label of the most recent Monday on
    or before the clock's day, and sets the device id to the anonymous id;
    on a page served over HTTPS all three are persisted in long-lived
    cookies. *)
Theorem first_visit_identity w :
  truthy (liveCookie (browser w) ANONYMOUS_USER_ID_KEY) = false ->
  truthy (localStorage (browser w) !! ANONYMOUS_USER_ID_KEY) = false ->
  truthy (liveCookie (browser w) DEVICE_ID_KEY) = false ->
  exists w' new monday,
    initializeLogParameters w = (Normal tt, w')
    /\ anonymousUserID (this w') = uuidSource (browser w) (uuidDrawn (browser w))
    /\ trace w' = trace w ++ new
    /\ List.filter isUuidV4 new = [UuidV4]
    /\ uuidDrawn (browser w') = S (uuidDrawn (browser w))
    /\ cohortID (this w') = Some (getPreviousMonday (clock (browser w)))
    /\ getPreviousMonday (clock (browser w)) = dateLabel monday
    /\ daysSinceMonday monday = 0
    /\ monday <= dayOfInstant (clock (browser w)) < monday + 7
    /\ deviceID (this w') = anonymousUserID (this w')
    /\ (secureContext (browser w) = true ->
        liveCookie (browser w') ANONYMOUS_USER_ID_KEY = Some (anonymousUserID (this w'))
        /\ liveCookie (browser w') COHORT_ID_KEY = cohortID (this w')
        /\ liveCookie (browser w') DEVICE_ID_KEY = Some (deviceID (this w'))).
Proof.
  intros Hc Hl Hd.
  destruct (initializeLogParameters_resolves w) as (w' & Hrun & R).
  destruct R as
    [resolved_anonymousUserID0 resolved_cohortID0 resolved_deviceID0 resolved_localStorage0
    resolved_anonymous_cookie0 resolved_cohort_cookie0 resolved_device_cookie0
    resolved_uuidDrawn0 resolved_clock0 resolved_trace0 resolved_session_cookie0
    resolved_anonymous_write0 resolved_secureContext0].
  destruct resolved_trace0 as (new & Etrace & Fcoh & Fuuid).
  assert (Hfound : truthy (foundAnonymousID w) = false).
  { unfold foundAnonymousID, jsOr. now rewrite Hc. }
  unfold resolvedDeviceID, resolvedAnonymousID, resolvedCohortID in *.
  rewrite Hfound in *. rewrite Hd in *.
  rewrite getPreviousMonday_truthy in *.
  destruct (previousMonday_is_monday (dayOfInstant (clock (browser w)))) as [Hm Hb].
  exists w', new, (previousMonday (dayOfInstant (clock (browser w)))).
  repeat match goal with |- _ /\ _ => split end; try assumption; try congruence;
    try reflexivity; try lia.
  intros Hsec. split; [|split].
  - rewrite resolved_anonymousUserID0.
    eapply longLived_is_live; eassumption.
  - rewrite resolved_cohortID0.
    eapply longLived_is_live; eassumption.
  - rewrite resolved_deviceID0.
    eapply longLived_is_live; eassumption.
Qed.

Lemma first_visit_identity_witness :
  exists w',
    initializeLogParameters firstVisit = (Normal tt, w')
    /\ anonymousUserID (this w') = sampleUuid 0
    /\ cohortID (this w') = Some "2026-11-02"
    /\ deviceID (this w') = sampleUuid 0.
Proof.
  destruct (first_visit_identity firstVisit eq_refl eq_refl eq_refl)
    as (w' & new & monday & Hrun & Ha & _ & _ & _ & Hc & _ & _ & _ & Hd & _).
  exists w'. split; [exact Hrun|]. split; [exact Ha|]. split; [exact Hc|].
  rewrite Hd. exact Ha.
Defined.




(** C6.  When an anonymous id already exists and no cohort cookie is
    stored, resolution keeps the id, generates nothing, leaves the cohort
    id absent and writes no cohort record.  In general the cohort id after
    resolution is the stored one as it is when an id was found, and the
    Monday label only when a new id was generated. *)
Theorem missing_cohort_not_backfilled w :
  (truthy (foundAnonymousID w) = true ->
   liveCookie (browser w) COHORT_ID_KEY = None ->
   exists w' new,
     initializeLogParameters w = (Normal tt, w')
     /\ anonymousUserID (this w') = stringOf (foundAnonymousID w)
     /\ cohortID (this w') = None
     /\ trace w' = trace w ++ new
     /\ List.filter (writesCookie COHORT_ID_KEY) new = []
     /\ List.filter isUuidV4 new = []
     /\ cookieJar (browser w') !! COHORT_ID_KEY = cookieJar (browser w) !! COHORT_ID_KEY
     /\ liveCookie (browser w') COHORT_ID_KEY = None)
  /\ cohortID (this (world_of (initializeLogParameters w)))
     = (if truthy (foundAnonymousID w) then liveCookie (browser w) COHORT_ID_KEY
        else Some (getPreviousMonday (clock (browser w))))
  /\ uuidDrawn (browser (world_of (initializeLogParameters w)))
     = (if truthy (foundAnonymousID w) then uuidDrawn (browser w)
        else S (uuidDrawn (browser w))).
Proof.
  destruct (initializeLogParameters_resolves w) as (w' & Hrun & R).
  rewrite Hrun. unfold world_of. cbn [snd].
  destruct R as
    [resolved_anonymousUserID0 resolved_cohortID0 resolved_deviceID0 resolved_localStorage0
    resolved_anonymous_cookie0 resolved_cohort_cookie0 resolved_device_cookie0
    resolved_uuidDrawn0 resolved_clock0 resolved_trace0 resolved_session_cookie0
    resolved_anonymous_write0 resolved_secureContext0].
  split; [|split; assumption].
  intros Hfound Hcoh.
  destruct resolved_trace0 as (new & Etrace & Fcoh & Fuuid).
  unfold resolvedAnonymousID, resolvedCohortID in *.
  rewrite Hfound in *. rewrite Hcoh in *. cbn [truthy] in *.
  exists w', new.
  repeat match goal with |- _ /\ _ => split end; try assumption; try reflexivity.
  unfold liveCookie in *. rewrite resolved_cohort_cookie0, resolved_clock0. exact Hcoh.
Qed.

Lemma missing_cohort_not_backfilled_witness :
  cohortID (this (world_of (initializeLogParameters oldVisit))) = None
  /\ anonymousUserID (this (world_of (initializeLogParameters oldVisit))) = "old-visitor".
Proof.
  destruct (proj1 (missing_cohort_not_backfilled oldVisit) eq_refl eq_refl)
    as (w' & new & Hrun & Ha & Hc & _).
  rewrite Hrun. unfold world_of. cbn [snd]. split; [exact Hc|exact Ha].
Defined.

(** ** The UTM events of a page view *)

Lemma log_trace label props pub w :
  exists new,
    trace (world_of (log label props pub w)) = trace w ++ new
    /\ List.filter isTrackAction new
       = (if forwards label w then [TrackAction label props pub] else [])
    /\ List.filter isTrackPageView new = [].
Proof.
  pose proof (log_run label props pub w) as H. cbn zeta in H. rewrite H. clear H.
  unfold forwards.
  set (r := notify (listenerThrows (browser w)) label (listeners (this w))).
  assert (Hl : forall called, List.filter isTrackAction (listenerCalls label called) = []
                              /\ List.filter isTrackPageView (listenerCalls label called) = []).
  { induction called as [|l ls [IH1 IH2]]; cbn; auto. }
  destruct (snd r) as [e|].
  - eexists. split; [unfold world_of, addTrace, renewed; cbn; rewrite <- app_assoc; reflexivity|].
    cbn. destruct (Hl (fst r)) as [-> ->]. split; reflexivity.
  - destruct (context_userAgentIsBot w || negb (truthy (Some label))); cbn [negb].
    + eexists. split; [unfold world_of, addTrace, renewed; cbn; rewrite <- app_assoc; reflexivity|].
      cbn. destruct (Hl (fst r)) as [-> ->]. split; reflexivity.
    + eexists. split; [unfold world_of, addTrace, renewed; cbn; rewrite <- app_assoc; reflexivity|].
      cbn. rewrite !List.filter_app. destruct (Hl (fst r)) as [-> ->].
      destruct (debugEnabled w); cbn; split; reflexivity.
Qed.

Lemma pageViewQueryParameters_first_match url w :
  pageViewQueryParameters url w =
  match firstMatch url with
  | Some r => (log (rule_event r) (ruleArgs r url) (ruleArgs r url) ;; ret (utmPropsOf url)) w
  | None => (Normal (utmPropsOf url), w)
  end.
Proof.
  unfold pageViewQueryParameters, firstMatch, utmTable, ruleArgs, utmPropsOf.
  repeat (cbn [List.find rule_matches rule_event rule_withProps];
          lazymatch goal with
          | |- bind (if ?c then _ else _) _ _ = _ => destruct c
          end);
  reflexivity.
Qed.

Lemma world_of_bind_ret {A B} (m : M A) (b : B) w :
  world_of ((m ;; ret b) w) = world_of (m w).
Proof. unfold bind, ret, world_of. destruct (m w) as [[a|e] w']; reflexivity. Qed.

Lemma firstMatch_slack url :
  searchParams_get url "utm_source" = Some "saved-search-slack" ->
  exists r, firstMatch url = Some r
            /\ rule_event r = "SavedSearchSlackClicked" /\ rule_withProps r = false.
Proof.
  intros H. unfold firstMatch, utmTable. cbn [List.find rule_matches].
  rewrite H. cbn. eexists. split; [reflexivity|]. split; reflexivity.
Qed.

(** C8.  One evaluation of the page-view query-parameter logic makes at
    most one [log] call: none when no row of the table matches, else the
    one for the first matching row in table order.  So at most one
    UTM-mapped event reaches the transport, and with
    utm_source=saved-search-slack it is SavedSearchSlackClicked, without
    properties. *)
Theorem utm_event_by_first_match url w :
  pageViewQueryParameters url w
  = match firstMatch url with
    | Some r => (log (rule_event r) (ruleArgs r url) (ruleArgs r url) ;; ret (utmPropsOf url)) w
    | None => (Normal (utmPropsOf url), w)
    end
  /\ (exists new,
        trace (world_of (pageViewQueryParameters url w)) = trace w ++ new
        /\ List.filter isTrackAction new
           = match firstMatch url with
             | Some r =>
                 if forwards (rule_event r) w
                 then [TrackAction (rule_event r) (ruleArgs r url) (ruleArgs r url)]
                 else []
             | None => []
             end
        /\ (length (List.filter isTrackAction new) <= 1)%nat
        /\ (searchParams_get url "utm_source" = Some "saved-search-slack" ->
            List.filter isTrackAction new
            = if forwards "SavedSearchSlackClicked" w
              then [TrackAction "SavedSearchSlackClicked" None None]
              else [])).
Proof.
  split; [apply pageViewQueryParameters_first_match|].
  rewrite pageViewQueryParameters_first_match.
  destruct (firstMatch url) as [r|] eqn:Hr.
  - rewrite world_of_bind_ret.
    destruct (log_trace (rule_event r) (ruleArgs r url) (ruleArgs r url) w)
      as (new & Etrace & Ftrack & _).
    exists new. split; [exact Etrace|]. split; [exact Ftrack|]. split.
    + rewrite Ftrack. destruct (forwards (rule_event r) w); cbn; lia.
    + intros Hslack. destruct (firstMatch_slack url Hslack) as (r' & Hr' & He & Hp).
      rewrite Hr in Hr'. injection Hr' as <-.
      rewrite Ftrack. unfold ruleArgs. rewrite He, Hp. reflexivity.
  - exists []. cbn. rewrite app_nil_r. split; [reflexivity|]. split; [reflexivity|].
    split; [lia|].
    intros Hslack. destruct (firstMatch_slack url Hslack) as (r' & Hr' & _). congruence.
Qed.

Lemma utm_event_by_first_match_witness :
  exists new,
    trace (world_of (pageViewQueryParameters slackPage slackWorld)) = new
    /\ List.filter isTrackAction new = [TrackAction "SavedSearchSlackClicked" None None].
Proof.
  destruct (proj2 (utm_event_by_first_match slackPage slackWorld))
    as (new & Etrace & _ & _ & Hslack).
  exists new. split; [exact Etrace|]. exact (Hslack eq_refl).
Defined.

(** ** Footprint of the emission paths *)

Section Emission.
Variable allowed : Effect -> bool.
Variable labels : list string.
Hypothesis session_read : allowed (CookieGet DEVICE_SESSION_ID_KEY) = true.
Hypothesis session_write :
  forall v, allowed (CookieSet DEVICE_SESSION_ID_KEY v deviceSessionCookieSettings) = true.
Hypothesis listener_called : forall l label, allowed (ListenerCalled l label) = true.
Hypothesis action_tracked :
  forall l p q, includes labels l = true -> allowed (TrackAction l p q) = true.
Hypothesis page_view_tracked : forall n a p, allowed (TrackPageView n a p) = true.
Hypothesis debug_switch_read : allowed (LocalStorageGet "eventLogDebug") = true.
Hypothesis debug_written : forall l p q, allowed (LoggerDebug l p q) = true.

Lemma resetSessionCookieExpiration_footprint :
  respects allowed resetSessionCookieExpiration.
Proof.
  unfold resetSessionCookieExpiration, getDeviceSessionID, getAnonymousUserID.
  footprint.
Qed.

Lemma logToConsole_footprint l p q : respects allowed (logToConsole l p q).
Proof. unfold logToConsole, debugEventLoggingEnabled. footprint. Qed.

Lemma callListener_footprint label l : respects allowed (callListener label l).
Proof. unfold callListener. footprint. Qed.

Lemma log_footprint label p q :
  includes labels label = true -> respects allowed (log label p q).
Proof.
  intros Hl. unfold log.
  apply respects_bind; [apply resetSessionCookieExpiration_footprint|intros _].
  apply respects_bind; [apply respects_gets|intros ls].
  apply respects_bind;
    [apply respects_forEach; intros l; apply callListener_footprint|intros _].
  apply respects_bind; [apply respects_gets|intros bot].
  destruct (bot || negb (truthy (Some label))); [apply respects_ret|].
  apply respects_bind; [apply respects_emit; now apply action_tracked|intros _].
  apply logToConsole_footprint.
Qed.

Hypothesis utm_labels : forall l, includes utmLabels l = true -> includes labels l = true.

Lemma pageViewQueryParameters_footprint url :
  respects allowed (pageViewQueryParameters url).
Proof.
  intros w. rewrite pageViewQueryParameters_first_match.
  destruct (firstMatch url) as [r|] eqn:Hr; [|apply Within_refl].
  rewrite world_of_bind_ret. apply log_footprint. apply utm_labels.
  unfold firstMatch in Hr. apply find_some in Hr as [Hin _].
  unfold utmLabels, includes. apply existsb_exists.
  exists (rule_event r). split; [now apply in_map|apply String.eqb_refl].
Qed.





End Emission.

(** ** Query markers are handled once per page load *)





Lemma Extends_refl w : Extends w w [].
Proof. exists []. now rewrite app_nil_r. Qed.




Lemma logToConsole_run l p q w :
  logToConsole l p q w
  = (Normal tt,
     addTrace (LocalStorageGet "eventLogDebug"
               :: (if debugEnabled w then [LoggerDebug l p q] else [])) w).
Proof.
  unfold logToConsole, debugEventLoggingEnabled, localStorage_getItem, bind, emit, modify,
    gets, ret, debugEnabled. cbn.
  destruct (localStorage (browser w) !! "eventLogDebug") as [s|]; cbn.
  - destruct (s =? "true")%string; same_world.
  - same_world.
Qed.

Lemma log_quiet label p q w :
  quiet w ->
  exists w', log label p q w = (Normal tt, w').
Proof.
  intros Hq. pose proof (log_run label p q w) as H. cbn zeta in H.
  rewrite notify_quiet in H by (intros; apply Hq). cbn [snd fst] in H.
  rewrite H. destruct (context_userAgentIsBot w || negb (truthy (Some label))); eauto.
Qed.

Lemma quiet_Within allowed w w' : Within allowed w w' -> quiet w -> quiet w'.
Proof. intros H Hq l label. rewrite (within_listenerThrows _ _ _ H). apply Hq. Qed.

Lemma bot_Within allowed w w' :
  Within allowed w w' -> context_userAgentIsBot w' = context_userAgentIsBot w.
Proof. intros H. unfold context_userAgentIsBot. now rewrite (within_context _ _ _ H). Qed.


Lemma filter_through (P Q : Effect -> bool) l :
  (forall e, P e = true -> Q e = true) ->
  List.filter P l = List.filter P (List.filter Q l).
Proof.
  intros H. induction l as [|e l IH]; [reflexivity|]. cbn.
  destruct (P e) eqn:HP.
  - rewrite (H e HP). cbn. rewrite HP. now f_equal.
  - destruct (Q e); cbn; rewrite ?HP; exact IH.
Qed.

Lemma log_forwarded label p q w :
  quiet w -> context_userAgentIsBot w = false -> label <> "" ->
  exists w',
    log label p q w = (Normal tt, w')
    /\ Within (emissionEffect [label]) w w'
    /\ Extends w w' (if isSignUpCompleted (TrackAction label p q)
                     then [TrackAction label p q] else []).
Proof.
  intros Hq Hbot Hlabel.
  destruct (log_quiet label p q w Hq) as (w' & Hrun).
  exists w'. split; [exact Hrun|]. split.
  - replace w' with (world_of (log label p q w)) by now rewrite Hrun.
    apply (log_footprint (emissionEffect [label]) [label]);
      try reflexivity; intros; try reflexivity; try assumption.
    cbn. now rewrite String.eqb_refl.
  - destruct (log_trace label p q w) as (new & E & F & _).
    rewrite Hrun in E. unfold world_of in E. cbn [snd] in E.
    exists new. split; [exact E|].
    rewrite (filter_through isSignUpCompleted isTrackAction).
    + rewrite F. unfold forwards.
      rewrite notify_quiet by (intros; apply Hq). cbn [snd].
      rewrite Hbot. apply truthy_Some_iff in Hlabel. rewrite Hlabel. reflexivity.
    + intros e He. destruct e; try discriminate He. reflexivity.
Qed.






Lemma pageViewQueryParameters_quiet url w :
  quiet w ->
  exists w',
    pageViewQueryParameters url w = (Normal (utmPropsOf url), w')
    /\ Within (emissionEffect utmLabels) w w'.
Proof.
  intros Hq.
  pose proof (pageViewQueryParameters_footprint (emissionEffect utmLabels) utmLabels) as Hf.
  specialize (Hf eq_refl (fun _ => eq_refl) (fun _ _ => eq_refl) (fun _ _ _ H => H)
                 eq_refl (fun _ _ _ => eq_refl) (fun _ H => H) url w).
  rewrite pageViewQueryParameters_first_match in *.
  destruct (firstMatch url) as [r|]; [|eauto].
  destruct (log_quiet (rule_event r) (ruleArgs r url) (ruleArgs r url) w Hq) as (w' & Hrun).
  unfold bind in *. rewrite Hrun in *. eauto.
Qed.





(** ** The identity getters *)

Lemma log_module label p q : respects moduleEffect (log label p q).
Proof.
  apply (log_footprint moduleEffect [label]); try reflexivity; intros; try reflexivity.
  cbn. now rewrite String.eqb_refl.
Qed.

Lemma reset_module : respects moduleEffect resetSessionCookieExpiration.
Proof. apply resetSessionCookieExpiration_footprint; intros; reflexivity. Qed.

Lemma logToConsole_module l p q : respects moduleEffect (logToConsole l p q).
Proof. apply logToConsole_footprint; intros; reflexivity. Qed.

Lemma set_latch_module : respects moduleEffect (modify (onThis (set_hasStrippedQueryParameters true))).
Proof. now apply (respects_set_latch moduleEffect (mkURL "" [] "")). Qed.

Lemma stripURLParameters_module url ps : respects moduleEffect (stripURLParameters url ps).
Proof. unfold stripURLParameters. now apply respects_replaceState. Qed.

#[local] Hint Resolve log_module reset_module logToConsole_module set_latch_module
  stripURLParameters_module : footprint.

Lemma pageViewQueryParameters_module url : respects moduleEffect (pageViewQueryParameters url).
Proof. unfold pageViewQueryParameters. footprint. Qed.

Lemma handleQueryEvents_module url : respects moduleEffect (handleQueryEvents url).
Proof. unfold handleQueryEvents. footprint. Qed.

#[local] Hint Resolve pageViewQueryParameters_module handleQueryEvents_module : footprint.

Lemma logViewEventInternal_module n p a : respects moduleEffect (logViewEventInternal n p a).
Proof. unfold logViewEventInternal. footprint. Qed.

#[local] Hint Resolve logViewEventInternal_module : footprint.

Lemma logPageView_module n p a : respects moduleEffect (logPageView n p a).
Proof. unfold logPageView. footprint. Qed.

Lemma logViewEvent_module n p a : respects moduleEffect (logViewEvent n p a).
Proof. unfold logViewEvent. footprint. Qed.

Lemma getDeviceSessionID_module : respects moduleEffect getDeviceSessionID.
Proof. unfold getDeviceSessionID, getAnonymousUserID. footprint. Qed.

Lemma getEventID_module : respects moduleEffect getEventID.
Proof. unfold getEventID. footprint. Qed.

Lemma getReferrer_module : respects moduleEffect getReferrer.
Proof. unfold getReferrer. footprint. Qed.

Lemma getClient_module : respects moduleEffect getClient.
Proof. unfold getClient. footprint. Qed.

Lemma getInsertID_module : respects moduleEffect getInsertID.
Proof. unfold getInsertID. footprint. Qed.

Lemma attribution_module {A} (m : M A) : respects attributionEffect m -> respects moduleEffect m.
Proof.
  apply respects_weaken. intros e He. destruct e; try reflexivity.
  cbn [attributionEffect] in He.
  apply existsb_exists in He as (k & Hin & Hk). apply String.eqb_eq in Hk. subst key.
  unfold attributionKeys in Hin. cbn [In] in Hin.
  repeat (destruct Hin as [<- | Hin]; [reflexivity|]). destruct Hin.
Qed.

(** Every call either stays within the module's footprint, or only touches
    the listener set, or lets time pass. *)
Lemma perform_cases c w :
  Within moduleEffect w (perform c w)
  \/ (browser (perform c w) = browser w /\ identityOf (perform c w) = identityOf w)
  \/ (exists dt, perform c w = elapse dt w).
Proof.
  destruct c; cbn [perform].
  - left. apply log_module.
  - left. apply logPageView_module.
  - left. apply logViewEvent_module.
  - left. apply Within_refl.
  - left. apply Within_refl.
  - left. apply Within_refl.
  - left. apply attribution_module, getFirstSourceURL_footprint.
  - left. apply attribution_module, getLastSourceURL_footprint.
  - left. apply attribution_module, getOriginalReferrer_footprint.
  - left. apply attribution_module, getSessionReferrer_footprint.
  - left. apply attribution_module, getSessionFirstURL_footprint.
  - left. apply getDeviceSessionID_module.
  - left. apply getInsertID_module.
  - left. apply getEventID_module.
  - left. apply getReferrer_module.
  - left. apply getClient_module.
  - right. left. unfold addEventLogListener, modify, world_of, onThis. cbn.
    now destruct (existsb (Nat.eqb callback) (listeners (this w))).
  - right. left. split; reflexivity.
  - right. right. now exists dt.
Qed.

Lemma perform_keeps_identity c w : identityOf (perform c w) = identityOf w.
Proof.
  destruct (perform_cases c w) as [H | [[_ H] | [dt ->]]]; [|exact H|reflexivity].
  unfold identityOf.
  now rewrite (within_anonymousUserID _ _ _ H), (within_cohortID _ _ _ H),
    (within_deviceID _ _ _ H).
Qed.

Lemma performAll_keeps_identity calls w : identityOf (performAll calls w) = identityOf w.
Proof.
  unfold performAll. revert w.
  induction calls as [|c calls IH]; intros w; cbn [fold_left]; [reflexivity|].
  now rewrite IH, perform_keeps_identity.
Qed.

(** ** The session window is the module's own *)

Lemma sameAttributes_eq a b : sameAttributes a b = true -> a = b.
Proof.
  unfold sameAttributes. intros H.
  apply andb_true_iff in H as [H Hs]. apply andb_true_iff in H as [H Hb].
  apply andb_true_iff in H as [Hn Hd].
  apply Z.eqb_eq in Hn. apply Pos.eqb_eq in Hd. apply Bool.eqb_prop in Hb.
  apply String.eqb_eq in Hs.
  destruct a as [[an ad] asec asite], b as [[bn bd] bsec bsite]. cbn in *. now subst.
Qed.





Lemma perform_secureContext c w :
  secureContext (browser (perform c w)) = secureContext (browser w).
Proof.
  destruct (perform_cases c w) as [H | [[Hb _] | [dt ->]]].
  - exact (within_secureContext _ _ _ H).
  - now rewrite Hb.
  - reflexivity.
Qed.


Lemma ReadsThrough_writes accessor cache store key settings default w :
  ReadsThrough accessor cache store key settings default ->
  WritesInPublicMode w (accessor, key, settings).
Proof.
  intros H. unfold WritesInPublicMode. rewrite (H w).
  destruct (isSourcegraphDotComMode w); [|reflexivity].
  eexists _, _. unfold world_of, result_of, writtenBack. cbn [fst snd browser].
  split; [reflexivity|]. split; [reflexivity|]. apply lookup_storeCookie.
Qed.

(** C10, amended.  [getAnonymousUserID], [getCohortID] and [getDeviceID]
    return a field and leave the world as it is, trace included: no cookie
    or local-store access, in any mode.  No call of a public method and no
    passing of time changes the three fields, so after initialization the
    getters keep returning the values resolved there.  By contrast
    [getDeviceSessionID] reads and rewrites its cookie on every call in
    every mode, and the five attribution accessors end every call with a
    write of their record in public mode only: outside it they return the
    empty string and change nothing.  What a write leaves in the jar is
    [stored]: the new record on a page served over HTTPS. *)
Theorem identity_getters_are_pure_reads w :
  getAnonymousUserID w = (Normal (anonymousUserID (this w)), w)
  /\ getCohortID w = (Normal (cohortID (this w)), w)
  /\ getDeviceID w = (Normal (deviceID (this w)), w)
  /\ (forall calls, identityOf (performAll calls w) = identityOf w)
  /\ (forall calls,
        identityOf (performAll calls (world_of (initializeLogParameters w)))
        = (resolvedAnonymousID w, resolvedCohortID w, resolvedDeviceID w))
  /\ trace (world_of (getDeviceSessionID w))
     = trace w ++ [CookieGet DEVICE_SESSION_ID_KEY;
                   CookieSet DEVICE_SESSION_ID_KEY (sessionIdOf w) deviceSessionCookieSettings]
  /\ cookieJar (browser (world_of (getDeviceSessionID w))) !! DEVICE_SESSION_ID_KEY
     = stored w DEVICE_SESSION_ID_KEY (sessionIdOf w) deviceSessionCookieSettings
  /\ Forall (WritesInPublicMode w) attributionAccessors.
Proof.
  split; [reflexivity|]. split; [reflexivity|]. split; [reflexivity|].
  split; [intros calls; apply performAll_keeps_identity|].
  split.
  { intros calls. rewrite performAll_keeps_identity.
    destruct (initializeLogParameters_resolves w) as (w' & Hrun & R).
    rewrite Hrun. unfold world_of, identityOf. cbn [snd]. destruct R as
    [resolved_anonymousUserID0 resolved_cohortID0 resolved_deviceID0 resolved_localStorage0
    resolved_anonymous_cookie0 resolved_cohort_cookie0 resolved_device_cookie0
    resolved_uuidDrawn0 resolved_clock0 resolved_trace0 resolved_session_cookie0
    resolved_anonymous_write0 resolved_secureContext0].
  congruence. }
  rewrite getDeviceSessionID_run. unfold world_of. cbn [snd].
  split; [reflexivity|]. split; [apply lookup_storeCookie|].
  unfold attributionAccessors.
  repeat constructor.
  - exact (ReadsThrough_writes _ _ _ _ _ _ w getFirstSourceURL_run).
  - exact (ReadsThrough_writes _ _ _ _ _ _ w getLastSourceURL_run).
  - exact (ReadsThrough_writes _ _ _ _ _ _ w getOriginalReferrer_run).
  - exact (ReadsThrough_writes _ _ _ _ _ _ w getSessionReferrer_run).
  - exact (ReadsThrough_writes _ _ _ _ _ _ w getSessionFirstURL_run).
Qed.

(** C10 as stated fails in its last clause: on a private instance an
    attribution accessor writes nothing at all. *)
Lemma attribution_accessor_silent_on_private_instance :
  isSourcegraphDotComMode privateWorld = false
  /\ getFirstSourceURL privateWorld = (Normal "", privateWorld)
  /\ getSessionReferrer privateWorld = (Normal "", privateWorld).
Proof. vm_compute. repeat split; reflexivity. Qed.

(** ** The browser-extension stream *)

Lemma values_app {A} (xs ys : list (Notification A)) :
  values (xs ++ ys) = values xs ++ values ys.
Proof.
  induction xs as [|[a|e] xs IH]; cbn; [reflexivity| |exact IH]. now rewrite IH.
Qed.

Lemma values_failedBefore {A} at' (o : Observable A) : values (failedBefore at' o) = [].
Proof.
  induction o as [|[t [a|e]] o IH]; cbn; try exact IH; [reflexivity|].
  destruct (t <? at')%Z; [reflexivity|exact IH].
Qed.

Lemma no_payload_nothing_observed {A} at' (o : Observable A) :
  values (map snd o) = [] ->
  (forall seen, latestBefore at' o seen = seen)
  /\ values (map snd (List.filter (fun tn => negb (fst tn <? at')%Z) o)) = [].
Proof.
  induction o as [|[t [a|e]] o IH]; cbn [map snd values]; intros H.
  - split; [reflexivity|reflexivity].
  - discriminate H.
  - destruct (IH H) as [IH1 IH2]. split.
    + intros seen. cbn. apply IH1.
    + cbn [List.filter fst]. destruct (negb (t <? at')%Z); cbn [map snd values]; exact IH2.
Qed.

Lemma single_payload_observed_once {A} (o : Observable A) p at' :
  values (map snd o) = [p] -> values (subscribeAt at' o) = [p].
Proof.
  intros H. unfold subscribeAt.
  rewrite !values_app, values_failedBefore. cbn [app].
  induction o as [|[t [a|e]] o IH]; cbn [map snd values] in H.
  - discriminate H.
  - injection H as -> Hrest.
    destruct (no_payload_nothing_observed at' o Hrest) as [L0 F0].
    cbn [latestBefore List.filter fst]. rewrite L0.
    destruct (t <? at')%Z; cbn [negb map snd values]; rewrite F0; reflexivity.
  - cbn [latestBefore List.filter fst].
    destruct (negb (t <? at')%Z); cbn [map snd values]; apply IH, H.
Qed.

Lemma early_subscriber_observes_all {A} (o : Observable A) at' :
  (forall t n, In (t, n) o -> at' <= t) -> subscribeAt at' o = map snd o.
Proof.
  intros H. unfold subscribeAt.
  assert (forall seen, latestBefore at' o seen = seen
                       /\ failedBefore at' o = []
                       /\ List.filter (fun tn => negb (fst tn <? at')%Z) o = o) as Hall.
  { induction o as [|[t n] o IH]; intros seen; [repeat split|].
    assert (Ht : (t <? at')%Z = false).
    { apply Z.ltb_ge. apply (H t n). now left. }
    destruct (IH (fun t' n' Hin => H t' n' (or_intror Hin)) seen) as (I1 & I2 & I3).
    cbn [latestBefore failedBefore List.filter fst]. rewrite Ht. cbn [negb].
    destruct n; rewrite ?I1, ?I2, ?I3; repeat split; reflexivity. }
  destruct (Hall None) as (-> & -> & ->). reflexivity.
Qed.

Lemma latestBefore_all {A} (o : Observable A) at' seen :
  (forall t n, In (t, n) o -> t < at') ->
  latestBefore at' o seen
  = match List.rev (values (map snd o)) with [] => seen | v :: _ => Some v end.
Proof.
  revert seen. induction o as [|[t n] o IH]; intros seen H; [reflexivity|].
  assert (Ht : (t <? at')%Z = true).
  { apply Z.ltb_lt. apply (H t n). now left. }
  specialize (IH (match n with Next a => Some a | Error _ => seen end)
                 (fun t' n' Hin => H t' n' (or_intror Hin))).
  destruct n as [a|e]; cbn [latestBefore map snd values]; rewrite ?Ht.
  - rewrite IH. cbn [List.rev].
    destruct (List.rev (values (map snd o))); reflexivity.
  - exact IH.
Qed.

Lemma late_subscriber_observes_latest {A} (o : Observable A) at' :
  (forall t n, In (t, n) o -> t < at') ->
  values (subscribeAt at' o) = latestOf (values (map snd o)).
Proof.
  intros H. unfold subscribeAt, latestOf.
  rewrite !values_app, values_failedBefore, (latestBefore_all o at' None H). cbn [app].
  assert (Hf : List.filter (fun tn => negb (fst tn <? at')%Z) o = []).
  { clear -H. induction o as [|[t n] o IH]; [reflexivity|].
    cbn [List.filter fst].
    replace (t <? at')%Z with true by (symmetry; apply Z.ltb_lt, (H t n); now left).
    cbn [negb]. apply IH. intros t' n' Hin. apply (H t' n'). now right. }
  rewrite Hf. cbn [map values]. rewrite app_nil_r.
  destruct (List.rev (values (map snd o))); reflexivity.
Qed.

Lemma at_most_two_payloads isFirefox marker registrations :
  (length (values (map snd (browserExtensionMessageReceived isFirefox marker registrations)))
   <= 2)%nat.
Proof.
  unfold browserExtensionMessageReceived, observeQuerySelector, fromEvent, take_1, merge.
  destruct marker as [[t el]|]; [destruct (t <? 10000)%Z|];
    destruct registrations as [|[t' d] rest];
    cbn [map fst snd map_ catchError_EMPTY length Nat.add interleave untilError values];
    try lia;
    destruct (readDetail isFirefox d);
    cbn [map fst snd map_ catchError_EMPTY length Nat.add interleave untilError values];
    try lia;
    destruct (t <=? t')%Z;
    cbn [map fst snd map_ catchError_EMPTY length Nat.add interleave untilError values];
    lia.
Qed.

(** The stream, by what each channel delivers: the notifications of both,
    in order of arrival, up to the first error. *)
Lemma merged_by_cases isFirefox marker registrations :
  browserExtensionMessageReceived isFirefox marker registrations
  = match markerNotice marker, registrationNotice isFirefox registrations with
    | None, None => []
    | Some (t, p), None => [(t, Next p)]
    | None, Some n => [n]
    | Some (t, p), Some (t', Next q) =>
        if (t <=? t')%Z then [(t, Next p); (t', Next q)] else [(t', Next q); (t, Next p)]
    | Some (t, p), Some (t', Error e) =>
        if (t <=? t')%Z then [(t, Next p); (t', Error e)] else [(t', Error e)]
    end.
Proof.
  unfold browserExtensionMessageReceived, observeQuerySelector, fromEvent, take_1, merge,
    markerNotice, registrationNotice.
  destruct marker as [[t el]|]; [destruct (t <? 10000)%Z|];
    destruct registrations as [|[t' d] rest];
    cbn [map fst snd map_ catchError_EMPTY length Nat.add interleave untilError];
    try reflexivity;
    destruct (readDetail isFirefox d);
    cbn [map fst snd map_ catchError_EMPTY length Nat.add interleave untilError];
    try reflexivity;
    destruct (t <=? t')%Z;
    cbn [map fst snd map_ catchError_EMPTY length Nat.add interleave untilError];
    reflexivity.
Qed.

(** C3, amended.  The stream merges its two channels.  The marker channel
    delivers one payload if the marker is found before its timeout and
    nothing otherwise; the registration channel delivers, for the first
    event only, the payload read from it or the error of the read.  The
    stream is the notifications of both in order of arrival, the marker's
    first on a tie, up to the error: so at most two payloads are
    delivered, the payload of the registration channel is always passed
    on, and the marker's is passed on unless the registration channel has
    failed before the marker was found.  A subscriber connected before
    anything is delivered observes every notification, in order of
    arrival; one that arrives after everything was delivered is replayed
    the latest payload only.  When a single payload is ever delivered,
    every subscriber, early or late, observes exactly that payload exactly
    once. *)
Theorem presence_stream_merges_and_replays isFirefox marker registrations :
  let shared := browserExtensionMessageReceived isFirefox marker registrations in
  shared
  = match markerNotice marker, registrationNotice isFirefox registrations with
    | None, None => []
    | Some (t, p), None => [(t, Next p)]
    | None, Some n => [n]
    | Some (t, p), Some (t', Next q) =>
        if (t <=? t')%Z then [(t, Next p); (t', Next q)] else [(t', Next q); (t, Next p)]
    | Some (t, p), Some (t', Error e) =>
        if (t <=? t')%Z then [(t, Next p); (t', Error e)] else [(t', Error e)]
    end
  /\ (length (values (map snd shared)) <= 2)%nat
  /\ (forall t' q, registrationNotice isFirefox registrations = Some (t', Next q) ->
                   In (t', Next q) shared)
  /\ (forall t p, markerNotice marker = Some (t, p) ->
                  (forall t' e, registrationNotice isFirefox registrations
                                = Some (t', Error e) -> t <= t') ->
                  In (t, Next p) shared)
  /\ (forall at', (forall t n, In (t, n) shared -> at' <= t) ->
                  subscribeAt at' shared = map snd shared)
  /\ (forall at', (forall t n, In (t, n) shared -> t < at') ->
                  values (subscribeAt at' shared) = latestOf (values (map snd shared)))
  /\ (forall p, values (map snd shared) = [p] ->
                forall at', values (subscribeAt at' shared) = [p]).
Proof.
  intros shared. split; [apply merged_by_cases|].
  split; [apply at_most_two_payloads|].
  split.
  { intros t' q Hr. subst shared. rewrite merged_by_cases, Hr.
    destruct (markerNotice marker) as [[t p]|]; [|now left].
    destruct (t <=? t')%Z; cbn; tauto. }
  split.
  { intros t p Hm Hfirst. subst shared. rewrite merged_by_cases, Hm.
    destruct (registrationNotice isFirefox registrations) as [[t' [q|e]]|]; [| |now left].
    - destruct (t <=? t')%Z; cbn; tauto.
    - specialize (Hfirst t' e eq_refl). apply Z.leb_le in Hfirst. rewrite Hfirst. now left. }
  split; [intros at' H; now apply early_subscriber_observes_all|].
  split; [intros at' H; now apply late_subscriber_observes_latest|].
  intros p H at'. now apply single_payload_observed_once.
Qed.

Lemma presence_stream_merges_and_replays_witness :
  (values (subscribeAt 0 markerOnly) = [mkPayload (Some "chrome-extension") (Some "24.1.1")]
   /\ values (subscribeAt 5000 markerOnly)
      = [mkPayload (Some "chrome-extension") (Some "24.1.1")])
  /\ (In (100, Next (mkPayload (Some "chrome-extension") (Some "24.1.1"))) bothChannels
      /\ In (150, Next (mkPayload (Some "chrome-extension") (Some "24.1.2"))) bothChannels)
  /\ failedRegistration = [(50, Error "not allowed")].
Proof.
  split; [|split].
  - destruct (presence_stream_merges_and_replays false (Some (100, sampleMarker)) [])
      as (_ & _ & _ & _ & _ & _ & Honce).
    split; apply (Honce _ eq_refl).
  - destruct (presence_stream_merges_and_replays false (Some (100, sampleMarker))
                [(150, sampleRegistration)])
      as (_ & _ & Hregistered & Hmarked & _).
    split.
    + apply (Hmarked 100 _ eq_refl). intros t' e H. discriminate H.
    + apply (Hregistered 150 _ eq_refl).
  - exact (proj1 (presence_stream_merges_and_replays false (Some (100, sampleMarker))
                    [(50, Denied "not allowed")])).
Defined.

(** C3 as stated fails: with the marker found and a registration event
    dispatched afterwards, a subscriber present from the start observes two
    payloads, a subscriber arriving later observes the second channel's
    payload, and the logger's own subscription logs the connection
    twice. *)
Lemma both_channels_are_delivered :
  values (subscribeAt 0 bothChannels)
  = [mkPayload (Some "chrome-extension") (Some "24.1.1");
     mkPayload (Some "chrome-extension") (Some "24.1.2")]
  /\ values (subscribeAt 1000 bothChannels)
     = [mkPayload (Some "chrome-extension") (Some "24.1.2")]
  /\ map (fun e => match e with TrackAction l p _ => (l, p) | _ => (EmptyString, None) end)
         (List.filter isTrackAction
            (trace (world_of (forEach (values (subscribeAt 0 bothChannels))
                                      extensionMessageReceived constructedWorld))))
     = [("BrowserExtensionConnectedToServer",
         Some [("platform", Some "chrome-extension"); ("version", Some "24.1.1")]);
        ("BrowserExtensionConnectedToServer",
         Some [("platform", Some "chrome-extension"); ("version", Some "24.1.2")])].
Proof. vm_compute. repeat split; reflexivity. Qed.

(** ** The session window *)




(** * Further properties of the logger *)

(** ** What one [log] call does *)

Lemma notify_throwing throws label before l after e :
  (forall l', In l' before -> throws l' label = None) ->
  throws l label = Some e ->
  notify throws label (before ++ l :: after) = (before ++ [l], Some e).
Proof.
  intros Hb Hl. induction before as [|b before IH]; cbn.
  - now rewrite Hl.
  - rewrite (Hb b (or_introl eq_refl)). rewrite IH; [reflexivity|].
    intros l' Hl'. apply Hb. now right.
Qed.

Lemma forwarding_is_tracking new :
  List.filter isTrackPageView new = [] ->
  List.filter isForwarding new = List.filter isTrackAction new.
Proof.
  induction new as [|e new IH]; [reflexivity|]. cbn. unfold isForwarding at 1.
  destruct (isTrackPageView e) eqn:Hp; [discriminate|].
  intros H. rewrite orb_false_r. destruct (isTrackAction e); now rewrite IH.
Qed.

(** X1.  A [log] call by a visitor who is no bot, with a non-empty label
    and listeners that do not throw, returns normally after exactly these
    outside calls, in this order: the session renewal (one read and one
    write of the device-session cookie), one call of every registered
    listener in registration order, one [trackAction] carrying the label
    and both property arguments unchanged, one read of the debug switch,
    and one console line when the switch is on. *)
Theorem log_forwards_once_after_listeners w label props pub :
  context_userAgentIsBot w = false ->
  label <> "" ->
  quietListeners w label ->
  log label props pub w
  = (Normal tt,
     addTrace (listenerCalls label (listeners (this w))
               ++ TrackAction label props pub
               :: LocalStorageGet "eventLogDebug"
               :: (if debugEnabled w then [LoggerDebug label props pub] else []))
              (renewed w))
  /\ List.filter isForwarding
       (listenerCalls label (listeners (this w))
        ++ TrackAction label props pub
        :: LocalStorageGet "eventLogDebug"
        :: (if debugEnabled w then [LoggerDebug label props pub] else []))
     = [TrackAction label props pub].
Proof.
  intros Hbot Hlabel Hq.
  pose proof (log_run label props pub w) as H. cbn zeta in H.
  rewrite (notify_quiet _ _ _ Hq) in H. cbn [fst snd] in H.
  apply truthy_Some_iff in Hlabel. rewrite Hbot, Hlabel in H. cbn [orb negb] in H.
  split; [exact H|].
  rewrite List.filter_app, listenerCalls_not_forwarding. cbn.
  now destruct (debugEnabled w).
Qed.

Lemma log_forwards_once_after_listeners_witness :
  trace (world_of (log "SearchSubmitted" None None visitorWorld))
  = [ CookieGet DEVICE_SESSION_ID_KEY;
      CookieSet DEVICE_SESSION_ID_KEY "visitor" deviceSessionCookieSettings;
      ListenerCalled 1 "SearchSubmitted"; ListenerCalled 2 "SearchSubmitted";
      TrackAction "SearchSubmitted" None None;
      LocalStorageGet "eventLogDebug" ].
Proof.
  assert (Hlabel : "SearchSubmitted" <> "") by discriminate.
  destruct (log_forwards_once_after_listeners visitorWorld "SearchSubmitted" None None
              eq_refl Hlabel (fun _ _ => eq_refl)) as [Hrun _].
  rewrite Hrun. reflexivity.
Defined.

(** X2.  When a listener throws, [log] ends with that exception: the
    listeners registered after it are not called and the event is not
    forwarded, although the session has already been renewed. *)
Theorem throwing_listener_drops_event w label props pub before l after e :
  listeners (this w) = before ++ l :: after ->
  (forall l', In l' before -> listenerThrows (browser w) l' label = None) ->
  listenerThrows (browser w) l label = Some e ->
  log label props pub w
  = (Throw e, addTrace (listenerCalls label (before ++ [l])) (renewed w))
  /\ List.filter isForwarding (trace (world_of (log label props pub w)))
     = List.filter isForwarding (trace w)
  /\ cookieJar (browser (world_of (log label props pub w))) !! DEVICE_SESSION_ID_KEY
     = stored w DEVICE_SESSION_ID_KEY (sessionIdOf w) deviceSessionCookieSettings.
Proof.
  intros Hls Hb Hl.
  pose proof (log_run label props pub w) as H. cbn zeta in H.
  rewrite Hls, (notify_throwing _ _ _ _ after _ Hb Hl) in H. cbn [fst snd] in H.
  rewrite H. unfold world_of. cbn [snd].
  split; [reflexivity|]. split.
  - cbn. rewrite !List.filter_app, listenerCalls_not_forwarding. cbn.
    now rewrite !app_nil_r.
  - apply lookup_storeCookie.
Qed.

Lemma throwing_listener_drops_event_witness :
  log "SearchSubmitted" None None faultyWorld
  = (Throw "listener failed",
     addTrace [ListenerCalled 1 "SearchSubmitted"; ListenerCalled 2 "SearchSubmitted"]
              (renewed faultyWorld)).
Proof.
  assert (Hb : forall l', In l' [1%nat] ->
                          listenerThrows (browser faultyWorld) l' "SearchSubmitted" = None).
  { intros l' [<- | []]. reflexivity. }
  exact (proj1 (throwing_listener_drops_event faultyWorld "SearchSubmitted" None None
                  [1%nat] 2%nat [3%nat] "listener failed" eq_refl Hb eq_refl)).
Defined.

(** ** Invariants *)

Section Invariants.
Variable I : World -> Prop.

Lemma invariant_ret {A} (a : A) : invariant I (ret a).
Proof. intros w Hw. exact Hw. Qed.

Lemma invariant_gets {A} (f : World -> A) : invariant I (gets f).
Proof. intros w Hw. exact Hw. Qed.

Lemma invariant_throw {A} e : invariant I (@throw A e).
Proof. intros w Hw. exact Hw. Qed.

Lemma invariant_bind {A B} (m : M A) (k : A -> M B) :
  invariant I m -> (forall a, invariant I (k a)) -> invariant I (bind m k).
Proof.
  intros Hm Hk w Hw. unfold bind. specialize (Hm w Hw).
  destruct (m w) as [[a|e] w']; unfold world_of in *; cbn [snd] in *.
  - now apply Hk.
  - exact Hm.
Qed.

Lemma invariant_forEach {A} (xs : list A) body :
  (forall x, invariant I (body x)) -> invariant I (forEach xs body).
Proof.
  intros Hb. induction xs as [|x xs IH]; cbn.
  - apply invariant_ret.
  - apply invariant_bind; [apply Hb|intros _; exact IH].
Qed.

Lemma invariant_orElse a b : invariant I a -> invariant I b -> invariant I (orElse a b).
Proof.
  intros Ha Hb. unfold orElse. apply invariant_bind; [exact Ha|].
  intros x. destruct (truthy x); [apply invariant_ret|exact Hb].
Qed.
End Invariants.

Create HintDb invariants.

(** Split a computation at its binds and tests; a leaf is closed by a hint
    or because the invariant does not see the step. *)
Ltac invariant_steps :=
  repeat first
    [ solve [eauto with invariants]
    | solve [intros ? HI; exact HI]
    | apply invariant_forEach; intros ?
    | apply invariant_orElse
    | match goal with
      | |- invariant _ (if ?c then _ else _) => destruct c
      | |- invariant _ (match ?c with _ => _ end) => destruct c
      end
    | apply invariant_bind; [|intros ?] ].

(** ** The emission paths leave the settings of the instance alone *)

Section EmissionFrame.
Variable s : Settings.

Lemma resetSessionCookieExpiration_settled : invariant (settled s) resetSessionCookieExpiration.
Proof.
  unfold resetSessionCookieExpiration, getDeviceSessionID, getAnonymousUserID.
  invariant_steps.
Qed.

Lemma log_settled label p q : invariant (settled s) (log label p q).
Proof.
  unfold log, resetSessionCookieExpiration, getDeviceSessionID, getAnonymousUserID,
    callListener, logToConsole, debugEventLoggingEnabled.
  invariant_steps.
Qed.

#[local] Hint Resolve resetSessionCookieExpiration_settled log_settled : invariants.

Lemma pageViewQueryParameters_settled url : invariant (settled s) (pageViewQueryParameters url).
Proof. unfold pageViewQueryParameters. invariant_steps. Qed.

Lemma handleQueryEvents_settled url : invariant (settled s) (handleQueryEvents url).
Proof. unfold handleQueryEvents, stripURLParameters. invariant_steps. Qed.

#[local] Hint Resolve pageViewQueryParameters_settled handleQueryEvents_settled : invariants.

Lemma logViewEventInternal_settled n p a : invariant (settled s) (logViewEventInternal n p a).
Proof.
  unfold logViewEventInternal, logToConsole, debugEventLoggingEnabled. invariant_steps.
Qed.

#[local] Hint Resolve logViewEventInternal_settled : invariants.

Lemma logPageView_settled n p a : invariant (settled s) (logPageView n p a).
Proof. unfold logPageView. invariant_steps. Qed.

Lemma logViewEvent_settled n p a : invariant (settled s) (logViewEvent n p a).
Proof. unfold logViewEvent. invariant_steps. Qed.
End EmissionFrame.

(** ** What a call does to the settings *)

Lemma getReferrer_run w :
  getReferrer w
  = (Normal (if isSourcegraphDotComMode w then referrer (browser w) else ""), w).
Proof.
  unfold getReferrer, bind, gets, ret. now destruct (isSourcegraphDotComMode w).
Qed.

Lemma getClient_run w : exists client, getClient w = (Normal client, w).
Proof.
  unfold getClient, bind, gets, ret.
  destruct (context (browser w)) as [[bot dotcom cody]|]; cbn;
    [destruct cody, dotcom|]; eauto.
Qed.

Lemma addEventLogListener_run cb w :
  addEventLogListener cb w
  = (Normal tt,
     if List.existsb (Nat.eqb cb) (listeners (this w)) then w
     else onThis (set_listeners (listeners (this w) ++ [cb])) w).
Proof.
  unfold addEventLogListener, modify, onThis.
  destruct (existsb (Nat.eqb cb) (listeners (this w))); [now destruct w|reflexivity].
Qed.

Ltac by_call c w :=
  destruct c; cbn [perform];
  rewrite ?getReferrer_run, ?addEventLogListener_run;
  try match goal with
      | |- context [getClient w] => destruct (getClient_run w) as [? ->]
      end;
  try match goal with
      | |- context [List.existsb (Nat.eqb ?cb) (listeners (this w))] =>
          destruct (List.existsb (Nat.eqb cb) (listeners (this w))) eqn:?
      end;
  rewrite ?(getFirstSourceURL_run w), ?(getLastSourceURL_run w), ?(getOriginalReferrer_run w),
    ?(getSessionReferrer_run w), ?(getSessionFirstURL_run w), ?getDeviceSessionID_run;
  try match goal with
      | |- context [isSourcegraphDotComMode w] => destruct (isSourcegraphDotComMode w) eqn:?
      end.

Lemma perform_eventID c w :
  eventID (this (perform c w))
  = eventID (this w) + (if isGetEventID (Invoke c) then 1 else 0).
Proof.
  by_call c w; cbn [isGetEventID]; rewrite ?Z.add_0_r; try reflexivity.
  - exact (f_equal settings_eventID (log_settled _ _ _ _ w eq_refl)).
  - exact (f_equal settings_eventID (logPageView_settled _ _ _ _ w eq_refl)).
  - exact (f_equal settings_eventID (logViewEvent_settled _ _ _ _ w eq_refl)).
Qed.

Lemma occurAll_eventID events w :
  eventID (this (occurAll events w)) = eventID (this w) + eventIDsDrawn events.
Proof.
  unfold occurAll, eventIDsDrawn. revert w.
  induction events as [|e events IH]; intros w; cbn [fold_left List.filter length].
  - cbn. lia.
  - rewrite IH. destruct e as [c|url]; cbn [occur].
    + rewrite perform_eventID. destruct (isGetEventID (Invoke c)); cbn [length]; lia.
    + cbn. lia.
Qed.

Lemma initializeLogParameters_eventID n :
  invariant (fun w => eventID (this w) = n) initializeLogParameters.
Proof.
  unfold initializeLogParameters, getOriginalReferrer, getSessionReferrer, getSessionFirstURL.
  invariant_steps.
Qed.

(** X3.  The n-th [getEventID] call on a logger returns n: the counter
    starts at 0 with the instance, every call adds one and returns the new
    value, and no other method call, navigation or wait changes it.  So
    the ids handed out by one instance are consecutive and never repeat. *)
Theorem event_ids_count_calls b events w :
  result_of (getEventID (occurAll events (world_of (newEventLogger b))))
  = Normal (eventIDsDrawn events + 1)
  /\ result_of (getEventID (occurAll events w))
     = Normal (eventID (this w) + eventIDsDrawn events + 1)
  /\ eventID (this (world_of (getEventID (occurAll events w))))
     = eventID (this w) + eventIDsDrawn events + 1.
Proof.
  assert (H : forall w', result_of (getEventID w') = Normal (eventID (this w') + 1)
                         /\ eventID (this (world_of (getEventID w'))) = eventID (this w') + 1).
  { intros w'. split; reflexivity. }
  split; [|split].
  - rewrite (proj1 (H _)), occurAll_eventID. unfold newEventLogger.
    rewrite (initializeLogParameters_eventID 0 (mkWorld b initialFields []) eq_refl).
    reflexivity.
  - now rewrite (proj1 (H _)), occurAll_eventID.
  - now rewrite (proj2 (H _)), occurAll_eventID.
Qed.

(** ** The listener set *)

Lemma perform_listeners c w :
  listeners (this (perform c w))
  = match c with
    | CallAddEventLogListener cb =>
        if List.existsb (Nat.eqb cb) (listeners (this w)) then listeners (this w)
        else listeners (this w) ++ [cb]
    | CallRemoveEventLogListener cb =>
        List.filter (fun l => negb (Nat.eqb cb l)) (listeners (this w))
    | _ => listeners (this w)
    end.
Proof.
  by_call c w; try reflexivity.
  - exact (f_equal settings_listeners (log_settled _ _ _ _ w eq_refl)).
  - exact (f_equal settings_listeners (logPageView_settled _ _ _ _ w eq_refl)).
  - exact (f_equal settings_listeners (logViewEvent_settled _ _ _ _ w eq_refl)).
Qed.

Lemma existsb_eqb_In cb ls : List.existsb (Nat.eqb cb) ls = true <-> In cb ls.
Proof.
  rewrite existsb_exists. split.
  - intros (x & Hx & He). apply Nat.eqb_eq in He. now subst.
  - intros H. exists cb. split; [exact H|apply Nat.eqb_refl].
Qed.

Lemma filter_out_absent cb ls :
  ~ In cb ls -> List.filter (fun l => negb (Nat.eqb cb l)) ls = ls.
Proof.
  induction ls as [|l ls IH]; [reflexivity|]. cbn. intros H.
  destruct (Nat.eqb_spec cb l) as [->|Hne]; [exfalso; apply H; now left|].
  cbn. rewrite IH; [reflexivity|]. intros Hin. apply H. now right.
Qed.

Lemma NoDup_snoc (ls : list nat) cb : List.NoDup ls -> ~ In cb ls -> List.NoDup (ls ++ [cb]).
Proof.
  induction ls as [|l ls IH]; cbn; intros Hnd Hin.
  - constructor; [intros []|constructor].
  - apply List.NoDup_cons_iff in Hnd as [Hl Hnd]. apply List.NoDup_cons_iff. split.
    + rewrite in_app_iff. cbn. intuition congruence.
    + apply IH; [exact Hnd|]. intros H. apply Hin. now right.
Qed.

Lemma NoDup_perform c w :
  List.NoDup (listeners (this w)) -> List.NoDup (listeners (this (perform c w))).
Proof.
  intros H. rewrite perform_listeners. destruct c; try exact H.
  - destruct (existsb (Nat.eqb callback) (listeners (this w))) eqn:He; [exact H|].
    apply NoDup_snoc; [exact H|].
    intros Hin. apply existsb_eqb_In in Hin. congruence.
  - now apply List.NoDup_filter.
Qed.

Lemma NoDup_occurAll events w :
  List.NoDup (listeners (this w)) -> List.NoDup (listeners (this (occurAll events w))).
Proof.
  unfold occurAll. revert w.
  induction events as [|e events IH]; intros w H; cbn [fold_left]; [exact H|].
  apply IH. destruct e as [c|url]; cbn [occur]; [now apply NoDup_perform|exact H].
Qed.

Lemma initializeLogParameters_listeners ls :
  invariant (fun w => listeners (this w) = ls) initializeLogParameters.
Proof.
  unfold initializeLogParameters, getOriginalReferrer, getSessionReferrer, getSessionFirstURL.
  invariant_steps.
Qed.

Lemma calls_of_unregistered cb label ls :
  ~ In cb ls -> List.filter (isCallOf cb) (listenerCalls label ls) = [].
Proof.
  induction ls as [|l ls IH]; [reflexivity|]. intros H.
  cbn [listenerCalls map List.filter isCallOf].
  destruct (Nat.eqb_spec l cb) as [->|_]; [exfalso; apply H; now left|].
  apply IH. intros Hin. apply H. now right.
Qed.

Lemma calls_of_registered cb label ls :
  List.NoDup ls -> In cb ls ->
  length (List.filter (isCallOf cb) (listenerCalls label ls)) = 1%nat.
Proof.
  induction ls as [|l ls IH]; [intros _ []|].
  intros Hnd Hin. apply List.NoDup_cons_iff in Hnd as [Hl Hnd].
  cbn [listenerCalls map List.filter isCallOf].
  destruct (Nat.eqb_spec l cb) as [->|Hne].
  - cbn [length]. f_equal.
    fold (listenerCalls label ls). now rewrite calls_of_unregistered.
  - destruct Hin as [->|Hin]; [congruence|]. now apply IH.
Qed.

Lemma callsDuringLog_quiet cb label w :
  quietListeners w label ->
  callsDuringLog cb label w
  = length (List.filter (isCallOf cb) (listenerCalls label (listeners (this w)))).
Proof.
  intros Hq. unfold callsDuringLog.
  pose proof (log_run label None None w) as H. cbn zeta in H.
  rewrite (notify_quiet _ _ _ Hq) in H. cbn [fst snd] in H. rewrite H. clear H.
  assert (Hskip : forall rest,
             List.skipn (length (trace w)) (trace w ++ rest) = rest).
  { intros rest. rewrite List.skipn_app, List.skipn_all, Nat.sub_diag. reflexivity. }
  destruct (context_userAgentIsBot w || negb (truthy (Some label)));
    unfold world_of, addTrace, renewed; cbn [snd trace];
    rewrite <- app_assoc, Hskip; cbn [app List.filter isCallOf];
    rewrite ?List.filter_app; cbn [List.filter isCallOf];
    [rewrite ?app_nil_r; reflexivity|].
  destruct (debugEnabled w); cbn [List.filter isCallOf]; now rewrite app_nil_r.
Qed.

(** X4.  The listeners form a set kept in registration order.  Registering
    a callback that is already registered changes nothing, so one [log]
    call calls it once, not twice; the closure returned by
    [addEventLogListener] removes it, after which [log] no longer calls
    it; registering and then removing a new callback gives back the
    instance as it was; and neither operation touches the other
    callbacks.  No sequence of calls after construction ever puts a
    callback into the set twice. *)
Theorem listener_set_semantics w cb :
  List.NoDup (listeners (this w)) ->
  let added := perform (CallAddEventLogListener cb) w in
  let removed := perform (CallRemoveEventLogListener cb) w in
  (In cb (listeners (this added))
   /\ perform (CallAddEventLogListener cb) added = added
   /\ (~ In cb (listeners (this w)) -> listeners (this added) = listeners (this w) ++ [cb])
   /\ (forall label, quietListeners added label -> callsDuringLog cb label added = 1%nat))
  /\ (~ In cb (listeners (this removed))
      /\ (forall label, quietListeners removed label -> callsDuringLog cb label removed = 0%nat)
      /\ (~ In cb (listeners (this w)) ->
          perform (CallRemoveEventLogListener cb) added = w))
  /\ (forall other, other <> cb ->
        (In other (listeners (this added)) <-> In other (listeners (this w)))
        /\ (In other (listeners (this removed)) <-> In other (listeners (this w))))
  /\ (forall b events,
        List.NoDup (listeners (this (occurAll events (world_of (newEventLogger b)))))).
Proof.
  intros Hnd added removed.
  assert (Hadded : listeners (this added)
                   = if List.existsb (Nat.eqb cb) (listeners (this w)) then listeners (this w)
                     else listeners (this w) ++ [cb]).
  { subst added. now rewrite perform_listeners. }
  assert (Hremoved : listeners (this removed)
                     = List.filter (fun l => negb (Nat.eqb cb l)) (listeners (this w))).
  { subst removed. now rewrite perform_listeners. }
  assert (Hin : In cb (listeners (this added))).
  { rewrite Hadded.
    destruct (existsb (Nat.eqb cb) (listeners (this w))) eqn:He.
    - now apply existsb_eqb_In.
    - apply in_or_app. right. now left. }
  assert (Hout : ~ In cb (listeners (this removed))).
  { rewrite Hremoved. intros H. apply filter_In in H as [_ H].
    now rewrite Nat.eqb_refl in H. }
  split; [|split; [|split]].
  - split; [exact Hin|]. split; [|split].
    + cbn [perform]. rewrite addEventLogListener_run.
      apply existsb_eqb_In in Hin. rewrite Hin. reflexivity.
    + intros Hnew. rewrite Hadded.
      destruct (existsb (Nat.eqb cb) (listeners (this w))) eqn:He; [|reflexivity].
      apply existsb_eqb_In in He. contradiction.
    + intros label Hq. rewrite (callsDuringLog_quiet _ _ _ Hq).
      apply calls_of_registered; [|exact Hin].
      subst added. now apply NoDup_perform.
  - split; [exact Hout|]. split.
    + intros label Hq. rewrite (callsDuringLog_quiet _ _ _ Hq).
      now rewrite calls_of_unregistered.
    + intros Hnew. subst added. cbn [perform]. rewrite addEventLogListener_run.
      destruct (existsb (Nat.eqb cb) (listeners (this w))) eqn:He;
        [apply existsb_eqb_In in He; contradiction|].
      unfold removeEventLogListener, modify, world_of, onThis. cbn.
      rewrite List.filter_app, (filter_out_absent _ _ Hnew). cbn.
      rewrite Nat.eqb_refl. cbn. rewrite app_nil_r.
      destruct w as [bw [f1 f2 f3 f4 f5 f6 f7 f8 f9 f10 f11 f12] tw]. reflexivity.
  - intros other Hne. rewrite Hadded, Hremoved. split.
    + destruct (existsb (Nat.eqb cb) (listeners (this w))); [reflexivity|].
      rewrite in_app_iff. cbn. intuition congruence.
    + rewrite filter_In. split; [tauto|]. intros H. split; [exact H|].
      destruct (Nat.eqb_spec cb other); [congruence|reflexivity].
  - intros b events. apply NoDup_occurAll. unfold newEventLogger.
    rewrite (initializeLogParameters_listeners [] (mkWorld b initialFields []) eq_refl).
    constructor.
Qed.

Lemma listener_set_semantics_witness :
  callsDuringLog 2 "SearchSubmitted"
    (perform (CallAddEventLogListener 2) visitorWorld) = 1%nat
  /\ callsDuringLog 2 "SearchSubmitted"
       (perform (CallRemoveEventLogListener 2) visitorWorld) = 0%nat.
Proof.
  assert (Hnd : List.NoDup (listeners (this visitorWorld))).
  { cbn. repeat constructor; cbn; intuition discriminate. }
  destruct (listener_set_semantics visitorWorld 2 Hnd)
    as ((_ & _ & _ & Hcalled) & (_ & Hsilent & _) & _).
  split; [apply Hcalled|apply Hsilent]; intros l _; reflexivity.
Defined.

(** ** First-touch attribution *)

Lemma sticky_refl o : sticky o o.
Proof. intros _. reflexivity. Qed.

Lemma sticky_trans a b c : sticky a b -> sticky b c -> sticky a c.
Proof. intros Hab Hbc Ha. rewrite <- (Hab Ha). apply Hbc. now rewrite (Hab Ha). Qed.

Lemma sticky_resolved cache r :
  sticky cache (Some (if truthy cache then stringOf cache else r)).
Proof. intros Ht. rewrite Ht. destruct cache; [reflexivity|discriminate]. Qed.

Lemma cachesKept_refl l : cachesKept l l.
Proof. repeat split; apply sticky_refl. Qed.

Lemma cachesKept_trans l1 l2 l3 : cachesKept l1 l2 -> cachesKept l2 l3 -> cachesKept l1 l3.
Proof.
  intros (A1 & A2 & A3 & A4 & A5) (B1 & B2 & B3 & B4 & B5).
  repeat split; eapply sticky_trans; eassumption.
Qed.

Lemma cachesKept_settled l l' : settingsOf l' = settingsOf l -> cachesKept l l'.
Proof.
  intros H. injection H as _ _ H1 H2 _ _ _ H3 H4 H5.
  unfold cachesKept. rewrite H1, H2, H3, H4, H5. apply cachesKept_refl.
Qed.

Lemma readThrough_value cache key default w :
  fst (readThrough cache key default w)
  = if truthy cache then stringOf cache
    else if truthy (liveCookie (browser w) key)
         then stringOf (liveCookie (browser w) key)
         else fst (default w).
Proof.
  unfold readThrough. destruct (truthy cache); [reflexivity|].
  now destruct (truthy (liveCookie (browser w) key)).
Qed.

Lemma perform_cachesKept c w : cachesKept (this w) (this (perform c w)).
Proof.
  by_call c w; try apply cachesKept_refl;
    try (repeat split; intros _; reflexivity);
    try (unfold world_of, writtenBack; cbn [snd this]; rewrite readThrough_value;
         repeat split; cbn; try apply sticky_refl; apply sticky_resolved).
  - apply cachesKept_settled. exact (log_settled _ _ _ _ w eq_refl).
  - apply cachesKept_settled. exact (logPageView_settled _ _ _ _ w eq_refl).
  - apply cachesKept_settled. exact (logViewEvent_settled _ _ _ _ w eq_refl).
Qed.

Lemma perform_context c w : context (browser (perform c w)) = context (browser w).
Proof.
  destruct (perform_cases c w) as [H | [[Hb _] | [dt ->]]];
    [exact (within_context _ _ _ H)|now rewrite Hb|reflexivity].
Qed.

Lemma occurAll_kept events w :
  cachesKept (this w) (this (occurAll events w))
  /\ context (browser (occurAll events w)) = context (browser w).
Proof.
  unfold occurAll. revert w.
  induction events as [|e events IH]; intros w; cbn [fold_left].
  - split; [apply cachesKept_refl|reflexivity].
  - destruct (IH (occur e w)) as [Hk Hc]. destruct e as [c|url]; cbn [occur] in *.
    + split; [eapply cachesKept_trans; [apply perform_cachesKept|exact Hk]|].
      now rewrite Hc, perform_context.
    + split; [exact Hk|exact Hc].
Qed.

Lemma ReadsThrough_sticky accessor cache store key settings default :
  ReadsThrough accessor cache store key settings default ->
  (forall x l, cache (store x l) = x) ->
  (forall l l', cachesKept l l' -> sticky (cache l) (cache l')) ->
  forall w, StickyAccessor w accessor.
Proof.
  intros Hrun Hstore Hkept w v events Hres Hv.
  assert (Hmode : forall w1 w2, context (browser w2) = context (browser w1) ->
                                isSourcegraphDotComMode w2 = isSourcegraphDotComMode w1).
  { intros w1 w2 H. unfold isSourcegraphDotComMode. now rewrite H. }
  rewrite (Hrun w) in Hres |- *.
  destruct (isSourcegraphDotComMode w) eqn:Hd; unfold result_of, world_of in *;
    cbn [fst snd] in *; [|congruence].
  injection Hres as Hres.
  set (w1 := writtenBack store key settings (readThrough (cache (this w)) key default w) w).
  assert (Hcache : cache (this w1) = Some v).
  { subst w1. unfold writtenBack. cbn [this]. now rewrite Hstore, Hres. }
  destruct (occurAll_kept events w1) as [Hk Hc].
  assert (Hd1 : isSourcegraphDotComMode w1 = true) by exact Hd.
  rewrite (Hrun (occurAll events w1)), (Hmode _ _ Hc), Hd1. cbn [fst].
  apply truthy_Some_iff in Hv.
  rewrite (Hkept _ _ Hk) by now rewrite Hcache.
  rewrite Hcache, readThrough_value, Hv. reflexivity.
Qed.

(** X5.  First-touch attribution is sticky.  Once one of the five
    attribution accessors has returned a non-empty value, it returns that
    same value on every later call during the life of the page, whatever
    method calls, navigations inside the application and waits come in
    between: the address or referrer of a later moment and a cookie that
    has meanwhile expired or changed are not looked at again.  The cached
    value of each accessor survives every call of every other method. *)
Theorem attribution_first_touch_is_sticky w :
  Forall (StickyAccessor w) urlAccessors
  /\ (forall events, cachesKept (this w) (this (occurAll events w))).
Proof.
  split; [|intros events; apply occurAll_kept].
  unfold urlAccessors. repeat constructor.
  - apply (ReadsThrough_sticky _ _ _ _ _ _ getFirstSourceURL_run); [reflexivity|].
    now intros l l' (H & _).
  - apply (ReadsThrough_sticky _ _ _ _ _ _ getLastSourceURL_run); [reflexivity|].
    now intros l l' (_ & H & _).
  - apply (ReadsThrough_sticky _ _ _ _ _ _ getOriginalReferrer_run); [reflexivity|].
    now intros l l' (_ & _ & H & _).
  - apply (ReadsThrough_sticky _ _ _ _ _ _ getSessionReferrer_run); [reflexivity|].
    now intros l l' (_ & _ & _ & H & _).
  - apply (ReadsThrough_sticky _ _ _ _ _ _ getSessionFirstURL_run); [reflexivity|].
    now intros l l' (_ & _ & _ & _ & H).
Qed.

Lemma attribution_first_touch_is_sticky_witness :
  result_of (getSessionFirstURL landingWorld)
  = Normal "https://sourcegraph.test/campaign?utm_term=search"
  /\ href (location (browser (occurAll sampleEvents
                                (world_of (getSessionFirstURL landingWorld)))))
     = "https://sourcegraph.test/search"
  /\ result_of (getSessionFirstURL
                  (occurAll sampleEvents (world_of (getSessionFirstURL landingWorld))))
     = Normal "https://sourcegraph.test/campaign?utm_term=search".
Proof.
  split; [reflexivity|]. split; [reflexivity|].
  destruct (attribution_first_touch_is_sticky landingWorld) as [H _].
  assert (Hv : "https://sourcegraph.test/campaign?utm_term=search" <> "") by discriminate.
  exact (proj1 (List.Forall_forall _ _) H getSessionFirstURL
               (or_intror (or_intror (or_intror (or_intror (or_introl eq_refl)))))
               _ sampleEvents eq_refl Hv).
Defined.

(** ** Footprint of the public methods *)

Section PublicMethods.
Variable allowed : Effect -> bool.
Hypothesis session_read : allowed (CookieGet DEVICE_SESSION_ID_KEY) = true.
Hypothesis session_write :
  forall v, allowed (CookieSet DEVICE_SESSION_ID_KEY v deviceSessionCookieSettings) = true.
Hypothesis listener_called : forall l label, allowed (ListenerCalled l label) = true.
Hypothesis action_tracked : forall l p q, allowed (TrackAction l p q) = true.
Hypothesis page_view_tracked : forall n a p, allowed (TrackPageView n a p) = true.
Hypothesis debug_switch_read : allowed (LocalStorageGet "eventLogDebug") = true.
Hypothesis debug_written : forall l p q, allowed (LoggerDebug l p q) = true.
Hypothesis address_rewritten : forall u, allowed (ReplaceState u) = true.
Hypothesis uuid_drawn : allowed UuidV4 = true.

Lemma log_public label p q : respects allowed (log label p q).
Proof.
  apply (log_footprint allowed [label]); auto.
  cbn. now rewrite String.eqb_refl.
Qed.

Lemma reset_public : respects allowed resetSessionCookieExpiration.
Proof. apply resetSessionCookieExpiration_footprint; auto. Qed.

Lemma logToConsole_public l p q : respects allowed (logToConsole l p q).
Proof. apply logToConsole_footprint; auto. Qed.

Lemma set_latch_public :
  respects allowed (modify (onThis (set_hasStrippedQueryParameters true))).
Proof. now apply (respects_set_latch allowed (mkURL "" [] "")). Qed.

Lemma stripURLParameters_public url ps : respects allowed (stripURLParameters url ps).
Proof. unfold stripURLParameters. now apply respects_replaceState. Qed.

#[local] Hint Resolve log_public reset_public logToConsole_public set_latch_public
  stripURLParameters_public : footprint.

Lemma pageViewQueryParameters_public url : respects allowed (pageViewQueryParameters url).
Proof. unfold pageViewQueryParameters. footprint. Qed.

Lemma handleQueryEvents_public url : respects allowed (handleQueryEvents url).
Proof. unfold handleQueryEvents. footprint. Qed.

#[local] Hint Resolve pageViewQueryParameters_public handleQueryEvents_public : footprint.

Lemma logViewEventInternal_public n p a : respects allowed (logViewEventInternal n p a).
Proof. unfold logViewEventInternal. footprint. Qed.

#[local] Hint Resolve logViewEventInternal_public : footprint.

Lemma logPageView_public n p a : respects allowed (logPageView n p a).
Proof. unfold logPageView. footprint. Qed.

Lemma logViewEvent_public n p a : respects allowed (logViewEvent n p a).
Proof. unfold logViewEvent. footprint. Qed.

Lemma getDeviceSessionID_public : respects allowed getDeviceSessionID.
Proof. unfold getDeviceSessionID, getAnonymousUserID. footprint. Qed.

Lemma getEventID_public : respects allowed getEventID.
Proof. unfold getEventID. footprint. Qed.

Lemma getInsertID_public : respects allowed getInsertID.
Proof. unfold getInsertID. footprint. Qed.
End PublicMethods.

Lemma includes_In xs x : includes xs x = true <-> In x xs.
Proof.
  unfold includes. rewrite existsb_exists. split.
  - intros (y & Hy & He). apply String.eqb_eq in He. now subst.
  - intros H. exists x. split; [exact H|apply String.eqb_refl].
Qed.

Lemma methodEffect_ownWrite d k v a :
  methodEffect d (CookieSet k v a) = true -> ownWrite d k a.
Proof.
  cbn [methodEffect]. intros H.
  apply orb_true_iff in H as [H | H]; [apply orb_true_iff in H as [H | H]|].
  - left. apply andb_true_iff in H as [Hk Ha].
    apply String.eqb_eq in Hk. apply sameAttributes_eq in Ha. now split.
  - right. left. apply andb_true_iff in H as [H Ha]. apply andb_true_iff in H as [Hd Hk].
    apply includes_In in Hk. apply sameAttributes_eq in Ha. now repeat split.
  - right. right. apply andb_true_iff in H as [H Ha]. apply andb_true_iff in H as [Hd Hk].
    apply includes_In in Hk. apply sameAttributes_eq in Ha. now repeat split.
Qed.

Ltac method_footprint := intros; reflexivity.

Lemma accessor_method accessor cache store key settings default w :
  ReadsThrough accessor cache store key settings default ->
  respects (methodEffect true) accessor ->
  Within (methodEffect (isSourcegraphDotComMode w)) w (world_of (accessor w)).
Proof.
  intros Hrun Hf. destruct (isSourcegraphDotComMode w) eqn:Hd; [apply Hf|].
  rewrite (Hrun w), Hd. apply Within_refl.
Qed.

Lemma getFirstSourceURL_method : respects (methodEffect true) getFirstSourceURL.
Proof. unfold getFirstSourceURL. footprint. Qed.

Lemma getLastSourceURL_method : respects (methodEffect true) getLastSourceURL.
Proof. unfold getLastSourceURL. footprint. Qed.

Lemma getOriginalReferrer_method : respects (methodEffect true) getOriginalReferrer.
Proof. unfold getOriginalReferrer. footprint. Qed.

Lemma getSessionReferrer_method : respects (methodEffect true) getSessionReferrer.
Proof. unfold getSessionReferrer. footprint. Qed.

Lemma getSessionFirstURL_method : respects (methodEffect true) getSessionFirstURL.
Proof. unfold getSessionFirstURL. footprint. Qed.

(** Every call stays within the footprint of its mode, or only touches the
    listener set, or lets time pass. *)
Lemma perform_method c w :
  Within (methodEffect (isSourcegraphDotComMode w)) w (perform c w)
  \/ (browser (perform c w) = browser w /\ trace (perform c w) = trace w)
  \/ (exists dt, perform c w = elapse dt w).
Proof.
  destruct c; cbn [perform].
  - left. apply log_public; method_footprint.
  - left. apply logPageView_public; method_footprint.
  - left. apply logViewEvent_public; method_footprint.
  - left. apply Within_refl.
  - left. apply Within_refl.
  - left. apply Within_refl.
  - left. exact (accessor_method _ _ _ _ _ _ w getFirstSourceURL_run getFirstSourceURL_method).
  - left. exact (accessor_method _ _ _ _ _ _ w getLastSourceURL_run getLastSourceURL_method).
  - left. exact (accessor_method _ _ _ _ _ _ w getOriginalReferrer_run
                                 getOriginalReferrer_method).
  - left. exact (accessor_method _ _ _ _ _ _ w getSessionReferrer_run
                                 getSessionReferrer_method).
  - left. exact (accessor_method _ _ _ _ _ _ w getSessionFirstURL_run
                                 getSessionFirstURL_method).
  - left. apply getDeviceSessionID_public; method_footprint.
  - left. apply getInsertID_public; method_footprint.
  - left. apply getEventID_public.
  - left. rewrite getReferrer_run. apply Within_refl.
  - left. destruct (getClient_run w) as [client ->]. apply Within_refl.
  - right. left. rewrite addEventLogListener_run.
    now destruct (existsb (Nat.eqb callback) (listeners (this w))).
  - right. left. split; reflexivity.
  - right. right. now exists dt.
Qed.

Lemma occur_footprint e w :
  let d := isSourcegraphDotComMode w in
  let w' := occur e w in
  (exists new, trace w' = trace w ++ new /\ forallb (methodEffect d) new = true)
  /\ localStorage (browser w') = localStorage (browser w)
  /\ (forall k, (forall v a, methodEffect d (CookieSet k v a) = false) ->
                cookieJar (browser w') !! k = cookieJar (browser w) !! k)
  /\ context (browser w') = context (browser w).
Proof.
  intros d w'. subst w'.
  assert (Hsame : forall w', trace w' = trace w ->
                             exists new, trace w' = trace w ++ new
                                         /\ forallb (methodEffect d) new = true).
  { intros w' H. exists []. now rewrite app_nil_r. }
  destruct e as [c|url]; cbn [occur].
  - destruct (perform_method c w) as [H | [[Hb Ht] | [dt ->]]].
    + split; [exact (within_trace _ _ _ H)|]. split; [|split].
      * apply (within_localStorage _ _ _ H); reflexivity.
      * exact (within_jar _ _ _ H).
      * exact (within_context _ _ _ H).
    + rewrite Hb. split; [now apply Hsame|]. repeat split; reflexivity.
    + split; [now apply Hsame|]. repeat split; reflexivity.
  - split; [now apply Hsame|]. repeat split; reflexivity.
Qed.

Lemma occurAll_footprint events w :
  let d := isSourcegraphDotComMode w in
  let w' := occurAll events w in
  (exists new, trace w' = trace w ++ new /\ forallb (methodEffect d) new = true)
  /\ localStorage (browser w') = localStorage (browser w)
  /\ (forall k, (forall v a, methodEffect d (CookieSet k v a) = false) ->
                cookieJar (browser w') !! k = cookieJar (browser w) !! k)
  /\ context (browser w') = context (browser w).
Proof.
  unfold occurAll. revert w.
  induction events as [|e events IH]; intros w; cbn [fold_left].
  - split; [exists []; now rewrite app_nil_r|]. repeat split; reflexivity.
  - destruct (occur_footprint e w) as ((n1 & E1 & F1) & L1 & J1 & C1).
    destruct (IH (occur e w)) as ((n2 & E2 & F2) & L2 & J2 & C2).
    assert (Hd : isSourcegraphDotComMode (occur e w) = isSourcegraphDotComMode w).
    { unfold isSourcegraphDotComMode. now rewrite C1. }
    rewrite Hd in *.
    split; [|split; [|split]].
    + exists (n1 ++ n2). rewrite E2, E1, <- app_assoc. split; [reflexivity|].
      now rewrite forallb_app, F1, F2.
    + now rewrite L2, L1.
    + intros k Hk. now rewrite J2, J1.
    + now rewrite C2, C1.
Qed.

(** X6.  No method of a constructed logger writes to the local store:
    whatever calls, navigations and waits happen to the page, the store
    stays as it was, and the only access to it is the read of the
    eventLogDebug switch. *)
Theorem methods_leave_local_store_alone events w :
  localStorage (browser (occurAll events w)) = localStorage (browser w)
  /\ exists new,
       trace (occurAll events w) = trace w ++ new
       /\ forall e, In e new -> touchesLocalStorage e = true ->
                    e = LocalStorageGet "eventLogDebug".
Proof.
  destruct (occurAll_footprint events w) as ((new & E & F) & L & _).
  split; [exact L|]. exists new. split; [exact E|].
  intros e He Ht. rewrite forallb_forall in F. specialize (F e He).
  destruct e; try discriminate Ht; try discriminate F.
  cbn [methodEffect] in F. apply String.eqb_eq in F. now subst.
Qed.

Lemma other_cookie_not_written d k :
  k <> DEVICE_SESSION_ID_KEY -> (d = true -> ~ In k attributionKeys) ->
  forall v a, methodEffect d (CookieSet k v a) = false.
Proof.
  intros Hs Ha v a. cbn [methodEffect].
  apply String.eqb_neq in Hs. rewrite Hs. cbn [andb orb].
  destruct d; [|reflexivity]. specialize (Ha eq_refl). cbn [andb].
  assert (H1 : includes longLivedKeys k = false).
  { destruct (includes longLivedKeys k) eqn:H; [|reflexivity].
    apply includes_In in H. exfalso. apply Ha.
    unfold longLivedKeys, attributionKeys in *. cbn [In] in *. tauto. }
  assert (H2 : includes sessionKeys k = false).
  { destruct (includes sessionKeys k) eqn:H; [|reflexivity].
    apply includes_In in H. exfalso. apply Ha.
    unfold sessionKeys, attributionKeys in *. cbn [In] in *. tauto. }
  now rewrite H1, H2.
Qed.

(** X7.  The methods of a constructed logger write only the logger's own
    cookies, each with its own settings: the device-session cookie with
    the 30-minute settings in every mode, and in public mode the first
    and last source address and the original referrer with the 365-day
    settings and the session referrer and session first address with the
    30-minute settings.  On a private instance the session cookie is the
    only cookie ever written.  Every other cookie in the jar, the
    anonymous-id, cohort and device cookies included, stays exactly as it
    was, expiry included. *)
Theorem methods_write_own_cookies_only events w :
  let d := isSourcegraphDotComMode w in
  let w' := occurAll events w in
  (exists new,
      trace w' = trace w ++ new
      /\ forall k v a, In (CookieSet k v a) new -> ownWrite d k a)
  /\ (forall k, k <> DEVICE_SESSION_ID_KEY -> (d = true -> ~ In k attributionKeys) ->
                cookieJar (browser w') !! k = cookieJar (browser w) !! k)
  /\ cookieJar (browser w') !! ANONYMOUS_USER_ID_KEY
     = cookieJar (browser w) !! ANONYMOUS_USER_ID_KEY
  /\ cookieJar (browser w') !! COHORT_ID_KEY = cookieJar (browser w) !! COHORT_ID_KEY
  /\ cookieJar (browser w') !! DEVICE_ID_KEY = cookieJar (browser w) !! DEVICE_ID_KEY.
Proof.
  intros d w'.
  destruct (occurAll_footprint events w) as ((new & E & F) & _ & J & _).
  fold d in F, J. fold w' in E, J.
  assert (Hother : forall k, k <> DEVICE_SESSION_ID_KEY ->
                             (d = true -> ~ In k attributionKeys) ->
                             cookieJar (browser w') !! k = cookieJar (browser w) !! k).
  { intros k Hs Ha. apply J. now apply other_cookie_not_written. }
  split; [|split; [exact Hother|]].
  - exists new. split; [exact E|]. intros k v a Hin.
    rewrite forallb_forall in F. exact (methodEffect_ownWrite _ _ _ _ (F _ Hin)).
  - repeat split; apply Hother; try discriminate;
      intros _; unfold attributionKeys; cbn [In]; intuition discriminate.
Qed.

Lemma methods_write_own_cookies_only_witness :
  isSourcegraphDotComMode selfHostedWorld = false
  /\ List.filter (fun e => match e with CookieSet _ _ _ => true | _ => false end)
       (trace (occurAll selfHostedEvents selfHostedWorld))
     = List.repeat (CookieSet DEVICE_SESSION_ID_KEY "visitor" deviceSessionCookieSettings) 3
  /\ cookieJar (browser (occurAll selfHostedEvents selfHostedWorld)) !! FIRST_SOURCE_URL_KEY
     = Some (mkCookie "https://about.example/" (1793664000000 + 86400000))
  /\ cookieJar (browser (occurAll selfHostedEvents selfHostedWorld)) !! "theme"
     = Some (mkCookie "dark" (1793664000000 + 86400000)).
Proof.
  destruct (methods_write_own_cookies_only selfHostedEvents selfHostedWorld)
    as (_ & Hother & _).
  split; [reflexivity|]. split; [vm_compute; reflexivity|]. split.
  - rewrite Hother; [reflexivity|discriminate|discriminate].
  - rewrite Hother; [reflexivity|discriminate|discriminate].
Defined.

(** ** What a page view forwards, and in which order *)

Lemma Forwarded_refl w : Forwarded w w [].
Proof. exists []. now rewrite app_nil_r. Qed.

Lemma Forwarded_trans w1 w2 w3 a b :
  Forwarded w1 w2 a -> Forwarded w2 w3 b -> Forwarded w1 w3 (a ++ b).
Proof.
  intros (n1 & E1 & F1) (n2 & E2 & F2). exists (n1 ++ n2).
  rewrite E2, E1, <- app_assoc. split; [reflexivity|].
  now rewrite List.filter_app, F1, F2.
Qed.

Lemma Forwarded_record e w :
  Forwarded w (record e w) (if isForwarding e then [e] else []).
Proof. exists [e]. split; [reflexivity|]. cbn. now destruct (isForwarding e). Qed.

Lemma log_Forwarded label p q w :
  quiet w -> context_userAgentIsBot w = false -> label <> "" ->
  exists w',
    log label p q w = (Normal tt, w')
    /\ Within (emissionEffect [label]) w w'
    /\ Forwarded w w' [TrackAction label p q].
Proof.
  intros Hq Hbot Hlabel.
  destruct (log_forwarded label p q w Hq Hbot Hlabel) as (w' & Hrun & W & _).
  exists w'. split; [exact Hrun|]. split; [exact W|].
  destruct (log_trace label p q w) as (new & E & F & Fp).
  rewrite Hrun in E. unfold world_of in E. cbn [snd] in E.
  exists new. split; [exact E|].
  rewrite (forwarding_is_tracking _ Fp), F. unfold forwards.
  rewrite notify_quiet by (intros; apply Hq). cbn [snd].
  rewrite Hbot. apply truthy_Some_iff in Hlabel. now rewrite Hlabel.
Qed.

Lemma utm_rule_label url r : firstMatch url = Some r -> rule_event r <> "".
Proof.
  unfold firstMatch. intros H. apply find_some in H as [Hin _].
  unfold utmTable in Hin. cbn [In] in Hin.
  repeat (destruct Hin as [<- | Hin]; [discriminate|]). destruct Hin.
Qed.

Lemma pageViewQueryParameters_Forwarded url w :
  quiet w -> context_userAgentIsBot w = false ->
  exists w',
    pageViewQueryParameters url w = (Normal (utmPropsOf url), w')
    /\ Within (emissionEffect utmLabels) w w'
    /\ Forwarded w w' (utmEvents url).
Proof.
  intros Hq Hbot.
  destruct (pageViewQueryParameters_quiet url w Hq) as (w' & Hrun & W).
  exists w'. split; [exact Hrun|]. split; [exact W|].
  rewrite pageViewQueryParameters_first_match in Hrun. unfold utmEvents.
  destruct (firstMatch url) as [r|] eqn:Hr.
  - destruct (log_Forwarded (rule_event r) (ruleArgs r url) (ruleArgs r url) w Hq Hbot
                (utm_rule_label _ _ Hr)) as (w1 & R1 & _ & F1).
    unfold bind in Hrun. rewrite R1 in Hrun. unfold ret in Hrun.
    injection Hrun as <-. exact F1.
  - injection Hrun as <-. apply Forwarded_refl.
Qed.

Lemma Within_Forwarded allowed w w' :
  (forall e, allowed e = true -> isForwarding e = false) ->
  Within allowed w w' -> Forwarded w w' [].
Proof.
  intros Hno H. destruct (within_trace _ _ _ H) as (new & E & F).
  exists new. split; [exact E|].
  clear E. induction new as [|e new IH]; [reflexivity|].
  cbn in F. apply andb_true_iff in F as [Fe Fn]. cbn.
  rewrite (Hno e Fe). now apply IH.
Qed.

Lemma optional_log_Forwarded (present : bool) label p w :
  quiet w -> context_userAgentIsBot w = false -> label <> "" ->
  exists w',
    (if present then log label p p else ret tt) w = (Normal tt, w')
    /\ Within (emissionEffect [label]) w w'
    /\ Forwarded w w' (if present then [TrackAction label p p] else []).
Proof.
  intros Hq Hbot Hlabel. destruct present.
  - now apply log_Forwarded.
  - exists w. split; [reflexivity|]. split; [apply Within_refl|apply Forwarded_refl].
Qed.

Lemma handleQueryEvents_Forwarded url w :
  quiet w -> context_userAgentIsBot w = false ->
  exists w',
    handleQueryEvents url w = (Normal tt, w')
    /\ Forwarded w w' (authEvents url)
    /\ hasStrippedQueryParameters (this w') = hasStrippedQueryParameters (this w)
    /\ quiet w'
    /\ context_userAgentIsBot w' = false.
Proof.
  intros Hq Hbot. unfold handleQueryEvents. cbn zeta.
  fold (serviceArgs url "signup"). fold (serviceArgs url "signin").
  destruct (optional_log_Forwarded (searchParams_has url "signup")
              "web:auth:signUpCompleted" (serviceArgs url "signup") w Hq Hbot
              ltac:(discriminate)) as (w1 & R1 & W1 & F1).
  rewrite (bind_run _ _ _ _ _ R1).
  destruct (optional_log_Forwarded (searchParams_has url "signin")
              "web:auth:signInCompleted" (serviceArgs url "signin") w1
              (quiet_Within _ _ _ W1 Hq)) as (w2 & R2 & W2 & F2);
    [now rewrite (bot_Within _ _ _ W1)|discriminate|].
  rewrite (bind_run _ _ _ _ _ R2).
  unfold stripURLParameters. rewrite bind_emit.
  eexists. split; [reflexivity|]. split; [|split; [|split]].
  - pose proof (Forwarded_trans _ _ _ _ _ (Forwarded_trans _ _ _ _ _ F1 F2)
                  (Forwarded_record (ReplaceState
                     (fold_right searchParams_delete url
                        ["utm_campaign"; "utm_source"; "utm_medium"; "signup"; "signin"])) w2))
      as F.
    cbn [isForwarding isTrackAction isTrackPageView orb] in F.
    rewrite app_nil_r in F. destruct F as (new & E & F). exists new. split; [exact E|exact F].
  - cbn. rewrite (within_latch_kept _ _ _ W2), (within_latch_kept _ _ _ W1);
      intros; reflexivity.
  - intros l label. cbn. apply (quiet_Within _ _ _ W2), (quiet_Within _ _ _ W1), Hq.
  - unfold context_userAgentIsBot in *. cbn.
    now rewrite (within_context _ _ _ W2), (within_context _ _ _ W1).
Qed.

Lemma effective_page_view (enter : string -> string) name p a w :
  context_userAgentIsBot w = false ->
  name <> "" ->
  quiet w ->
  exists w',
    (resetSessionCookieExpiration ;;
     bot <- gets context_userAgentIsBot ;;
     if bot || negb (truthy (Some name)) then ret tt
     else logViewEventInternal (enter name) p a) w = (Normal tt, w')
    /\ Forwarded w w'
         (utmEvents (location (browser w))
          ++ TrackPageView (enter name) a p
          :: (if hasStrippedQueryParameters (this w) then []
              else authEvents (location (browser w))))
    /\ latched w'.
Proof.
  intros Hbot Hname Hq.
  rewrite (bind_run _ _ _ _ _ (resetSessionCookieExpiration_run w)).
  rewrite bind_gets.
  change (context_userAgentIsBot (renewed w)) with (context_userAgentIsBot w).
  rewrite Hbot. apply truthy_Some_iff in Hname. rewrite Hname. cbn [orb negb].
  unfold logViewEventInternal. rewrite bind_gets.
  change (location (browser (renewed w))) with (location (browser w)).
  assert (W0 : Within (emissionEffect utmLabels) w (renewed w)).
  { replace (renewed w) with (world_of (resetSessionCookieExpiration w))
      by now rewrite resetSessionCookieExpiration_run.
    apply (resetSessionCookieExpiration_footprint (emissionEffect utmLabels));
      intros; reflexivity. }
  assert (F0 : Forwarded w (renewed w) []).
  { eexists. split; [reflexivity|reflexivity]. }
  destruct (pageViewQueryParameters_Forwarded (location (browser w)) (renewed w)
              (quiet_Within _ _ _ W0 Hq)) as (w1 & R1 & W1 & F1);
    [exact Hbot|].
  rewrite (bind_run _ _ _ _ _ R1). rewrite bind_emit.
  rewrite (bind_run _ _ _ _ _ (logToConsole_run _ _ _ _)).
  set (w2 := addTrace _ (record _ w1)).
  assert (W2 : Within (emissionEffect utmLabels) w1 w2).
  { replace w2 with
      (world_of ((emit (TrackPageView (enter name) a p) ;;
                  logToConsole (enter name) (utmPropsOf (location (browser w))) None) w1)).
    - apply respects_bind; [now apply respects_emit|intros _].
      apply (logToConsole_footprint (emissionEffect utmLabels)); intros; reflexivity.
    - rewrite bind_emit, logToConsole_run. reflexivity. }
  assert (F2 : Forwarded w1 w2 [TrackPageView (enter name) a p]).
  { unfold w2, addTrace, record. cbn [trace browser this].
    eexists. split; [rewrite <- app_assoc; reflexivity|].
    cbn. now destruct (debugEnabled _). }
  pose proof (Within_trans _ _ _ _ W0 (Within_trans _ _ _ _ W1 W2)) as W.
  pose proof (Forwarded_trans _ _ _ _ _ (Forwarded_trans _ _ _ _ _ F0 F1) F2) as F.
  cbn [app] in F.
  rewrite bind_gets. rewrite (within_latch_kept _ _ _ W) by reflexivity.
  destruct (hasStrippedQueryParameters (this w)) eqn:Hlatch; cbn [negb].
  - exists w2. split; [reflexivity|]. split.
    + destruct F as (new & E & Fn). exists new. split; [exact E|].
      rewrite Fn. clear. induction (utmEvents _); cbn; congruence.
    + unfold latched. now rewrite (within_latch_kept _ _ _ W) by reflexivity.
  - rewrite bind_gets. rewrite (within_location _ _ _ W) by reflexivity.
    destruct (handleQueryEvents_Forwarded (location (browser w)) w2
                (quiet_Within _ _ _ W Hq)) as (w3 & R3 & F3 & _);
      [now rewrite (bot_Within _ _ _ W)|].
    rewrite (bind_run _ _ _ _ _ R3).
    eexists. split; [reflexivity|]. split; [|reflexivity].
    destruct (Forwarded_trans _ _ _ _ _ F F3) as (new & E & Fn).
    exists new. split; [exact E|]. rewrite Fn. now rewrite <- app_assoc.
Qed.

(** X8.  A page view by a visitor who is no bot, with a non-empty name and
    listeners that do not throw, calls the external transport in this
    order: first the UTM event of the address, if a row of the table
    matches; then [trackPageView] with the name completed ("Viewed"
    appended by [logPageView], "View" prepended by [logViewEvent]) and the
    event properties and active-user flag as given; then, only on the first
    effective page view of the page load, the sign-up and sign-in events of
    the address.  Afterwards the latch is set. *)
Theorem page_view_forwarding_order w (deprecated : bool) name props asActive :
  context_userAgentIsBot w = false ->
  name <> "" ->
  quiet w ->
  let call := if deprecated then logViewEvent name props asActive w
              else logPageView name props asActive w in
  let viewName := if deprecated then "View" +:+ name else name +:+ "Viewed" in
  result_of call = Normal tt
  /\ Forwarded w (world_of call)
       (utmEvents (location (browser w))
        ++ TrackPageView viewName asActive props
        :: (if hasStrippedQueryParameters (this w) then []
            else authEvents (location (browser w))))
  /\ hasStrippedQueryParameters (this (world_of call)) = true.
Proof.
  intros Hbot Hname Hq call viewName.
  assert (H : exists w',
             call = (Normal tt, w')
             /\ Forwarded w w'
                  (utmEvents (location (browser w))
                   ++ TrackPageView viewName asActive props
                   :: (if hasStrippedQueryParameters (this w) then []
                       else authEvents (location (browser w))))
             /\ latched w').
  { subst call viewName. destruct deprecated.
    - exact (effective_page_view (fun n => "View" +:+ n) name props asActive w Hbot Hname Hq).
    - exact (effective_page_view (fun n => n +:+ "Viewed") name props asActive w
                                 Hbot Hname Hq). }
  destruct H as (w' & Hrun & F & L). rewrite Hrun.
  split; [reflexivity|]. split; [exact F|exact L].
Qed.

Lemma page_view_forwarding_order_witness :
  List.filter isForwarding (trace (world_of (logPageView "Home" (Some [("tab", Some "a")])
                                                         true busyWorld)))
  = [ TrackAction "SavedSearchEmailClicked" None None;
      TrackPageView "HomeViewed" true (Some [("tab", Some "a")]);
      TrackAction "web:auth:signUpCompleted" (Some [("serviceType", Some "")])
                  (Some [("serviceType", Some "")]);
      TrackAction "web:auth:signInCompleted" (Some [("serviceType", Some "gitlab")])
                  (Some [("serviceType", Some "gitlab")]) ].
Proof.
  assert (Hname : "Home" <> "") by discriminate.
  destruct (page_view_forwarding_order busyWorld false "Home" (Some [("tab", Some "a")]) true
              eq_refl Hname (fun _ _ => eq_refl)) as (_ & (new & E & F) & _).
  rewrite E. exact F.
Defined.

(** X9.  [handleQueryEvents], for a visitor who is no bot and whose
    listeners do not throw, forwards one sign-up event when the address
    has a signup parameter and then one sign-in event when it has a signin
    parameter, each carrying as serviceType the first value of its
    parameter, or the empty string when that value is empty; an address
    with neither forwards nothing.  It returns normally and leaves the
    latch to its caller. *)
Theorem query_markers_become_auth_events url w :
  quiet w ->
  context_userAgentIsBot w = false ->
  result_of (handleQueryEvents url w) = Normal tt
  /\ Forwarded w (world_of (handleQueryEvents url w)) (authEvents url)
  /\ hasStrippedQueryParameters (this (world_of (handleQueryEvents url w)))
     = hasStrippedQueryParameters (this w)
  /\ (searchParams_has url "signup" = false -> searchParams_has url "signin" = false ->
      authEvents url = [])
  /\ (forall marker,
        searchParams_get url marker = Some "" \/ searchParams_get url marker = None ->
        serviceArgs url marker = Some [("serviceType", Some "")])
  /\ (forall marker v,
        searchParams_get url marker = Some v -> v <> "" ->
        serviceArgs url marker = Some [("serviceType", Some v)]).
Proof.
  intros Hq Hbot.
  destruct (handleQueryEvents_Forwarded url w Hq Hbot) as (w' & Hrun & F & L & _).
  rewrite Hrun. unfold result_of, world_of. cbn [fst snd].
  split; [reflexivity|]. split; [exact F|]. split; [exact L|]. split; [|split].
  - intros H1 H2. unfold authEvents. now rewrite H1, H2.
  - intros marker [H | H]; unfold serviceArgs; rewrite H; reflexivity.
  - intros marker v H Hv. unfold serviceArgs. rewrite H.
    apply truthy_Some_iff in Hv. unfold jsOr. now rewrite Hv.
Qed.

Lemma query_markers_become_auth_events_witness :
  List.filter isForwarding (trace (world_of (handleQueryEvents busyPage busyWorld)))
  = [ TrackAction "web:auth:signUpCompleted" (Some [("serviceType", Some "")])
                  (Some [("serviceType", Some "")]);
      TrackAction "web:auth:signInCompleted" (Some [("serviceType", Some "gitlab")])
                  (Some [("serviceType", Some "gitlab")]) ].
Proof.
  destruct (query_markers_become_auth_events busyPage busyWorld (fun _ _ => eq_refl) eq_refl)
    as (_ & (new & E & F) & _).
  rewrite E. exact F.
Defined.

(** ** The debug switch *)

Lemma isLoggerDebug_listenerCalls label called :
  List.filter isLoggerDebug (listenerCalls label called) = [].
Proof. induction called as [|l ls IH]; cbn; [reflexivity|exact IH]. Qed.

(** X10.  The debug switch is a round trip through the local store:
    [setDebugEventLoggingEnabled b] followed by [debugEventLoggingEnabled]
    gives [b], whatever the store held before.  It gates the console: a
    forwarded event is written to the console once when the switch is on
    and not at all when it is off, and any stored text other than "true"
    counts as off. *)
Theorem debug_switch_gates_console enabled label props pub w :
  context_userAgentIsBot w = false ->
  label <> "" ->
  quietListeners w label ->
  let switched := (setDebugEventLoggingEnabled enabled ;; log label props pub) w in
  result_of ((setDebugEventLoggingEnabled enabled ;; debugEventLoggingEnabled) w)
  = Normal enabled
  /\ result_of switched = Normal tt
  /\ List.filter isLoggerDebug (trace (world_of switched))
     = List.filter isLoggerDebug (trace w)
       ++ (if enabled then [LoggerDebug label props pub] else [])
  /\ (forall text,
        localStorage (browser w) !! "eventLogDebug" = Some text -> text <> "true" ->
        List.filter isLoggerDebug (trace (world_of (log label props pub w)))
        = List.filter isLoggerDebug (trace w)).
Proof.
  intros Hbot Hlabel Hq switched.
  assert (Hlog : forall w1,
             context_userAgentIsBot w1 = false -> quietListeners w1 label ->
             result_of (log label props pub w1) = Normal tt
             /\ List.filter isLoggerDebug (trace (world_of (log label props pub w1)))
                = List.filter isLoggerDebug (trace w1)
                  ++ (if debugEnabled w1 then [LoggerDebug label props pub] else [])).
  { intros w1 Hbot1 Hq1.
    pose proof (log_run label props pub w1) as H. cbn zeta in H.
    rewrite (notify_quiet _ _ _ Hq1) in H. cbn [fst snd] in H.
    apply truthy_Some_iff in Hlabel. rewrite Hbot1, Hlabel in H. cbn [orb negb] in H.
    rewrite H. split; [reflexivity|].
    unfold world_of, addTrace, renewed. cbn [snd trace].
    rewrite !List.filter_app, isLoggerDebug_listenerCalls. cbn.
    rewrite app_nil_r. now destruct (debugEnabled w1). }
  split; [|split; [|split]].
  - unfold setDebugEventLoggingEnabled, debugEventLoggingEnabled, localStorage_setItem,
      localStorage_getItem, bind, emit, modify, gets, ret, result_of.
    cbn. rewrite lookup_insert_eq. now destruct enabled.
  - subst switched. unfold setDebugEventLoggingEnabled, localStorage_setItem.
    rewrite bind_bind, bind_emit, bind_modify. now apply Hlog.
  - subst switched. unfold setDebugEventLoggingEnabled, localStorage_setItem.
    rewrite bind_bind, bind_emit, bind_modify.
    match goal with
    | |- context [log label props pub ?w1] => rewrite (proj2 (Hlog w1 Hbot Hq))
    end.
    unfold debugEnabled. cbn. rewrite lookup_insert_eq, List.filter_app. cbn.
    rewrite app_nil_r. now destruct enabled.
  - intros text Hs Ht. rewrite (proj2 (Hlog w Hbot Hq)).
    unfold debugEnabled. rewrite Hs.
    apply String.eqb_neq in Ht. rewrite Ht. now rewrite app_nil_r.
Qed.

Lemma debug_switch_gates_console_witness :
  List.filter isLoggerDebug
    (trace (world_of ((setDebugEventLoggingEnabled true ;;
                       log "SearchSubmitted" None None) visitorWorld)))
  = [LoggerDebug "SearchSubmitted" None None]
  /\ List.filter isLoggerDebug
       (trace (world_of ((setDebugEventLoggingEnabled false ;;
                          log "SearchSubmitted" None None) visitorWorld)))
     = [].
Proof.
  assert (Hlabel : "SearchSubmitted" <> "") by discriminate.
  split.
  - exact (proj1 (proj2 (proj2 (debug_switch_gates_console true "SearchSubmitted" None None
                                  visitorWorld eq_refl Hlabel (fun _ _ => eq_refl))))).
  - exact (proj1 (proj2 (proj2 (debug_switch_gates_console false "SearchSubmitted" None None
                                  visitorWorld eq_refl Hlabel (fun _ _ => eq_refl))))).
Defined.

(** ** The kind of client *)




(** ** The logger's own subscription *)

Lemma extensionMessageReceived_Forwarded message w :
  quiet w -> context_userAgentIsBot w = false ->
  exists w',
    extensionMessageReceived message w = (Normal tt, w')
    /\ Forwarded w w' [connectedEvent message]
    /\ quiet w'
    /\ context_userAgentIsBot w' = false.
Proof.
  intros Hq Hbot. unfold extensionMessageReceived. cbn zeta.
  fold (connectedArgs message).
  destruct (log_Forwarded "BrowserExtensionConnectedToServer" (connectedArgs message)
              (connectedArgs message) w Hq Hbot ltac:(discriminate))
    as (w1 & R1 & W1 & F1).
  rewrite (bind_run _ _ _ _ _ R1).
  change (enabled <- debugEventLoggingEnabled ;;
          if enabled
          then emit (LoggerDebug "Browser extension detected, sync completed" None None)
          else ret tt)
    with (logToConsole "Browser extension detected, sync completed" None None).
  rewrite logToConsole_run.
  eexists. split; [reflexivity|]. split; [|split].
  - assert (F2 : Forwarded w1 (addTrace (LocalStorageGet "eventLogDebug"
                    :: (if debugEnabled w1
                        then [LoggerDebug "Browser extension detected, sync completed"
                                          None None]
                        else [])) w1) []).
    { eexists. split; [reflexivity|]. cbn. now destruct (debugEnabled w1). }
    destruct (Forwarded_trans _ _ _ _ _ F1 F2) as (new & E & F).
    exists new. split; [exact E|exact F].
  - intros l label. cbn. apply (quiet_Within _ _ _ W1 Hq).
  - unfold context_userAgentIsBot in *. cbn. now rewrite (within_context _ _ _ W1).
Qed.

Lemma deliver_Forwarded messages w :
  quiet w -> context_userAgentIsBot w = false ->
  exists w',
    deliver messages w = (Normal tt, w')
    /\ Forwarded w w' (map connectedEvent messages).
Proof.
  unfold deliver. revert w.
  induction messages as [|m ms IH]; intros w Hq Hbot; cbn [forEach map].
  - exists w. split; [reflexivity|apply Forwarded_refl].
  - destruct (extensionMessageReceived_Forwarded m w Hq Hbot) as (w1 & R1 & F1 & Hq1 & Hb1).
    rewrite (bind_run _ _ _ _ _ R1).
    destruct (IH w1 Hq1 Hb1) as (w2 & R2 & F2).
    exists w2. split; [exact R2|].
    exact (Forwarded_trans _ _ _ _ _ F1 F2).
Qed.

(** X12.  The subscription the constructor makes forwards one
    BrowserExtensionConnectedToServer action for every payload the
    presence stream delivers, in the order of delivery, with the payload's
    platform and version as both the private and the public argument
    (visitor no bot, listeners not throwing).  The stream delivers at most
    two payloads, so the connection is forwarded at most twice per page
    load, and twice when both the marker and a registration event
    arrive. *)
Theorem extension_payloads_are_forwarded isFirefox marker registrations w :
  quiet w ->
  context_userAgentIsBot w = false ->
  let messages := received isFirefox marker registrations in
  result_of (deliver messages w) = Normal tt
  /\ Forwarded w (world_of (deliver messages w)) (map connectedEvent messages)
  /\ (length (map connectedEvent messages) <= 2)%nat.
Proof.
  intros Hq Hbot messages.
  destruct (deliver_Forwarded messages w Hq Hbot) as (w' & Hrun & F).
  rewrite Hrun. split; [reflexivity|]. split; [exact F|].
  rewrite length_map. apply at_most_two_payloads.
Qed.

Lemma extension_payloads_are_forwarded_witness :
  List.filter isForwarding
    (trace (world_of (deliver (received false (Some (100, sampleMarker))
                                        [(150, sampleRegistration)]) visitorWorld)))
  = [ connectedEvent (mkPayload (Some "chrome-extension") (Some "24.1.1"));
      connectedEvent (mkPayload (Some "chrome-extension") (Some "24.1.2")) ].
Proof.
  destruct (extension_payloads_are_forwarded false (Some (100, sampleMarker))
              [(150, sampleRegistration)] visitorWorld (fun _ _ => eq_refl) eq_refl)
    as (_ & (new & E & F) & _).
  rewrite E. exact F.
Defined.

(** ** How the presence stream can fail *)

Ltac run_stream :=
  cbn [map fst snd map_ catchError_EMPTY length Nat.add interleave untilError values
       fromEvent take_1 In].

(** X13.  The presence stream fails in one way only: when reading the
    detail of the first registration event throws and the Firefox
    workaround does not apply; the failure of the marker poll is swallowed.
    Only the first registration event counts.  With no registration event
    and no marker within the timeout nothing is ever delivered.  On
    Firefox a permission error on the detail becomes the fixed
    firefox-extension payload; elsewhere it ends the stream, and a marker
    found after that moment is not reported any more. *)
Theorem presence_stream_failure_modes isFirefox marker registrations :
  let shared := browserExtensionMessageReceived isFirefox marker registrations in
  (forall t e, In (t, Error e) shared ->
               exists d rest, registrations = (t, d) :: rest /\ readDetail isFirefox d = inr e)
  /\ (forall r rest, registrations = r :: rest ->
                     shared = browserExtensionMessageReceived isFirefox marker [r])
  /\ (registrations = [] -> (forall t el, marker = Some (t, el) -> 10000 <= t) ->
      shared = [])
  /\ (forall t message rest tm el,
        isFirefox = false -> registrations = (t, Denied message) :: rest ->
        marker = Some (tm, el) -> t < tm ->
        shared = [(t, Error message)])
  /\ (forall t message rest,
        isFirefox = true -> includesText message permissionDenied = true ->
        registrations = (t, Denied message) :: rest ->
        In (t, Next (mkPayload (Some "firefox-extension")
                               (Some ("unknown due to <<" +:+ permissionDenied +:+ ">>"))))
           shared).
Proof.
  intros shared. subst shared.
  unfold browserExtensionMessageReceived, observeQuerySelector, merge.
  split; [|split; [|split; [|split]]].
  - intros t e. destruct registrations as [|[t' d] rest].
    + destruct marker as [[tm el]|]; [destruct (tm <? 10000)%Z|]; run_stream;
        intuition discriminate.
    + destruct marker as [[tm el]|]; [destruct (tm <? 10000)%Z|]; run_stream;
        destruct (readDetail isFirefox d) as [p|e'] eqn:Hd; run_stream;
        try destruct (tm <=? t')%Z; run_stream;
        intuition (try discriminate);
        match goal with
        | H : (_, _) = (_, _) |- _ => injection H as <- <-; eauto
        end.
  - intros r rest ->. reflexivity.
  - intros -> Hlate. destruct marker as [[tm el]|]; [|reflexivity].
    specialize (Hlate tm el eq_refl).
    destruct (Z.ltb_spec tm 10000); [lia|reflexivity].
  - intros t message rest tm el -> -> -> Hlt. run_stream.
    cbn [readDetail andb]. 
    destruct (tm <? 10000)%Z; run_stream;
      [destruct (Z.leb_spec tm t); [lia|]|]; reflexivity.
  - intros t message rest -> Hm ->. run_stream. cbn [readDetail andb]. rewrite Hm.
    destruct marker as [[tm el]|]; [destruct (tm <? 10000)%Z|]; run_stream;
      try destruct (tm <=? t)%Z; run_stream; tauto.
Qed.

Lemma presence_stream_failure_modes_witness :
  browserExtensionMessageReceived false (Some (100, sampleMarker))
    [(50, Denied permissionDenied)]
  = [(50, Error permissionDenied)]
  /\ values (subscribeAt 0 (browserExtensionMessageReceived true (Some (100, sampleMarker))
                              [(50, Denied permissionDenied)]))
     = [ mkPayload (Some "firefox-extension")
                   (Some ("unknown due to <<" +:+ permissionDenied +:+ ">>"));
         mkPayload (Some "chrome-extension") (Some "24.1.1") ].
Proof.
  destruct (presence_stream_failure_modes false (Some (100, sampleMarker))
              [(50, Denied permissionDenied)]) as (_ & _ & _ & Hends & _).
  split; [|reflexivity].
  apply (Hends 50 permissionDenied [] 100 sampleMarker); reflexivity.
Defined.

(** ** Construction *)

Lemma initializeLogParameters_head w :
  exists w1,
    initializeLogParameters w
    = attributionTail (resolvedAnonymousID w) (resolvedCohortID w) (resolvedDeviceID w)
                      (sessionAtStart w) w1
    /\ HeadRun w w1.
Proof.
  unfold initializeLogParameters.
  run_head.
  all: repeat match goal with
              | H : truthy _ = _ |- _ =>
                  progress (rewrite ?liveCookie_set_localStorage, ?liveCookie_set_uuidDrawn in H)
              | H : truthy _ = _ |- _ =>
                  progress (rewrite liveCookie_storeCookie_ne in H by reflexivity)
              end.
  all: unfold attributionTail, sessionAtStart, resolvedDeviceID, resolvedAnonymousID,
         resolvedCohortID, foundAnonymousID, jsOr; use_known_tests.
  all: destruct (truthy (liveCookie (browser w) DEVICE_ID_KEY)) eqn:?; cbn [negb].
  all: eexists; split; [reflexivity|].
  all: constructor;
       unfold stored;
       cbn [browser this onThis onBrowser record storeCookie set_cookieJar cookieJar
            set_localStorage set_uuidDrawn clock location referrer context
            set_deviceSessionID acceptsCookie secureContext secure cookieSettings
            deviceSessionCookieSettings negb orb];
       try reflexivity.
  all: destruct (secureContext (browser w)); try reflexivity.
  all: try (intros k Hk; unfold identityCookieKeys in Hk; cbn [In] in Hk;
            rewrite ?lookup_insert_ne by (intros <-; tauto); reflexivity).
  all: unfold sessionAtStart, resolvedAnonymousID, foundAnonymousID, jsOr; use_known_tests.
  all: rewrite ?lookup_insert_eq; reflexivity.
Qed.

Lemma initializeLogParameters_settles w :
  exists w',
    initializeLogParameters w = (Normal tt, w')
    /\ deviceSessionID (this w') = Some (sessionAtStart w)
    /\ cookieJar (browser w') !! DEVICE_SESSION_ID_KEY
       = stored w DEVICE_SESSION_ID_KEY (sessionAtStart w) deviceSessionCookieSettings
    /\ anonymousUserID (this w') = resolvedAnonymousID w
    /\ deviceID (this w') = resolvedDeviceID w
    /\ clock (browser w') = clock (browser w).
Proof.
  destruct (initializeLogParameters_head w) as (w1 & Hrun & H1).
  destruct (attribution_tail (resolvedAnonymousID w) (resolvedCohortID w) (resolvedDeviceID w)
              (sessionAtStart w) w1) as (w4 & o & s & f & Htail & W).
  rewrite Htail in Hrun. eexists. split; [exact Hrun|].
  cbn [this onThis browser]. repeat split; try reflexivity.
  - rewrite (within_jar _ _ _ W) by reflexivity. apply (head_session _ _ H1).
  - now rewrite (within_clock _ _ _ W), (head_clock _ _ H1).
Qed.

Lemma live_after_write w key value settings :
  cookieJar (browser w) !! key
  = Some (mkCookie value (expiryInstant (clock (browser w)) settings)) ->
  clock (browser w) < expiryInstant (clock (browser w)) settings ->
  liveCookie (browser w) key = Some value.
Proof.
  intros H Hlt. unfold liveCookie. rewrite H. cbn [cookie_expires cookie_value].
  destruct (Z.ltb_spec (clock (browser w)) (expiryInstant (clock (browser w)) settings));
    [reflexivity|lia].
Qed.

(** X14.  Construction settles the session id on the live session cookie
    and otherwise on the anonymous id: the session field is reset to the
    empty string first, so nothing else can win.  The id is stored in the
    field and, on a page served over HTTPS, in the session cookie, which
    expires 1797120 ms later, cut to the whole second.  On a visit without
    session and device cookies the anonymous id, the device id and the
    session id are all the same value; a returning visitor with a live
    session cookie keeps that session. *)
Theorem construction_consolidates_ids b :
  let w0 := mkWorld b initialFields [] in
  let w' := world_of (newEventLogger b) in
  result_of (newEventLogger b) = Normal tt
  /\ deviceSessionID (this w') = Some (sessionAtStart w0)
  /\ (secureContext b = true ->
      liveCookie (browser w') DEVICE_SESSION_ID_KEY = Some (sessionAtStart w0)
      /\ expiryOf w' DEVICE_SESSION_ID_KEY = Some (1000 * ((clock b + 1797120) / 1000)))
  /\ (truthy (liveCookie b DEVICE_SESSION_ID_KEY) = false ->
      deviceSessionID (this w') = Some (anonymousUserID (this w'))
      /\ (truthy (liveCookie b DEVICE_ID_KEY) = false ->
          deviceID (this w') = anonymousUserID (this w')))
  /\ (forall id, liveCookie b DEVICE_SESSION_ID_KEY = Some id -> id <> "" ->
                 deviceSessionID (this w') = Some id).
Proof.
  intros w0 w'. subst w'. unfold newEventLogger. fold w0.
  destruct (initializeLogParameters_settles w0) as (w' & Hrun & Hs & Hc & Ha & Hd & Hclock).
  rewrite Hrun. unfold world_of, result_of. cbn [fst snd].
  split; [reflexivity|]. split; [exact Hs|]. split; [|split].
  - intros Hsec. rewrite (stored_secure w0) in Hc by exact Hsec.
    pose proof (session_ttl_bounds (clock (browser w0))) as B. split.
    + apply (live_after_write _ _ _ deviceSessionCookieSettings).
      * now rewrite Hclock.
      * rewrite Hclock. lia.
    + unfold expiryOf. rewrite Hc. cbn [cookie_expires]. now rewrite session_ttl.
  - intros Hno. unfold sessionAtStart in Hs. cbn [browser w0] in Hs. rewrite Hno in Hs.
    split; [now rewrite Hs, Ha|].
    intros Hdev. rewrite Hd, Ha. unfold resolvedDeviceID. cbn [browser w0].
    now rewrite Hdev.
  - intros id Hid Hne. rewrite Hs. unfold sessionAtStart. cbn [browser w0].
    rewrite Hid. apply truthy_Some_iff in Hne. now rewrite Hne.
Qed.

Lemma construction_consolidates_ids_witness :
  deviceSessionID (this (world_of (newEventLogger returningBrowser))) = Some "session-7"
  /\ liveCookie (browser (world_of (newEventLogger returningBrowser))) DEVICE_SESSION_ID_KEY
     = Some "session-7"
  /\ deviceSessionID (this constructedWorld) = Some (anonymousUserID (this constructedWorld))
  /\ deviceID (this constructedWorld) = anonymousUserID (this constructedWorld).
Proof.
  assert (Hne : "session-7" <> "") by discriminate.
  destruct (construction_consolidates_ids returningBrowser) as (_ & _ & Hcookie & _ & Hkept).
  destruct (construction_consolidates_ids (sampleBrowser (Some dotComContext) plainPage))
    as (_ & _ & _ & Hfresh & _).
  split; [exact (Hkept "session-7" eq_refl Hne)|].
  split; [exact (proj1 (Hcookie eq_refl))|].
  destruct (Hfresh eq_refl) as [Hs Hd].
  split; [exact Hs|exact (Hd eq_refl)].
Defined.

(** ** The session id of a page *)

Lemma sessionSettled_sessionIdOf id w : sessionSettled id w -> sessionIdOf w = id.
Proof.
  intros (Hf & Hc & Ha). unfold sessionIdOf, jsOr.
  assert (Hfield : (if truthy (deviceSessionID (this w))
                    then stringOf (deviceSessionID (this w))
                    else anonymousUserID (this w)) = id).
  { rewrite Hf. destruct (truthy (Some id)) eqn:Ht; [reflexivity|].
    assert (id = "") as ->.
    { destruct (String.eqb_spec id ""); [assumption|].
      apply truthy_Some_iff in n. congruence. }
    now apply Ha. }
  destruct (liveCookie (browser w) DEVICE_SESSION_ID_KEY) as [v|] eqn:Hj; [|exact Hfield].
  destruct (truthy (Some v)) eqn:Ht; [|exact Hfield].
  rewrite Ht. cbn [stringOf]. apply (Hc v eq_refl). now apply truthy_Some_iff.
Qed.

Lemma liveCookie_storeCookie key value settings b :
  liveCookie (storeCookie key value settings b) key
  = if acceptsCookie b settings
    then (if (clock b <? expiryInstant (clock b) settings)%Z then Some value else None)
    else liveCookie b key.
Proof.
  unfold liveCookie. rewrite lookup_storeCookie.
  change (clock (storeCookie key value settings b)) with (clock b).
  now destruct (acceptsCookie b settings).
Qed.

Lemma liveCookie_elapse dt w key v :
  liveCookie (browser (elapse dt w)) key = Some v -> liveCookie (browser w) key = Some v.
Proof.
  unfold liveCookie, elapse. cbn.
  destruct (cookieJar (browser w) !! key) as [c|]; [|discriminate].
  destruct (Z.ltb_spec (clock (browser w) + Z.of_N dt) (cookie_expires c)); [|discriminate].
  intros Hv. destruct (Z.ltb_spec (clock (browser w)) (cookie_expires c)); [exact Hv|lia].
Qed.

Lemma sessionSettled_renewed id w : sessionSettled id w -> sessionSettled id (renewed w).
Proof.
  intros H. pose proof (sessionSettled_sessionIdOf _ _ H) as Hid.
  destruct H as (Hf & Hc & Ha). unfold renewed. rewrite Hid.
  split; [reflexivity|]. split; [|exact Ha].
  intros v. cbn [browser]. rewrite liveCookie_storeCookie.
  destruct (acceptsCookie (browser w) deviceSessionCookieSettings); [|apply Hc].
  destruct (Z.ltb (clock (browser w))
                  (expiryInstant (clock (browser w)) deviceSessionCookieSettings));
    [|discriminate].
  now intros [= <-].
Qed.

Lemma getDeviceSessionID_sessionSettled id : invariant (sessionSettled id) getDeviceSessionID.
Proof. intros w H. rewrite getDeviceSessionID_run. now apply sessionSettled_renewed. Qed.

Lemma reset_sessionSettled id : invariant (sessionSettled id) resetSessionCookieExpiration.
Proof.
  intros w H. rewrite resetSessionCookieExpiration_run. now apply sessionSettled_renewed.
Qed.

#[local] Hint Resolve getDeviceSessionID_sessionSettled reset_sessionSettled : invariants.

Lemma log_sessionSettled id label p q : invariant (sessionSettled id) (log label p q).
Proof.
  unfold log, callListener, logToConsole, debugEventLoggingEnabled. invariant_steps.
Qed.

#[local] Hint Resolve log_sessionSettled : invariants.

Lemma logViewEventInternal_sessionSettled id n p a :
  invariant (sessionSettled id) (logViewEventInternal n p a).
Proof.
  unfold logViewEventInternal, pageViewQueryParameters, handleQueryEvents, stripURLParameters,
    logToConsole, debugEventLoggingEnabled.
  invariant_steps.
Qed.

#[local] Hint Resolve logViewEventInternal_sessionSettled : invariants.

Lemma logPageView_sessionSettled id n p a : invariant (sessionSettled id) (logPageView n p a).
Proof. unfold logPageView. invariant_steps. Qed.

Lemma logViewEvent_sessionSettled id n p a : invariant (sessionSettled id) (logViewEvent n p a).
Proof. unfold logViewEvent. invariant_steps. Qed.

Lemma perform_sessionSettled id c w : sessionSettled id w -> sessionSettled id (perform c w).
Proof.
  intros H. by_call c w; try exact H;
    try (destruct H as (Hf & Hc & Ha);
         unfold sessionSettled, world_of, writtenBack; cbn [snd browser this];
         rewrite liveCookie_storeCookie_ne by reflexivity; now repeat split).
  - now apply log_sessionSettled.
  - now apply logPageView_sessionSettled.
  - now apply logViewEvent_sessionSettled.
  - now apply sessionSettled_renewed.
  - destruct H as (Hf & Hc & Ha). split; [exact Hf|]. split; [|exact Ha].
    intros v Hv. apply Hc. now apply liveCookie_elapse in Hv.
Qed.

Lemma occurAll_sessionSettled id events w :
  sessionSettled id w -> sessionSettled id (occurAll events w).
Proof.
  unfold occurAll. revert w.
  induction events as [|e events IH]; intros w H; cbn [fold_left]; [exact H|].
  apply IH. destruct e as [c|url]; cbn [occur]; [now apply perform_sessionSettled|exact H].
Qed.

Lemma sessionAtStart_empty w : sessionAtStart w = "" -> resolvedAnonymousID w = "".
Proof.
  unfold sessionAtStart.
  destruct (truthy (liveCookie (browser w) DEVICE_SESSION_ID_KEY)) eqn:Ht; [|tauto].
  destruct (liveCookie (browser w) DEVICE_SESSION_ID_KEY) as [s|]; [|discriminate].
  cbn [stringOf]. intros ->. discriminate.
Qed.

Lemma construction_sessionSettled b :
  sessionSettled (sessionAtStart (mkWorld b initialFields [])) (world_of (newEventLogger b)).
Proof.
  unfold newEventLogger.
  destruct (initializeLogParameters_settles (mkWorld b initialFields []))
    as (w' & Hrun & Hs & Hc & Ha & _ & Hclock).
  rewrite Hrun. unfold world_of. cbn [snd]. split; [exact Hs|]. split.
  - intros v. unfold liveCookie. rewrite Hc, Hclock. unfold stored. cbn [browser].
    destruct (acceptsCookie b deviceSessionCookieSettings).
    + cbn [cookie_value cookie_expires].
      destruct (Z.ltb (clock b) (expiryInstant (clock b) deviceSessionCookieSettings));
        [|discriminate].
      now intros [= <-].
    + fold (liveCookie b DEVICE_SESSION_ID_KEY). intros Hv Hne.
      unfold sessionAtStart. cbn [browser]. rewrite Hv.
      apply truthy_Some_iff in Hne. now rewrite Hne.
  - intros H. rewrite Ha. now apply sessionAtStart_empty.
Qed.

Lemma occurAll_secureContext events w :
  secureContext (browser (occurAll events w)) = secureContext (browser w).
Proof.
  unfold occurAll. revert w.
  induction events as [|e events IH]; intros w; cbn [fold_left]; [reflexivity|].
  rewrite IH. destruct e as [c|url]; cbn [occur]; [apply perform_secureContext|reflexivity].
Qed.

Lemma newEventLogger_secureContext b :
  secureContext (browser (world_of (newEventLogger b))) = secureContext b.
Proof.
  unfold newEventLogger.
  destruct (initializeLogParameters_resolves (mkWorld b initialFields [])) as (w' & Hrun & R).
  rewrite Hrun. exact (resolved_secureContext _ _ R).
Qed.

(** X15.  A page keeps the session id it was constructed with.  As long as
    the cookie jar is written by the logger only, every call of
    [getDeviceSessionID], and so every renewal made by [log],
    [logPageView] and [logViewEvent], settles on the id chosen at
    construction, whatever calls, navigations and waits come in between.
    This holds even after the session cookie has expired: the id then comes
    back from the field of the instance and, on a page served over HTTPS,
    is written to a new cookie, so a page left open for hours continues
    its session. *)
Theorem session_id_stable_within_page b events :
  let id := sessionAtStart (mkWorld b initialFields []) in
  let w := occurAll events (world_of (newEventLogger b)) in
  result_of (getDeviceSessionID w) = Normal id
  /\ deviceSessionID (this w) = Some id
  /\ (forall v, liveCookie (browser w) DEVICE_SESSION_ID_KEY = Some v -> v <> "" -> v = id)
  /\ (secureContext b = true ->
      liveCookie (browser (world_of (getDeviceSessionID w))) DEVICE_SESSION_ID_KEY = Some id).
Proof.
  intros id w.
  assert (H : sessionSettled id w).
  { apply occurAll_sessionSettled, construction_sessionSettled. }
  pose proof (sessionSettled_sessionIdOf _ _ H) as Hid.
  destruct H as (Hf & Hc & _).
  rewrite getDeviceSessionID_run. unfold result_of, world_of. cbn [fst snd].
  rewrite Hid. split; [reflexivity|]. split; [exact Hf|]. split; [exact Hc|].
  intros Hsec.
  assert (Hw : secureContext (browser w) = true).
  { subst w. now rewrite occurAll_secureContext, newEventLogger_secureContext. }
  unfold renewed. cbn [browser]. rewrite liveCookie_storeCookie, Hid.
  unfold acceptsCookie. rewrite Hw, orb_true_r.
  pose proof (session_ttl_bounds (clock (browser w))) as B.
  destruct (Z.ltb_spec (clock (browser w))
              (expiryInstant (clock (browser w)) deviceSessionCookieSettings));
    [reflexivity|lia].
Qed.

Lemma session_id_stable_within_page_witness :
  liveCookie (browser (occurAll longStay (world_of (newEventLogger returningBrowser))))
             DEVICE_SESSION_ID_KEY = Some "session-7"
  /\ liveCookie
       (browser (occurAll [Invoke (TimePasses 7200000)]
                          (world_of (newEventLogger returningBrowser))))
       DEVICE_SESSION_ID_KEY = None
  /\ result_of (getDeviceSessionID
                  (occurAll [Invoke (TimePasses 7200000)]
                            (world_of (newEventLogger returningBrowser))))
     = Normal "session-7"
  /\ liveCookie
       (browser (world_of (getDeviceSessionID
                             (occurAll [Invoke (TimePasses 7200000)]
                                       (world_of (newEventLogger returningBrowser))))))
       DEVICE_SESSION_ID_KEY = Some "session-7".
Proof.
  split; [vm_compute; reflexivity|]. split; [vm_compute; reflexivity|].
  destruct (session_id_stable_within_page returningBrowser [Invoke (TimePasses 7200000)])
    as (Hresult & _ & _ & Hcookie).
  split; [exact Hresult|exact (Hcookie eq_refl)].
Defined.

(** ** Reloading the page *)

Lemma occurAll_identity events w : identityOf (occurAll events w) = identityOf w.
Proof.
  unfold occurAll. revert w.
  induction events as [|e events IH]; intros w; cbn [fold_left]; [reflexivity|].
  rewrite IH. destruct e as [c|url]; cbn [occur]; [apply perform_keeps_identity|reflexivity].
Qed.

Lemma occurAll_identity_cookies events w k :
  In k [ANONYMOUS_USER_ID_KEY; COHORT_ID_KEY; DEVICE_ID_KEY] ->
  cookieJar (browser (occurAll events w)) !! k = cookieJar (browser w) !! k.
Proof.
  intros Hk. destruct (occurAll_footprint events w) as (_ & _ & J & _).
  apply J. apply other_cookie_not_written.
  - cbn [In] in Hk. intuition (subst; discriminate).
  - intros _. unfold attributionKeys. cbn [In] in *. intuition (subst; discriminate).
Qed.

Lemma truthy_stringOf o : truthy o = true -> truthy (Some (stringOf o)) = true /\ o = Some (stringOf o).
Proof. destruct o as [s|]; [|discriminate]. cbn [stringOf]. tauto. Qed.

Lemma live_until w key value expires :
  cookieJar (browser w) !! key = Some (mkCookie value expires) ->
  clock (browser w) < expires ->
  liveCookie (browser w) key = Some value.
Proof.
  intros H Hlt. unfold liveCookie. rewrite H. cbn [cookie_expires cookie_value].
  destruct (Z.ltb_spec (clock (browser w)) expires); [reflexivity|lia].
Qed.

(** X16.  The identity survives a reload.  When a page whose logger holds
    a non-empty anonymous id is loaded again within 365 days of the
    construction of that logger (less a second, the cookies' expiry being
    cut to the whole second), on a site served over HTTPS, whatever the
    logger was asked to do in between, the new logger resolves the same
    anonymous id and the same device id, and the same cohort id if there
    was one, and it draws no new id from the generator. *)
Theorem reload_keeps_identity b events :
  let w1 := occurAll events (world_of (newEventLogger b)) in
  let w2 := world_of (newEventLogger (browser w1)) in
  secureContext b = true ->
  anonymousUserID (this w1) <> "" ->
  clock (browser w1) <= clock b + 31535999000 ->
  anonymousUserID (this w2) = anonymousUserID (this w1)
  /\ deviceID (this w2) = deviceID (this w1)
  /\ (truthy (cohortID (this w1)) = true -> cohortID (this w2) = cohortID (this w1))
  /\ uuidDrawn (browser w2) = uuidDrawn (browser w1)
  /\ List.filter isUuidV4 (trace w2) = [].
Proof.
  intros w1 w2 Hsec Hanon Hclock.
  set (w0 := mkWorld b initialFields []).
  destruct (initializeLogParameters_resolves w0) as (w0' & Hrun0 & R0).
  assert (Hw0' : world_of (newEventLogger b) = w0').
  { unfold newEventLogger. fold w0. now rewrite Hrun0. }
  pose proof (occurAll_identity events w0') as Hid. rewrite <- Hw0' in Hid. fold w1 in Hid.
  unfold identityOf in Hid. rewrite Hw0' in Hid. injection Hid as Ha Hc Hd.
  rewrite (resolved_anonymousUserID _ _ R0) in Ha.
  rewrite (resolved_cohortID _ _ R0) in Hc.
  rewrite (resolved_deviceID _ _ R0) in Hd.
  assert (Hjar : forall k, In k [ANONYMOUS_USER_ID_KEY; COHORT_ID_KEY; DEVICE_ID_KEY] ->
                           cookieJar (browser w1) !! k = cookieJar (browser w0') !! k).
  { intros k Hk. subst w1. rewrite Hw0'. now apply occurAll_identity_cookies. }
  assert (Hexp : clock (browser w1) < expiryInstant (clock (browser w0)) cookieSettings).
  { pose proof (long_ttl_bounds (clock (browser w0))) as B. cbn [browser w0] in *. lia. }
  assert (Hla : liveCookie (browser w1) ANONYMOUS_USER_ID_KEY
                = Some (anonymousUserID (this w1))).
  { apply (live_until _ _ _ (expiryInstant (clock (browser w0)) cookieSettings)); [|exact Hexp].
    rewrite Hjar by (cbn; tauto).
    rewrite (resolved_anonymous_cookie _ _ R0), stored_secure by exact Hsec.
    now rewrite Ha. }
  assert (Htd : truthy (Some (deviceID (this w1))) = true).
  { rewrite Hd. unfold resolvedDeviceID.
    destruct (truthy (liveCookie (browser w0) DEVICE_ID_KEY)) eqn:Ht.
    - now apply truthy_stringOf.
    - rewrite <- Ha. now apply truthy_Some_iff. }
  assert (Hld : liveCookie (browser w1) DEVICE_ID_KEY = Some (deviceID (this w1))).
  { apply (live_until _ _ _ (expiryInstant (clock (browser w0)) cookieSettings)); [|exact Hexp].
    rewrite Hjar by (cbn; tauto).
    rewrite (resolved_device_cookie _ _ R0), stored_secure by exact Hsec.
    now rewrite Hd. }
  set (w1' := mkWorld (browser w1) initialFields []).
  destruct (initializeLogParameters_resolves w1') as (w2' & Hrun1 & R1).
  assert (Hw2 : w2 = w2').
  { subst w2. unfold newEventLogger. fold w1'. now rewrite Hrun1. }
  rewrite Hw2.
  assert (Hfound : foundAnonymousID w1' = Some (anonymousUserID (this w1))
                   /\ truthy (foundAnonymousID w1') = true).
  { unfold foundAnonymousID, jsOr. cbn [browser w1']. rewrite Hla.
    apply truthy_Some_iff in Hanon. now rewrite Hanon. }
  destruct Hfound as [Hfound Htf].
  split; [|split; [|split; [|split]]].
  - rewrite (resolved_anonymousUserID _ _ R1). unfold resolvedAnonymousID.
    now rewrite Htf, Hfound.
  - rewrite (resolved_deviceID _ _ R1). unfold resolvedDeviceID. cbn [browser w1'].
    now rewrite Hld, Htd.
  - intros Htc. rewrite (resolved_cohortID _ _ R1). unfold resolvedCohortID.
    rewrite Htf. cbn [browser w1'].
    destruct (truthy_stringOf _ Htc) as [_ Hsome].
    rewrite Hsome.
    apply (live_until _ _ _ (expiryInstant (clock (browser w0)) cookieSettings)); [|exact Hexp].
    rewrite Hjar by (cbn; tauto).
    rewrite (resolved_cohort_cookie _ _ R0). rewrite Hc in Htc. rewrite Htc.
    rewrite stored_secure by exact Hsec. now rewrite Hc.
  - rewrite (resolved_uuidDrawn _ _ R1). now rewrite Htf.
  - destruct (resolved_trace _ _ R1) as (new & E & _ & Fu).
    rewrite E. cbn [trace w1' app]. now rewrite Fu, Htf.
Qed.

Lemma reload_keeps_identity_witness :
  let w1 := occurAll sampleEvents constructedWorld in
  let w2 := world_of (newEventLogger (browser w1)) in
  anonymousUserID (this w2) = anonymousUserID (this w1)
  /\ deviceID (this w2) = deviceID (this w1)
  /\ cohortID (this w2) = cohortID (this w1).
Proof.
  intros w1 w2.
  assert (Hne : anonymousUserID (this w1) <> "").
  { intros H. vm_compute in H. discriminate H. }
  assert (Hclock : clock (browser w1)
                   <= clock (sampleBrowser (Some dotComContext) plainPage) + 31535999000).
  { vm_compute. discriminate. }
  destruct (reload_keeps_identity (sampleBrowser (Some dotComContext) plainPage) sampleEvents
              eq_refl Hne Hclock) as (Ha & Hd & Hc & _).
  split; [exact Ha|]. split; [exact Hd|]. apply Hc. vm_compute. reflexivity.
Defined.
